(** * ccon: a shallow embedding of src/ccon.c

    The host and the container process of ccon are two sequential C
    programs that talk to the kernel, to libcap-ng and to each other.
    Each C function is embedded as a function in a small monad [M]:
    the state is the [world] (the answers the environment is going to
    give, the calls made so far, stderr), the result is an [outcome]
    (the function returned, the process called exit, the process image
    was replaced by an exec call, or the C program has no defined
    behaviour). *)

From Stdlib Require Import ZArith List String Ascii Bool Lia DecimalString.
Import ListNotations.
Local Open Scope string_scope.
Local Open Scope list_scope.
Local Open Scope Z_scope.

(** ** C strings and bytes *)

Definition NUL : ascii := "000"%char.
Definition newline : ascii := "010"%char.

(** A string literal that ends in a line feed, as [s "\n"] in C. *)
Definition line (s : string) : string := (s ++ String newline EmptyString)%string.

(** The bytes C sees behind a [char *]: everything before the first NUL. *)
Fixpoint c_str (s : string) : string :=
  match s with
  | EmptyString => EmptyString
  | String c r => if Ascii.eqb c NUL then EmptyString else String c (c_str r)
  end.

Definition strlen (s : string) : Z := Z.of_nat (String.length s).

Definition uchar (c : ascii) : Z := Z.of_N (N_of_ascii c).

(** [strncmp s1 s2 n] on two NUL-terminated strings. *)
Fixpoint strncmp (s1 s2 : string) (n : nat) : Z :=
  match n with
  | O => 0
  | S n' =>
    match s1, s2 with
    | EmptyString, EmptyString => 0
    | EmptyString, String c2 _ => - uchar c2
    | String c1 _, EmptyString => uchar c1
    | String c1 r1, String c2 r2 =>
      if Ascii.eqb c1 c2 then strncmp r1 r2 n' else uchar c1 - uchar c2
    end
  end.

(** [strncmp lit buf n] where [buf] is memory that holds [length buf]
    initialised bytes and no terminator (the buffer [getline_fd] fills):
    [None] when the comparison would read past the initialised bytes. *)
Fixpoint strncmp_buf (lit : string) (buf : list ascii) (n : nat) : option Z :=
  match n with
  | O => Some 0
  | S n' =>
    match buf with
    | [] => None
    | b :: rest =>
      match lit with
      | EmptyString => if Ascii.eqb b NUL then Some 0 else Some (- uchar b)
      | String c r =>
        if Ascii.eqb c b then strncmp_buf r rest n' else Some (uchar c - uchar b)
      end
    end
  end.

(** [s[0] == c] for a NUL-terminated string. *)
Definition first_char_is (c : ascii) (s : string) : bool :=
  match s with
  | EmptyString => Ascii.eqb NUL c
  | String c0 _ => Ascii.eqb c0 c
  end.

(** [strchr(s, c) != NULL] for [c] other than NUL. *)
Fixpoint has_char (c : ascii) (s : string) : bool :=
  match s with
  | EmptyString => false
  | String c0 r => Ascii.eqb c0 c || has_char c r
  end.

(** The tokens [strtok(s, delim)] returns one after the other: the
    maximal runs of bytes other than [delim]. *)
Fixpoint strtok_all (delim : ascii) (s : string) (cur : string) : list string :=
  match s with
  | EmptyString => if (String.length cur =? 0)%nat then [] else [cur]
  | String c r =>
    if Ascii.eqb c delim
    then (if (String.length cur =? 0)%nat then strtok_all delim r EmptyString
          else cur :: strtok_all delim r EmptyString)
    else strtok_all delim r (cur ++ String c EmptyString)%string
  end.

(** [basename] of <libgen.h>: trailing slashes do not count, the
    result is what follows the last slash that is left. *)
Fixpoint drop_slashes (l : list ascii) : list ascii :=
  match l with
  | c :: r => if Ascii.eqb c "/"%char then drop_slashes r else l
  | [] => []
  end.

Fixpoint upto_slash (l : list ascii) : list ascii :=
  match l with
  | c :: r => if Ascii.eqb c "/"%char then [] else c :: upto_slash r
  | [] => []
  end.

Definition basename (s : string) : string :=
  match s with
  | EmptyString => "."
  | _ =>
    match drop_slashes (rev (list_ascii_of_string s)) with
    | [] => "/"
    | l => string_of_list_ascii (rev (upto_slash l))
    end
  end.

(** ** Integer conversions and [printf] conversions *)

Definition to_uint32 (z : Z) : Z := z mod 2 ^ 32.
Definition to_uint64 (z : Z) : Z := z mod 2 ^ 64.
Definition to_int32 (z : Z) : Z :=
  let u := z mod 2 ^ 32 in if u <? 2 ^ 31 then u else u - 2 ^ 32.

(** ["%d"], ["%u"] and ["%lu"] print the decimal digits of a value of
    the right range. *)
Definition fmt_d (z : Z) : string := NilZero.string_of_int (Z.to_int z).

(** ** JSON values (jansson's [json_t]) *)

#[local] Set Warnings "-register-all".

Inductive json : Type :=
| JNull
| JTrue
| JFalse
| JInteger (z : Z)
| JReal
| JString (s : string)
| JArray (l : list json)
| JObject (kv : list (string * json)).

Fixpoint assoc (key : string) (kv : list (string * json)) : option json :=
  match kv with
  | [] => None
  | (k, v) :: rest => if String.eqb k key then Some v else assoc key rest
  end.

Definition json_is_object (j : json) : bool :=
  match j with JObject _ => true | _ => false end.

(** [json_object_get] is NULL for a value that is not an object. *)
Definition json_object_get (j : json) (key : string) : option json :=
  match j with JObject kv => assoc key kv | _ => None end.

(** [json_string_value] is NULL for a value that is not a string. *)
Definition json_string_value (j : json) : option string :=
  match j with JString s => Some (c_str s) | _ => None end.

(** [json_integer_value] is 0 for a value that is not an integer. *)
Definition json_integer_value (j : json) : Z :=
  match j with JInteger z => z | _ => 0 end.

(** [json_boolean_value] is [json_is_true]. *)
Definition json_boolean_value (j : json) : bool :=
  match j with JTrue => true | _ => false end.

(** The elements [json_array_foreach] visits, in index order; none for
    a value that is not an array. *)
Definition json_array_elements (j : json) : list json :=
  match j with JArray l => l | _ => [] end.

Definition json_array_size (j : json) : Z :=
  Z.of_nat (List.length (json_array_elements j)).

Definition json_array_get (j : json) (i : nat) : option json :=
  nth_error (json_array_elements j) i.

(** The members [json_object_foreach] visits, in insertion order. *)
Definition json_object_items (j : json) : list (string * json) :=
  match j with JObject kv => kv | _ => [] end.

(** ** The environment

    Every call that leaves the program (a system call, a libcap-ng
    call, a read of the [child_pid] cell that the SIGCHLD handler
    writes) takes the next [answer] of the environment.  An answer
    holds the call's return value and the values the call stores
    through its pointer arguments; a call reads the fields it has. *)

Record answer : Type := mkAnswer {
  a_ret : Z;       (* return value; for a cell, the value it holds *)
  a_errno : Z;     (* errno after a failure *)
  a_byte : ascii;  (* read: the byte stored in the buffer *)
  a_str : string;  (* getcwd, getenv, mkdtemp: the string produced *)
  a_code : Z;      (* waitid: siginfo.si_code *)
  a_status : Z;    (* waitid: siginfo.si_status *)
  a_fd0 : Z;       (* pipe: the read end *)
  a_fd1 : Z        (* pipe: the write end *)
}.

Definition ans (r : Z) : answer := mkAnswer r 0 NUL EmptyString 0 0 0 0.
Definition ans_err (e : Z) : answer := mkAnswer (-1) e NUL EmptyString 0 0 0 0.
Definition ans_byte (b : ascii) : answer := mkAnswer 1 0 b EmptyString 0 0 0 0.
Definition ans_str (s : string) : answer := mkAnswer 0 0 NUL s 0 0 0 0.
Definition ans_wait (code status : Z) : answer :=
  mkAnswer 0 0 NUL EmptyString code status 0 0.
Definition ans_pipe (r w : Z) : answer := mkAnswer 0 0 NUL EmptyString 0 0 r w.

(** Once the environment's answers are used up every further call fails. *)
Definition no_answer : answer := ans_err 0.

(** Constants of the Linux headers (x86-64) the program names. *)
Definition SIGHUP : Z := 1.
Definition SIGINT : Z := 2.
Definition SIGKILL : Z := 9.
Definition SIGTERM : Z := 15.
Definition SIGCHLD : Z := 17.
Definition EINTR : Z := 4.
Definition CLD_EXITED : Z := 1.
Definition CLD_KILLED : Z := 2.
Definition CLD_DUMPED : Z := 3.
Definition O_RDONLY : Z := 0.
Definition O_WRONLY : Z := 1.
Definition O_CLOEXEC : Z := 524288.
Definition O_PATH : Z := 2097152.
Definition AT_EMPTY_PATH : Z := 4096.
Definition MNT_DETACH : Z := 2.
Definition STDIN_FILENO : Z := 0.
Definition CLONE_NEWNS : Z := 131072.
Definition CLONE_NEWUTS : Z := 67108864.
Definition CLONE_NEWIPC : Z := 134217728.
Definition CLONE_NEWUSER : Z := 268435456.
Definition CLONE_NEWPID : Z := 536870912.
Definition CLONE_NEWNET : Z := 1073741824.
Definition SA_NOCLDSTOP : Z := 1.
Definition SA_SIGINFO : Z := 4.

(** Constants of <cap-ng.h>. *)
Definition CAPNG_ADD : Z := 1.
Definition CAPNG_EFFECTIVE : Z := 1.
Definition CAPNG_PERMITTED : Z := 2.
Definition CAPNG_INHERITABLE : Z := 4.
Definition CAPNG_BOUNDING_SET : Z := 8.
Definition CAPNG_SELECT_BOTH : Z := 48.

(** Constants of the program itself. *)
Definition STACK_SIZE : Z := 1024 * 1024.
Definition MAX_PATH : Z := 1024.
Definition USER_NAMESPACE_MAPPING_COMPLETE : string :=
  line "user-namespace-mapping-complete".
Definition CONTAINER_SETUP_COMPLETE : string := line "container-setup-complete".
Definition EXEC_PROCESS : string := line "exec-process".

(** The signal handlers [run_container] installs. *)
Inductive handler : Type := kill_child | reap_child.

(** A call and what it returned. *)
Inductive event : Type :=
| EvWrite (fd : Z) (data : string) (r : Z)
| EvDprintf (fd : Z) (data : string) (r : Z)
| EvRead (fd : Z) (r : Z) (b : ascii)
| EvClose (fd : Z) (r : Z)
| EvOpen (path : string) (flags : Z) (r : Z)
| EvPipe (r fd0 fd1 : Z)
| EvDup2 (oldfd newfd r : Z)
| EvFork (r : Z)
| EvClone (flags : Z) (r : Z)
| EvSigaction (signum : Z) (h : handler) (flags : Z) (r : Z)
| EvKill (pid : Z) (sig : Z) (r : Z)
| EvWaitid (name : string) (pid : Z) (r errno code status : Z)
| EvChildPid (v : Z)
| EvChdir (path : string) (r : Z)
| EvGetcwd (size : Z) (res : option string)
| EvGetenv (name : string) (res : option string)
| EvSetgid (gid : Z) (r : Z)
| EvSetgroups (gids : list Z) (r : Z)
| EvSetuid (uid : Z) (r : Z)
| EvSetns (fd : Z) (nstype : Z) (r : Z)
| EvMount (source target type : option string) (flags : Z)
          (data : option string) (r : Z)
| EvMkdtemp (template : string) (res : option string)
| EvPivotRoot (new_root put_old : string) (r : Z)
| EvUmount2 (target : string) (flags : Z) (r : Z)
| EvRmdir (path : string) (r : Z)
| EvExecveat (fd : Z) (path : string) (argv : list string)
             (env : option (list string)) (flags : Z) (r : Z)
| EvExecvpe (file : option string) (argv : list string)
            (env : option (list string)) (r : Z)
| EvCapngClear (sel : Z)
| EvCapngUpdate (action type cap : Z) (r : Z)
| EvCapngApply (sel : Z) (r : Z).

(** What [LOG] and [PERROR] send to stderr: the format with its
    arguments, or the message [perror] prefixes to the error text. *)
Inductive logarg : Type :=
| LStr (s : option string)
| LInt (z : Z).

Inductive logline : Type :=
| Log (fmt : string) (args : list logarg)
| Perror (msg : string).

Record world : Type := mkWorld {
  w_tape : list answer;     (* the answers still to come *)
  w_heap : list bool;       (* the next allocations: does each succeed?
                               once used up, allocations succeed *)
  w_trace : list event;     (* the calls made, the latest first *)
  w_verbose : bool;         (* the [verbose] flag *)
  w_stderr : list logline   (* stderr, the latest line first *)
}.

Definition init_world (tape : list answer) (heap : list bool) (verbose : bool)
  : world := mkWorld tape heap [] verbose [].

(** The calls of a run in the order they were made. *)
Definition history (w : world) : list event := rev (w_trace w).

Inductive outcome (A : Type) : Type :=
| Ret (a : A)        (* the function returned [a] *)
| Exit (status : Z)  (* the process called [exit] *)
| Execd              (* an exec call replaced the process image *)
| Undef              (* no defined behaviour (a NULL or uninitialised read) *)
| OutOfFuel.         (* a loop bound of the embedding was reached *)

Arguments Ret {A} a.
Arguments Exit {A} status.
Arguments Execd {A}.
Arguments Undef {A}.
Arguments OutOfFuel {A}.

Definition M (A : Type) : Type := world -> outcome A * world.

Definition ret {A} (a : A) : M A := fun w => (Ret a, w).

Definition bind {A B} (m : M A) (f : A -> M B) : M B :=
  fun w =>
    match m w with
    | (Ret a, w') => f a w'
    | (Exit s, w') => (Exit s, w')
    | (Execd, w') => (Execd, w')
    | (Undef, w') => (Undef, w')
    | (OutOfFuel, w') => (OutOfFuel, w')
    end.

Notation "x <- m ;; k" := (bind m (fun x => k))
  (at level 61, m at next level, right associativity).
Notation "' p <- m ;; k" := (bind m (fun x => let p := x in k))
  (at level 61, p pattern, m at next level, right associativity).
Notation "m ;;; k" := (bind m (fun _ => k))
  (at level 61, right associativity).

Definition exit {A} (status : Z) : M A := fun w => (Exit status, w).
Definition undefined {A} : M A := fun w => (Undef, w).
Definition out_of_fuel {A} : M A := fun w => (OutOfFuel, w).

(** The next answer of the environment, and the world once the call
    [ev] that took it has been made. *)
Definition next (w : world) : answer := hd no_answer (w_tape w).

Definition called (ev : event) (w : world) : world :=
  mkWorld (tl (w_tape w)) (w_heap w) (ev :: w_trace w) (w_verbose w) (w_stderr w).

(** [malloc], [realloc], [strdup]: does the allocation succeed? *)
Definition alloc : M bool :=
  fun w => (Ret (hd true (w_heap w)),
            mkWorld (w_tape w) (tl (w_heap w)) (w_trace w) (w_verbose w) (w_stderr w)).

Definition say (l : logline) (w : world) : world :=
  mkWorld (w_tape w) (w_heap w) (w_trace w) (w_verbose w)
          (if w_verbose w then l :: w_stderr w else w_stderr w).

Definition LOG (fmt : string) (args : list logarg) : M unit :=
  fun w => (Ret tt, say (Log fmt args) w).

Definition PERROR (msg : string) : M unit :=
  fun w => (Ret tt, say (Perror msg) w).

(** [perror] called directly: it does not look at [verbose]. *)
Definition perror (msg : string) : M unit :=
  fun w => (Ret tt, mkWorld (w_tape w) (w_heap w) (w_trace w) (w_verbose w)
                            (Perror msg :: w_stderr w)).

(** ** Calls into the environment *)

(** A call that takes the next answer: [mk] is the call as recorded,
    [res] what the program gets back. *)
Definition sys {A} (mk : answer -> event) (res : answer -> A) : M A :=
  fun w => (Ret (res (next w)), called (mk (next w)) w).

(** A call that returns nothing ([capng_clear]): it takes no answer. *)
Definition sys_void (ev : event) : M unit :=
  fun w => (Ret tt, mkWorld (w_tape w) (w_heap w) (ev :: w_trace w)
                            (w_verbose w) (w_stderr w)).

(** A call that returns a string, or NULL. *)
Definition str_result (a : answer) : option string :=
  if a_ret a <? 0 then None else Some (c_str (a_str a)).

(** [getcwd(buf, size)] fails when the path does not fit in [size] bytes. *)
Definition getcwd_result (size : Z) (a : answer) : option string :=
  match str_result a with
  | Some s => if strlen s + 1 <=? size then Some s else None
  | None => None
  end.

Definition sys_write (fd : Z) (data : string) : M Z :=
  sys (fun a => EvWrite fd data (a_ret a)) a_ret.
Definition sys_dprintf (fd : Z) (data : string) : M Z :=
  sys (fun a => EvDprintf fd data (a_ret a)) a_ret.
(** [read(fd, p, 1)]: the return value and the byte stored at [p]. *)
Definition sys_read1 (fd : Z) : M (Z * ascii) :=
  sys (fun a => EvRead fd (a_ret a) (a_byte a)) (fun a => (a_ret a, a_byte a)).
Definition sys_close (fd : Z) : M Z :=
  sys (fun a => EvClose fd (a_ret a)) a_ret.
Definition sys_open (path : string) (flags : Z) : M Z :=
  sys (fun a => EvOpen path flags (a_ret a)) a_ret.
Definition sys_pipe : M (Z * (Z * Z)) :=
  sys (fun a => EvPipe (a_ret a) (a_fd0 a) (a_fd1 a))
      (fun a => (a_ret a, (a_fd0 a, a_fd1 a))).
Definition sys_dup2 (oldfd newfd : Z) : M Z :=
  sys (fun a => EvDup2 oldfd newfd (a_ret a)) a_ret.
Definition sys_fork : M Z := sys (fun a => EvFork (a_ret a)) a_ret.
Definition sys_clone (flags : Z) : M Z :=
  sys (fun a => EvClone flags (a_ret a)) a_ret.
Definition sys_sigaction (signum : Z) (h : handler) (flags : Z) : M Z :=
  sys (fun a => EvSigaction signum h flags (a_ret a)) a_ret.
Definition sys_kill (pid sig : Z) : M Z :=
  sys (fun a => EvKill pid sig (a_ret a)) a_ret.
(** [waitid(P_PID, pid, &siginfo, WEXITED)] on behalf of [_wait(pid, name)]. *)
Definition sys_waitid (name : string) (pid : Z) : M answer :=
  sys (fun a => EvWaitid name pid (a_ret a) (a_errno a) (a_code a) (a_status a))
      (fun a => a).
(** A read of the global [child_pid], which [reap_child] sets to -1
    whenever SIGCHLD reports the container. *)
Definition read_child_pid : M Z := sys (fun a => EvChildPid (a_ret a)) a_ret.
Definition sys_chdir (path : string) : M Z :=
  sys (fun a => EvChdir path (a_ret a)) a_ret.
Definition sys_getcwd (size : Z) : M (option string) :=
  sys (fun a => EvGetcwd size (getcwd_result size a)) (getcwd_result size).
Definition sys_getenv (name : string) : M (option string) :=
  sys (fun a => EvGetenv name (str_result a)) str_result.
Definition sys_setgid (gid : Z) : M Z :=
  sys (fun a => EvSetgid gid (a_ret a)) a_ret.
Definition sys_setgroups (gids : list Z) : M Z :=
  sys (fun a => EvSetgroups gids (a_ret a)) a_ret.
Definition sys_setuid (uid : Z) : M Z :=
  sys (fun a => EvSetuid uid (a_ret a)) a_ret.
Definition sys_setns (fd nstype : Z) : M Z :=
  sys (fun a => EvSetns fd nstype (a_ret a)) a_ret.
Definition sys_mount (source target type : option string) (flags : Z)
           (data : option string) : M Z :=
  sys (fun a => EvMount source target type flags data (a_ret a)) a_ret.
Definition sys_mkdtemp (template : string) : M (option string) :=
  sys (fun a => EvMkdtemp template (str_result a)) str_result.
Definition sys_pivot_root (new_root put_old : string) : M Z :=
  sys (fun a => EvPivotRoot new_root put_old (a_ret a)) a_ret.
Definition sys_umount2 (target : string) (flags : Z) : M Z :=
  sys (fun a => EvUmount2 target flags (a_ret a)) a_ret.
Definition sys_rmdir (path : string) : M Z :=
  sys (fun a => EvRmdir path (a_ret a)) a_ret.
Definition capng_clear (sel : Z) : M unit := sys_void (EvCapngClear sel).
Definition capng_update (action type cap : Z) : M Z :=
  sys (fun a => EvCapngUpdate action type cap (a_ret a)) a_ret.
Definition capng_apply (sel : Z) : M Z :=
  sys (fun a => EvCapngApply sel (a_ret a)) a_ret.

(** An exec call returns (with -1) only when it fails. *)
Definition sys_execveat (fd : Z) (path : string) (argv : list string)
           (env : option (list string)) (flags : Z) : M unit :=
  fun w =>
    (if a_ret (next w) =? -1 then Ret tt else Execd,
     called (EvExecveat fd path argv env flags (a_ret (next w))) w).

(** [execvpe(file, argv, env)]; a NULL [file] is outside its contract. *)
Definition sys_execvpe (file : option string) (argv : list string)
           (env : option (list string)) : M unit :=
  fun w =>
    (match file with
     | None => Undef
     | Some _ => if a_ret (next w) =? -1 then Ret tt else Execd
     end,
     called (EvExecvpe file argv env (a_ret (next w))) w).

(** ** Helpers of ccon.c *)

(** [LOG(" %s", argv[i])] for every element of [argv]. *)
Fixpoint log_each (fmt : string) (l : list string) : M unit :=
  match l with
  | [] => ret tt
  | s :: rest => LOG fmt [LStr (Some s)] ;;; log_each fmt rest
  end.

(** [close_pipe(pipe_fd)]: the error flag and the array afterwards. *)
Definition close_pipe (pipe_fd : Z * Z) : M (Z * (Z * Z)) :=
  '(err, fd0) <-
    (if fst pipe_fd >=? 0 then
       r <- sys_close (fst pipe_fd) ;;
       (if r =? -1 then PERROR "close pipe read-end" ;;; ret (1, -1)
        else ret (0, -1))
     else ret (0, fst pipe_fd)) ;;
  '(err, fd1) <-
    (if snd pipe_fd >=? 0 then
       r <- sys_close (snd pipe_fd) ;;
       (if r =? -1 then PERROR "close pipe write-end" ;;; ret (1, -1)
        else ret (err, -1))
     else ret (err, snd pipe_fd)) ;;
  ret (err, (fd0, fd1)).

(** The [for (;;)] of [_wait]: one more turn for every EINTR. *)
Fixpoint _wait_loop (fuel : nat) (pid : Z) (name : string) : M Z :=
  match fuel with
  | O => out_of_fuel
  | S fuel' =>
    a <- sys_waitid name pid ;;
    if a_ret a =? -1 then
      if a_errno a =? EINTR then _wait_loop fuel' pid name
      else PERROR "waitid-x" ;;; ret 1
    else if a_code a =? CLD_EXITED then
      LOG "%s process %d exited with %d\n"
          [LStr (Some name); LInt pid; LInt (a_status a)] ;;;
      ret (a_status a)
    else if a_code a =? CLD_KILLED then
      LOG "%s killed (%s, %d)\n"
          [LStr (Some name); LInt (a_status a); LInt (a_status a)] ;;;
      ret 1
    else if a_code a =? CLD_DUMPED then
      LOG "%s killed by signal %d and dumped core\n"
          [LStr (Some name); LInt (a_status a)] ;;;
      ret 1
    else
      LOG "unrecognized %s exit condition: %d\n"
          [LStr (Some name); LInt (a_code a)] ;;;
      ret 1
  end.

(** Every turn but the last takes an EINTR answer, and the answers run
    out: one turn more than there are answers is enough. *)
Definition _wait (pid : Z) (name : string) : M Z :=
  fun w => _wait_loop (S (List.length (w_tape w))) pid name w.

(** Storing [b] as byte [i] of a buffer whose initialised bytes are [l]. *)
Definition store_at (l : list ascii) (i : nat) (b : ascii) : list ascii :=
  firstn i l ++ b :: skipn (S i) l.

Definition getline_max : Z := 16384.
Definition getline_block : Z := 512.

(** The [do ... while] of [getline_fd]; [buf] is [*buf] (NULL, or the
    initialised bytes of the buffer), [n] is [*n].  The result is the
    return value with [*buf] and [*n] afterwards. *)
Fixpoint getline_fd_loop (fuel : nat) (buf : option (list ascii)) (n : Z)
         (fd : Z) (size : Z) : M (Z * (option (list ascii) * Z)) :=
  match fuel with
  | O => out_of_fuel
  | S fuel' =>
    grown <-
      (if size =? n then
         ok <- alloc ;;
         (if ok
          then ret (Some (Some (match buf with Some l => l | None => [] end),
                          n + getline_block))
          else PERROR "realloc" ;;; ret None)
       else ret (Some (buf, n))) ;;
    match grown with
    | None => ret (-1, (buf, n))
    | Some (buf, n) =>
      '(s, b) <- sys_read1 fd ;;
      if s =? -1 then PERROR "read" ;;; ret (-1, (buf, n))
      else if negb (s =? 1) then ret (-1, (buf, n))
      else
        match buf with
        | None => undefined
        | Some l =>
          let l' := store_at l (Z.to_nat size) b in
          let size' := size + s in
          if size' >=? getline_max then ret (-1, (Some l', n))
          else if Ascii.eqb b newline then ret (size', (Some l', n))
          else getline_fd_loop fuel' (Some l') n fd size'
        end
    end
  end.

(** A turn either returns or adds one to [size], and [size >= max]
    returns: [max] turns are enough. *)
Definition getline_fd (buf : option (list ascii)) (n : Z) (fd : Z)
  : M (Z * (option (list ascii) * Z)) :=
  getline_fd_loop (Z.to_nat getline_max) buf n fd 0.

(** [json_array_of_strings_value]: the loop that [strdup]s every
    element.  [strdup(NULL)], for an element that is not a string, has
    no defined behaviour. *)
Fixpoint strdup_each (l : list json) : M (option (list string)) :=
  match l with
  | [] => ret (Some [])
  | value :: rest =>
    match json_string_value value with
    | None => undefined
    | Some s =>
      ok <- alloc ;;
      if ok then r <- strdup_each rest ;; ret (option_map (cons s) r)
      else PERROR "strdup" ;;; ret None
    end
  end.

(** The NULL-terminated array, or NULL. *)
Definition json_array_of_strings_value (array : json) : M (option (list string)) :=
  ok <- alloc ;;
  if ok then strdup_each (json_array_elements array)
  else PERROR "malloc" ;;; ret None.

(** [exec_process] returns only when it could not exec.  [env] is
    [None] where the C code passes [environ]. *)
Definition exec_process (process : json) (exec_fd : Z) : M unit :=
  match json_object_get process "args" with
  | None => LOG "args not specified, exiting\n" [] ;;; exit 0
  | Some value =>
    argv <- json_array_of_strings_value value ;;
    match argv with
    | None => LOG "failed to extract args\n" []
    | Some argv =>
      env <- match json_object_get process "env" with
             | Some value =>
               e <- json_array_of_strings_value value ;;
               ret (option_map Some e)
             | None => ret (Some None)
             end ;;
      match env with
      | None => LOG "failed to extract env\n" []
      | Some env =>
        if exec_fd >=? 0 then
          LOG "execute host executable:" [] ;;;
          log_each " %s" argv ;;;
          LOG "\n" [] ;;;
          sys_execveat exec_fd "" argv env AT_EMPTY_PATH ;;;
          PERROR "execveat"
        else
          match json_object_get process "path" with
          | Some value =>
            match json_string_value value with
            | None => undefined
            | Some path =>
              ok <- alloc ;;
              if ok then
                LOG "execute [%s]:" [LStr (Some path)] ;;;
                log_each " %s" argv ;;;
                LOG "\n" [] ;;;
                sys_execvpe (Some path) argv env ;;;
                PERROR "execvpe"
              else PERROR "strdup"
            end
          | None =>
            LOG "execute:" [] ;;;
            log_each " %s" argv ;;;
            LOG "\n" [] ;;;
            sys_execvpe (hd_error argv) argv env ;;;
            PERROR "execvpe"
          end
      end
    end
  end.

(** ** The host side *)

Definition supported_versions : list string := ["0.1.0"; "0.2.0"].

(** The [for] of [validate_version] over [supported_versions]. *)
Fixpoint version_supported (supported : list string) (version : string) : bool :=
  match supported with
  | [] => false
  | v :: rest =>
    if strncmp v version (String.length v) =? 0 then true
    else version_supported rest version
  end.

(** [json_string_value] gives NULL for a version that is not a string,
    and [strncmp] then reads through it. *)
Definition validate_version (config : json) : M Z :=
  match json_string_value config with
  | None => undefined
  | Some version =>
    if version_supported supported_versions version then ret 0
    else LOG "config version %s is not supported\n" [LStr (Some version)] ;;;
         ret 1
  end.

Definition validate_config (config : json) : M Z :=
  if negb (json_is_object config) then
    LOG "config JSON is not an object\n" [] ;;; ret 1
  else
    match json_object_get config "version" with
    | None => LOG "failed to get version from config\n" [] ;;; ret 1
    | Some value =>
      err <- validate_version value ;;
      if negb (err =? 0) then ret err else ret 0
    end.

(** The block [if (cpid) { ... }] of [run_hooks] that hands the
    container's PID to the hook: [inl r] when [run_hooks] returns [r],
    [inr pipe_fd] otherwise. *)
Definition hook_pipe (cpid : Z) : M (Z + (Z * Z)) :=
  '(r, pipe_fd) <- sys_pipe ;;
  if r =? -1 then PERROR "pipe" ;;; ret (inl 1)
  else
    d <- sys_dprintf (snd pipe_fd) (line (fmt_d cpid)) ;;
    if d <? 0 then
      PERROR "dprintf" ;;; _ <- close_pipe pipe_fd ;; ret (inl 1)
    else
      c <- sys_close (snd pipe_fd) ;;
      if negb (c =? 0) then
        PERROR "close host-to-hook pipe write-end" ;;;
        _ <- close_pipe pipe_fd ;; ret (inl 1)
      else
        cp <- read_child_pid ;;
        if cp <? 0 then _ <- close_pipe (fst pipe_fd, -1) ;; ret (inl 1)
        else ret (inr (fst pipe_fd, -1)).

(** [run_hooks] in the forked child ([hpid == 0]).  [pipe_fd] is
    [None] when the array was never written ([cpid == 0]). *)
Definition hook_child (cpid : Z) (pipe_fd : option (Z * Z)) (hook : json) : M Z :=
  ready <-
    match pipe_fd with
    | Some fds =>
      r <- sys_dup2 (fst fds) STDIN_FILENO ;;
      if r =? -1 then PERROR "dup2" ;;; ret false
      else
        c <- sys_close (fst fds) ;;
        if negb (c =? 0) then
          perror "close host-to-hook pipe read-end after stdin dup" ;;;
          ret false
        else ret true
    | None => ret true
    end ;;
  if ready then
    exec_process hook (-1) ;;;
    match pipe_fd with
    | Some fds => _ <- close_pipe fds ;; ret 1
    | None => undefined
    end
  else ret 1.

(** One turn of the [json_array_foreach] of [run_hooks]: [Some r] when
    [run_hooks] returns [r], [None] to go on with the next hook. *)
Definition run_hook (name : string) (cpid : Z) (i : Z) (hook : json)
  : M (option Z) :=
  LOG "run %s hook %d\n" [LStr (Some name); LInt i] ;;;
  prep <- (if negb (cpid =? 0)
           then p <- hook_pipe cpid ;;
                ret match p with inl r => inl r | inr fds => inr (Some fds) end
           else ret (inr None)) ;;
  match prep with
  | inl r => ret (Some r)
  | inr pipe_fd =>
    hpid <- sys_fork ;;
    if hpid =? -1 then
      PERROR "fork" ;;;
      match pipe_fd with
      | Some fds => _ <- close_pipe fds ;; ret (Some 1)
      | None => ret (Some 1)
      end
    else if hpid =? 0 then
      r <- hook_child cpid pipe_fd hook ;; ret (Some r)
    else
      LOG "launched hook %d with PID %d\n" [LInt i; LInt hpid] ;;;
      closed <- match pipe_fd with
                | Some fds => '(e, _) <- close_pipe fds ;; ret e
                | None => ret 0
                end ;;
      if negb (closed =? 0) then ret (Some 1)
      else
        err <- _wait hpid "hook" ;;
        if negb (cpid =? 0) && negb (err =? 0) then ret (Some 1)
        else ret None
  end.

Fixpoint run_hooks_loop (name : string) (cpid : Z) (i : Z) (hooks : list json)
  : M Z :=
  match hooks with
  | [] => ret 0
  | hook :: rest =>
    r <- run_hook name cpid i hook ;;
    match r with
    | Some r => ret r
    | None => run_hooks_loop name cpid (i + 1) rest
    end
  end.

Definition run_hooks (config : json) (name : string) (cpid : Z) : M Z :=
  match json_object_get config "hooks" with
  | None => ret 0
  | Some hooks =>
    match json_object_get hooks name with
    | None => ret 0
    | Some hook_array =>
      run_hooks_loop name cpid 0 (json_array_elements hook_array)
    end
  end.

(** [strncmp(lit, name, strlen(lit) + 1) == 0] *)
Definition same_name (lit name : string) : bool :=
  strncmp lit name (S (String.length lit)) =? 0.

(** [get_namespace_type]: the namespace type, or [None] for return 1. *)
Definition get_namespace_type (name : string) : M (option Z) :=
  if same_name "mount" name then ret (Some CLONE_NEWNS)
  else if same_name "uts" name then ret (Some CLONE_NEWUTS)
  else if same_name "ipc" name then ret (Some CLONE_NEWIPC)
  else if same_name "net" name then ret (Some CLONE_NEWNET)
  else if same_name "pid" name then ret (Some CLONE_NEWPID)
  else if same_name "user" name then ret (Some CLONE_NEWUSER)
  else LOG "unrecognized namespace '%s'\n" [LStr (Some name)] ;;; ret None.

(** The [json_object_foreach] of [get_clone_flags]: the error flag and
    [*flags] afterwards. *)
Fixpoint get_clone_flags_loop (items : list (string * json)) (flags : Z)
  : M (Z * Z) :=
  match items with
  | [] => ret (0, flags)
  | (key, value) :: rest =>
    match json_object_get value "path" with
    | Some _ => get_clone_flags_loop rest flags
    | None =>
      t <- get_namespace_type (c_str key) ;;
      match t with
      | None => ret (1, flags)
      | Some nstype => get_clone_flags_loop rest (Z.lor flags nstype)
      end
    end
  end.

Definition get_clone_flags (config : json) (flags : Z) : M (Z * Z) :=
  match json_object_get config "namespaces" with
  | None => ret (0, flags)
  | Some namespace => get_clone_flags_loop (json_object_items namespace) flags
  end.

(** [snprintf(path, MAX_PATH, "/proc/%lu/%s", (unsigned long int)cpid, filename)] *)
Definition proc_path (cpid : Z) (filename : string) : string :=
  ("/proc/" ++ fmt_d (to_uint64 cpid) ++ "/" ++ filename)%string.

(** The line ["%u %u %d\n"] of [set_user_map]. *)
Definition map_line (container host size : Z) : string :=
  line (fmt_d container ++ " " ++ fmt_d host ++ " " ++ fmt_d size)%string.

(** The [json_array_foreach] of [set_user_map]: [err] at [cleanup]. *)
Fixpoint set_user_map_loop (key path : string) (fd : Z) (i : Z)
         (mappings : list json) : M Z :=
  match mappings with
  | [] => ret 0
  | mapping :: rest =>
    match json_object_get mapping "containerID" with
    | None =>
      LOG "failed to get namespaces.user.%s[%d].containerID\n"
          [LStr (Some key); LInt i] ;;; ret 1
    | Some value =>
      let container := to_uint32 (json_integer_value value) in
      match json_object_get mapping "hostID" with
      | None =>
        LOG "failed to get namespaces.user.%s[%d].hostID\n"
            [LStr (Some key); LInt i] ;;; ret 1
      | Some value =>
        let host := to_uint32 (json_integer_value value) in
        match json_object_get mapping "size" with
        | None =>
          LOG "failed to get namespaces.user.%s[%d].size\n"
              [LStr (Some key); LInt i] ;;; ret 1
        | Some value =>
          let size := to_int32 (json_integer_value value) in
          LOG "write '%u %u %d' to %s\n"
              [LInt container; LInt host; LInt size; LStr (Some path)] ;;;
          r <- sys_dprintf fd (map_line container host size) ;;
          if r <? 0 then
            LOG "failed to write '%u %u %d' to %s\n"
                [LInt container; LInt host; LInt size; LStr (Some path)] ;;;
            ret 1
          else set_user_map_loop key path fd (i + 1) rest
        end
      end
    end
  end.

Definition set_user_map (user : json) (cpid : Z) (key filename : string) : M Z :=
  match json_object_get user key with
  | None => ret 0
  | Some mappings =>
    let path := proc_path cpid filename in
    let size := strlen path in
    if size <? 0 then
      LOG "failed to format /proc/%lu/%s\n"
          [LInt (to_uint64 cpid); LStr (Some filename)] ;;; ret 1
    else if size >=? MAX_PATH then
      LOG "failed to format /proc/%lu/%s (needed a buffer with %d bytes)\n"
          [LInt (to_uint64 cpid); LStr (Some filename); LInt size] ;;; ret 1
    else
      cp <- read_child_pid ;;
      if cp <? 0 then ret 1
      else
        fd <- sys_open path O_WRONLY ;;
        if fd =? -1 then PERROR "open" ;;; ret 1
        else
          err <- set_user_map_loop key path fd 0 (json_array_elements mappings) ;;
          if fd >=? 0 then
            c <- sys_close fd ;;
            if c =? -1 then PERROR "close" ;;; ret 1 else ret err
          else ret err
  end.

Definition set_user_setgroups (user : json) (cpid : Z) : M Z :=
  match json_object_get user "setgroups" with
  | None => ret 0
  | Some setgroups =>
    let value := if json_boolean_value setgroups then "allow" else "deny" in
    let path := proc_path cpid "setgroups" in
    let size := strlen path in
    if size <? 0 then
      LOG "failed to format /proc/%lu/setgroups\n" [LInt (to_uint64 cpid)] ;;;
      ret 1
    else if size >=? MAX_PATH then
      LOG "failed to format /proc/%lu/setgroups (needed a buffer with %d bytes)\n"
          [LInt (to_uint64 cpid); LInt size] ;;; ret 1
    else
      cp <- read_child_pid ;;
      if cp <? 0 then ret 1
      else
        LOG "write '%s' to %s\n" [LStr (Some value); LStr (Some path)] ;;;
        fd <- sys_open path O_WRONLY ;;
        if fd =? -1 then PERROR "open" ;;; ret 1
        else
          r <- sys_write fd value ;;
          err <- (if r =? -1 then PERROR "write" ;;; ret 1 else ret 0) ;;
          if fd >=? 0 then
            c <- sys_close fd ;;
            if c =? -1 then PERROR "close" ;;; ret 1 else ret err
          else ret err
  end.

Definition set_user_namespace_mappings (config : json) (cpid : Z) : M Z :=
  match json_object_get config "namespaces" with
  | None => ret 0
  | Some namespaces =>
    match json_object_get namespaces "user" with
    | None => ret 0
    | Some user =>
      r <- set_user_map user cpid "uidMappings" "uid_map" ;;
      if negb (r =? 0) then ret 1
      else
        r <- set_user_setgroups user cpid ;;
        if negb (r =? 0) then ret 1
        else
          r <- set_user_map user cpid "gidMappings" "gid_map" ;;
          if negb (r =? 0) then ret 1 else ret 0
    end
  end.

(** [n < 0 || (size_t) n != len] after a [write] of [data]. *)
Definition short_write (n : Z) (data : string) : bool :=
  (n <? 0) || negb (n =? strlen data).

(** [handle_parent] from its label [wait] on.  The result of
    [handle_parent] is its return value with [*to_child] and
    [*from_child] afterwards. *)
Definition handle_parent_wait (config : json) (cpid to_child from_child : Z)
  : M (Z * (Z * Z)) :=
  c <- sys_close to_child ;;
  if c =? -1 then
    PERROR "close host-to-container pipe write-end" ;;;
    ret (1, (-1, from_child))
  else
    err <- _wait cpid "container" ;;
    _ <- run_hooks config "post-stop" 0 ;;
    ret (err, (-1, from_child)).

Definition handle_parent (config : json) (cpid to_child from_child : Z)
  : M (Z * (Z * Z)) :=
  m <- set_user_namespace_mappings config cpid ;;
  if negb (m =? 0) then ret (1, (to_child, from_child))
  else
    n <- sys_write to_child USER_NAMESPACE_MAPPING_COMPLETE ;;
    if short_write n USER_NAMESPACE_MAPPING_COMPLETE then
      PERROR "write to container" ;;; ret (1, (to_child, from_child))
    else
      '(n, (buf, allocated)) <- getline_fd None 0 from_child ;;
      if n =? -1 then ret (1, (to_child, from_child))
      else
        match buf with
        | None => undefined
        | Some l =>
          match strncmp_buf CONTAINER_SETUP_COMPLETE l
                            (String.length CONTAINER_SETUP_COMPLETE) with
          | None => undefined
          | Some c =>
            if negb (c =? 0) then
              (* err is still 0 here *)
              LOG "unexpected message from container(%d): %.*s\n"
                  [LInt n; LInt (n - 1); LStr (Some (string_of_list_ascii l))] ;;;
              ret (0, (to_child, from_child))
            else
              c <- sys_close from_child ;;
              if c =? -1 then
                PERROR "close container-to-host pipe read-end" ;;;
                ret (1, (to_child, -1))
              else
                h <- run_hooks config "pre-start" cpid ;;
                if negb (h =? 0) then
                  cp <- read_child_pid ;;
                  (if cp >? 0 then
                     LOG "SIGKILL the container process\n" [] ;;;
                     k <- sys_kill cpid SIGKILL ;;
                     (if negb (k =? 0) then PERROR "kill" else ret tt)
                   else ret tt) ;;;
                  handle_parent_wait config cpid to_child (-1)
                else
                  n <- sys_write to_child EXEC_PROCESS ;;
                  if short_write n EXEC_PROCESS then
                    PERROR "write to container" ;;; ret (1, (to_child, -1))
                  else handle_parent_wait config cpid to_child (-1)
          end
        end.

(** [run_container] from its label [cleanup] on.  [pipe_out] is
    [None] while the array has not been written. *)
Definition run_container_cleanup (pipe_in : Z * Z) (pipe_out : option (Z * Z))
           (err : Z) : M Z :=
  cpid <- read_child_pid ;;
  (if cpid >=? 0 then
     k <- sys_kill cpid SIGKILL ;;
     (if negb (k =? 0) then PERROR "kill" else ret tt)
   else ret tt) ;;;
  '(e1, _) <- close_pipe pipe_in ;;
  match pipe_out with
  | None => undefined
  | Some fds =>
    '(e2, _) <- close_pipe fds ;;
    ret (if negb (e2 =? 0) then 1 else if negb (e1 =? 0) then 1 else err)
  end.

(** The host's view of [run_container]: [clone] returns the container's
    PID, and the container runs [child_func] as a process of its own. *)
Definition run_container (config : json) : M Z :=
  '(e, flags) <- get_clone_flags config SIGCHLD ;;
  if negb (e =? 0) then ret 1
  else
    '(r, pipe_in) <- sys_pipe ;;
    if r =? -1 then PERROR "pipe" ;;; ret 1
    else
      '(r, pipe_out) <- sys_pipe ;;
      if r =? -1 then PERROR "pipe" ;;; run_container_cleanup pipe_in None 1
      else
        stack <- alloc ;;
        if negb stack then
          PERROR "malloc" ;;; run_container_cleanup pipe_in (Some pipe_out) 1
        else
          cpid <- sys_clone flags ;;
          if cpid =? -1 then
            PERROR "clone" ;;; run_container_cleanup pipe_in (Some pipe_out) 1
          else
            s1 <- sys_sigaction SIGHUP kill_child SA_SIGINFO ;;
            s2 <- (if negb (s1 =? 0) then ret s1
                   else sys_sigaction SIGINT kill_child SA_SIGINFO) ;;
            s3 <- (if negb (s2 =? 0) then ret s2
                   else sys_sigaction SIGTERM kill_child SA_SIGINFO) ;;
            if negb (s3 =? 0) then
              PERROR "signal" ;;; run_container_cleanup pipe_in (Some pipe_out) 1
            else
              s4 <- sys_sigaction SIGCHLD reap_child (Z.lor SA_SIGINFO SA_NOCLDSTOP) ;;
              if negb (s4 =? 0) then
                PERROR "signal" ;;;
                run_container_cleanup pipe_in (Some pipe_out) 1
              else
                LOG "launched container process with PID %d\n" [LInt cpid] ;;;
                c <- sys_close (fst pipe_in) ;;
                if c =? -1 then
                  PERROR "close host-to-container pipe read-end" ;;;
                  run_container_cleanup (-1, snd pipe_in) (Some pipe_out) 1
                else
                  c <- sys_close (snd pipe_out) ;;
                  if c =? -1 then
                    PERROR "close container-to-host pipe write-end" ;;;
                    run_container_cleanup (-1, snd pipe_in)
                                          (Some (fst pipe_out, -1)) 1
                  else
                    '(err, (to_child, from_child)) <-
                      handle_parent config cpid (snd pipe_in) (fst pipe_out) ;;
                    run_container_cleanup (-1, to_child)
                                          (Some (from_child, -1)) err.

(** [main] once [parse_args] has set [config_path] and jansson has
    loaded the configuration ([None] when it could not). *)
Definition main (config_path : string) (loaded : option json) : M Z :=
  match loaded with
  | None =>
    LOG "error on %s:%d:%d: %s\n" [LStr (Some config_path)] ;;; ret 1
  | Some config =>
    err <- validate_config config ;;
    if negb (err =? 0) then
      LOG "%s invalid\n" [LStr (Some config_path)] ;;; ret err
    else run_container config
  end.

(** The status the process ends with: the low byte of what [main]
    returned or [exit] was given. *)
Definition exit_status {A} (as_int : A -> Z) (o : outcome A) : option Z :=
  match o with
  | Ret a => Some (Z.land (as_int a) 255)
  | Exit s => Some (Z.land s 255)
  | _ => None
  end.

(** ** The container side *)

(** What the build takes from headers and libraries outside ccon.c:
    libcap-ng's table of capability names (a negative number for a
    name it does not know), and the mount flags that ccon.c uses only
    [#ifdef] the headers define them. *)
Record platform : Type := mkPlatform {
  capng_name_to_capability : string -> Z;
  MS_LAZYTIME : option Z;
  MS_SYNC : option Z;
  MS_VERBOSE : option Z
}.

(** Mount flags of <sys/mount.h>. *)
Definition MS_RDONLY : Z := 1.
Definition MS_NOSUID : Z := 2.
Definition MS_NODEV : Z := 4.
Definition MS_NOEXEC : Z := 8.
Definition MS_SYNCHRONOUS : Z := 16.
Definition MS_REMOUNT : Z := 32.
Definition MS_MANDLOCK : Z := 64.
Definition MS_DIRSYNC : Z := 128.
Definition MS_NOATIME : Z := 1024.
Definition MS_NODIRATIME : Z := 2048.
Definition MS_BIND : Z := 4096.
Definition MS_MOVE : Z := 8192.
Definition MS_REC : Z := 16384.
Definition MS_SILENT : Z := 32768.
Definition MS_UNBINDABLE : Z := 131072.
Definition MS_PRIVATE : Z := 262144.
Definition MS_SLAVE : Z := 524288.
Definition MS_SHARED : Z := 1048576.
Definition MS_RELATIME : Z := 2097152.
Definition MS_I_VERSION : Z := 8388608.
Definition MS_STRICTATIME : Z := 16777216.

Definition set_working_directory (config : json) : M Z :=
  match json_object_get config "process" with
  | None => ret 0
  | Some process =>
    match json_object_get process "cwd" with
    | None => ret 0
    | Some cwd =>
      match json_string_value cwd with
      | None => ret 0
      | Some path =>
        LOG "change working directory to %s\n" [LStr (Some path)] ;;;
        r <- sys_chdir path ;;
        if r =? -1 then PERROR "chdir" ;;; ret 1 else ret 0
      end
    end
  end.

(** The [for] of [set_user_group] that logs the groups. *)
Fixpoint log_groups (groups : list Z) : M unit :=
  match groups with
  | [] => ret tt
  | g :: rest =>
    LOG "%d" [LInt (to_int32 g)] ;;;
    match rest with
    | [] => ret tt
    | _ => LOG ", " [] ;;; log_groups rest
    end
  end.

Definition set_user_group (config : json) : M Z :=
  match json_object_get config "process" with
  | None => ret 0
  | Some process =>
    match json_object_get process "user" with
    | None => ret 0
    | Some user =>
      e <- match json_object_get user "gid" with
           | Some v1 =>
             let gid := to_uint32 (json_integer_value v1) in
             LOG "set GID to %d\n" [LInt (to_int32 gid)] ;;;
             r <- sys_setgid gid ;;
             if r =? -1 then PERROR "setgid" ;;; ret 1 else ret 0
           | None => ret 0
           end ;;
      if negb (e =? 0) then ret 1
      else
        e <- match json_object_get user "additionalGids" with
             | Some v1 =>
               ok <- alloc ;;
               if negb ok then PERROR "malloc" ;;; ret 1
               else
                 let groups :=
                   map (fun v2 => to_uint32 (json_integer_value v2))
                       (json_array_elements v1) in
                 LOG "set additional GIDs to [" [] ;;;
                 log_groups groups ;;;
                 LOG "]\n" [] ;;;
                 r <- sys_setgroups groups ;;
                 if r =? -1 then PERROR "setgroups" ;;; ret 1 else ret 0
             | None => ret 0
             end ;;
        if negb (e =? 0) then ret 1
        else
          match json_object_get user "uid" with
          | Some v1 =>
            let uid := to_uint32 (json_integer_value v1) in
            LOG "set UID to %d\n" [LInt (to_int32 uid)] ;;;
            r <- sys_setuid uid ;;
            if r =? -1 then PERROR "setuid" ;;; ret 1 else ret 0
          | None => ret 0
          end
    end
  end.

(** [name + 4]: the string behind the first four bytes. *)
Definition skip4 (name : string) : string :=
  String.substring 4 (String.length name - 4) name.

Definition _capng_name_to_capability (P : platform) (name : string) : Z :=
  if strlen name <? 4 then -1
  else capng_name_to_capability P (skip4 name).

Definition CAPNG_ALL_SETS : Z :=
  Z.lor (Z.lor (Z.lor CAPNG_EFFECTIVE CAPNG_PERMITTED) CAPNG_INHERITABLE)
        CAPNG_BOUNDING_SET.

(** The [json_array_foreach] of [set_capabilities]: [Some 1] for
    return 1, [None] to go on to [capng_apply]. *)
Fixpoint set_capabilities_loop (P : platform) (i : Z) (values : list json)
  : M (option Z) :=
  match values with
  | [] => ret None
  | value :: rest =>
    match json_string_value value with
    | None =>
      LOG "failed to extract process.capabilities[%d]\n" [LInt i] ;;;
      ret (Some 1)
    | Some name =>
      let cap := _capng_name_to_capability P name in
      (if cap <? 0
       then LOG "unrecognized capability name: %s\n" [LStr (Some name)]
       else ret tt) ;;;
      LOG "restore %s capability to scratch space\n" [LStr (Some name)] ;;;
      r <- capng_update CAPNG_ADD CAPNG_ALL_SETS (to_uint32 cap) ;;
      if negb (r =? 0) then
        LOG "failed to restore the %s capability\n" [LStr (Some name)] ;;;
        ret (Some 1)
      else set_capabilities_loop P (i + 1) rest
    end
  end.

Definition set_capabilities (P : platform) (config : json) : M Z :=
  match json_object_get config "process" with
  | None => ret 0
  | Some process =>
    match json_object_get process "capabilities" with
    | None => ret 0
    | Some capabilities =>
      LOG "remove all capabilities from the scratch space\n" [] ;;;
      capng_clear CAPNG_SELECT_BOTH ;;;
      r <- set_capabilities_loop P 0 (json_array_elements capabilities) ;;
      match r with
      | Some e => ret e
      | None =>
        LOG "apply specified capabilities to bounding and traditional sets\n" [] ;;;
        a <- capng_apply CAPNG_SELECT_BOTH ;;
        if negb (a =? 0) then LOG "failed to apply capabilities\n" [] ;;; ret 1
        else ret 0
      end
    end
  end.

(** [exec_container_process] returns only when it could not exec. *)
Definition exec_container_process (config : json) (exec_fd : Z) : M unit :=
  match json_object_get config "process" with
  | None => LOG "process not defined, exiting\n" [] ;;; exit 0
  | Some process => exec_process process exec_fd
  end.

(** The [while] of [open_in_path] over the tokens of PATH. *)
Fixpoint open_in_path_loop (name : string) (flags : Z) (tokens : list string)
  : M Z :=
  match tokens with
  | [] => LOG "failed to find %s in the host PATH\n" [LStr (Some name)] ;;; ret (-1)
  | p :: rest =>
    let i := strlen p in
    if i + strlen name + 2 >? MAX_PATH then
      LOG "failed to format relative path (needed a buffer with %d byes)\n"
          [LInt (i + strlen name + 2)] ;;; ret (-1)
    else
      let path := (p ++ "/" ++ name)%string in
      fd <- sys_open path flags ;;
      if fd >=? 0 then
        LOG "open container-process executable from host %s\n" [LStr (Some path)] ;;;
        ret fd
      else open_in_path_loop name flags rest
  end.

Definition open_in_path (name : string) (flags : Z) : M Z :=
  if first_char_is "/"%char name then
    LOG "open container-process executable from host %s\n" [LStr (Some name)] ;;;
    fd <- sys_open name flags ;;
    if fd =? -1 then PERROR "open" ;;; ret (-1) else ret fd
  else
    ok <- alloc ;;
    if negb ok then PERROR "malloc" ;;; ret (-1)
    else if has_char "/"%char name then
      cwd <- sys_getcwd MAX_PATH ;;
      match cwd with
      | None => PERROR "getcwd" ;;; ret (-1)
      | Some cwd =>
        let i := strlen cwd in
        if i + strlen name + 2 >? MAX_PATH then
          LOG "failed to format relative path (needed a buffer with %d byes)\n"
              [LInt (i + strlen name + 2)] ;;; ret (-1)
        else
          let path := (cwd ++ "/" ++ name)%string in
          LOG "open container-process executable from host %s\n"
              [LStr (Some path)] ;;;
          fd <- sys_open path flags ;;
          if fd =? -1 then PERROR "open" ;;; ret (-1) else ret fd
      end
    else
      paths <- sys_getenv "PATH" ;;
      match paths with
      | None => LOG "failed to get host PATH\n" [] ;;; ret (-1)
      | Some paths =>
        ok <- alloc ;;
        if negb ok then PERROR "strdup" ;;; ret (-1)
        else open_in_path_loop name flags (strtok_all ":"%char paths EmptyString)
      end.

(** [get_host_exec_fd]: the return value and [*exec_fd] afterwards. *)
Definition get_host_exec_fd (config : json) (exec_fd : Z) : M (Z * Z) :=
  match json_object_get config "process" with
  | None => ret (0, exec_fd)
  | Some process =>
    match json_object_get process "host" with
    | None => ret (0, exec_fd)
    | Some v1 =>
      if negb (json_boolean_value v1) then ret (0, exec_fd)
      else
        arg0 <-
          match json_object_get process "path" with
          | Some v1 =>
            match json_string_value v1 with
            | None => LOG "failed to extract process.path\n" [] ;;; ret (inl 1)
            | Some arg0 => ret (inr arg0)
            end
          | None =>
            match json_object_get process "args" with
            | None => ret (inl 0)
            | Some v1 =>
              match json_array_get v1 0 with
              | None => LOG "failed to extract process.args[0]\n" [] ;;; ret (inl 1)
              | Some v2 =>
                match json_string_value v2 with
                | None =>
                  LOG "failed to extract process.args[0]\n" [] ;;; ret (inl 1)
                | Some arg0 => ret (inr arg0)
                end
              end
            end
          end ;;
        match arg0 with
        | inl r => ret (r, exec_fd)
        | inr arg0 =>
          fd <- open_in_path arg0 (Z.lor O_PATH O_CLOEXEC) ;;
          if fd =? -1 then ret (1, fd) else ret (0, fd)
        end
    end
  end.

(** The [json_object_foreach] of [join_namespaces]. *)
Fixpoint join_namespaces_loop (items : list (string * json)) : M Z :=
  match items with
  | [] => ret 0
  | (key, value) :: rest =>
    match json_object_get value "path" with
    | None => join_namespaces_loop rest
    | Some path =>
      t <- get_namespace_type (c_str key) ;;
      match t with
      | None => ret 1
      | Some nstype =>
        LOG "join %s namespace at %s\n"
            [LStr (Some (c_str key)); LStr (json_string_value path)] ;;;
        match json_string_value path with
        | None => undefined
        | Some p =>
          fd <- sys_open p O_RDONLY ;;
          if fd =? -1 then PERROR "open" ;;; ret 1
          else
            r <- sys_setns fd nstype ;;
            if r =? -1 then
              PERROR "setns" ;;;
              c <- sys_close fd ;;
              (if c =? -1 then PERROR "close" else ret tt) ;;;
              ret 1
            else
              c <- sys_close fd ;;
              if c =? -1 then PERROR "close" ;;; ret 1
              else join_namespaces_loop rest
        end
      end
    end
  end.

Definition join_namespaces (config : json) : M Z :=
  match json_object_get config "namespaces" with
  | None => ret 0
  | Some namespaces => join_namespaces_loop (json_object_items namespaces)
  end.

(** One branch of the [if ... else if] chain of [get_mount_flag]; a
    branch under [#ifdef] is there when the flag is defined. *)
Definition flag_branch (lit : string) (flag : option Z) (name : string)
  : option Z :=
  match flag with
  | Some f => if same_name lit name then Some f else None
  | None => None
  end.

Fixpoint first_branch (branches : list (option Z)) : option Z :=
  match branches with
  | [] => None
  | Some f :: _ => Some f
  | None :: rest => first_branch rest
  end.

(** [get_mount_flag]: the flag, or [None] for return 1. *)
Definition get_mount_flag (P : platform) (name : string) : M (option Z) :=
  match first_branch
          [ flag_branch "MS_BIND" (Some MS_BIND) name;
            flag_branch "MS_DIRSYNC" (Some MS_DIRSYNC) name;
            flag_branch "MS_I_VERSION" (Some MS_I_VERSION) name;
            flag_branch "MS_LAZYTIME" (MS_LAZYTIME P) name;
            flag_branch "MS_MANDLOCK" (Some MS_MANDLOCK) name;
            flag_branch "MS_MOVE" (Some MS_MOVE) name;
            flag_branch "MS_NOATIME" (Some MS_NOATIME) name;
            flag_branch "MS_NODEV" (Some MS_NODEV) name;
            flag_branch "MS_NODIRATIME" (Some MS_NODIRATIME) name;
            flag_branch "MS_NOEXEC" (Some MS_NOEXEC) name;
            flag_branch "MS_NOSUID" (Some MS_NOSUID) name;
            flag_branch "MS_PRIVATE" (Some MS_PRIVATE) name;
            flag_branch "MS_RDONLY" (Some MS_RDONLY) name;
            flag_branch "MS_REC" (Some MS_REC) name;
            flag_branch "MS_RELATIME" (Some MS_RELATIME) name;
            flag_branch "MS_REMOUNT" (Some MS_REMOUNT) name;
            flag_branch "MS_SHARED" (Some MS_SHARED) name;
            flag_branch "MS_SILENT" (Some MS_SILENT) name;
            flag_branch "MS_SLAVE" (Some MS_SLAVE) name;
            flag_branch "MS_STRICTATIME" (Some MS_STRICTATIME) name;
            flag_branch "MS_SYNC" (MS_SYNC P) name;
            flag_branch "MS_SYNCHRONOUS" (Some MS_SYNCHRONOUS) name;
            flag_branch "MS_UNBINDABLE" (Some MS_UNBINDABLE) name;
            flag_branch "MS_VERBOSE" (MS_VERBOSE P) name ] with
  | Some f => ret (Some f)
  | None => LOG "unrecognized mount flag '%s'\n" [LStr (Some name)] ;;; ret None
  end.

(** [pivot_root_remove_old(new_root)].  When [chdir(new_root)] fails
    the code jumps to [cleanup] and hands [rmdir] the pointer
    [old_basename] before anything was stored in it. *)
Definition pivot_root_remove_old (new_root : option string) : M Z :=
  match new_root with
  | None => undefined
  | Some new_root =>
    let template := (new_root ++ "/pivot-root.XXXXXX")%string in
    let size := strlen template in
    if size <? 0 then
      LOG "failed to format %s/pivot-root.XXXXXX" [LStr (Some new_root)] ;;; ret 1
    else if size >=? MAX_PATH then
      LOG "failed to format %s/.pivot-root.XXXXXX (needed a buffer with %d bytes)\n"
          [LStr (Some new_root); LInt size] ;;; ret 1
    else
      d <- sys_mkdtemp template ;;
      match d with
      | None => PERROR "mkdtemp" ;;; ret 1
      | Some put_old =>
        c <- sys_chdir new_root ;;
        if negb (c =? 0) then PERROR "chdir" ;;; undefined
        else
          LOG "pivot root to %s\n" [LStr (Some new_root)] ;;;
          p <- sys_pivot_root new_root put_old ;;
          if negb (p =? 0) then
            PERROR "pivot_root" ;;;
            r <- sys_rmdir put_old ;;
            (if negb (r =? 0) then PERROR "rmdir" else ret tt) ;;;
            ret 1
          else
            let old_basename := basename put_old in
            c <- sys_chdir "/" ;;
            err <- (if negb (c =? 0) then PERROR "chdir" ;;; ret 1
                    else
                      LOG "unmount old root from %s\n" [LStr (Some old_basename)] ;;;
                      u <- sys_umount2 old_basename MNT_DETACH ;;
                      if negb (u =? 0) then PERROR "umount" ;;; ret 1 else ret 0) ;;
            r <- sys_rmdir old_basename ;;
            if negb (r =? 0) then PERROR "rmdir" ;;; ret 1 else ret err
      end
  end.

(** The array [full_source] of [handle_mounts]: byte by byte, [None]
    where nothing has been stored yet. *)
Definition buffer : Type := list (option ascii).

Definition fresh_buffer (size : Z) : buffer := repeat None (Z.to_nat size).

(** Storing [bytes] at the start of the buffer, as [memcpy] does. *)
Definition buf_write (buf : buffer) (bytes : list ascii) : buffer :=
  map Some bytes ++ skipn (List.length bytes) buf.

(** [snprintf(buf, MAX_PATH, ...)] stores what fits, and a NUL. *)
Definition buf_snprintf (buf : buffer) (s : string) : buffer :=
  buf_write buf (firstn (Z.to_nat (MAX_PATH - 1)) (list_ascii_of_string s) ++ [NUL]).

(** The string a [char *] to the start of the buffer stands for: [None]
    when the bytes read before a NUL include one never stored, or run
    past the end of the array. *)
Fixpoint buf_cstr (buf : buffer) : option string :=
  match buf with
  | [] => None
  | None :: _ => None
  | Some c :: rest =>
    if Ascii.eqb c NUL then Some EmptyString
    else option_map (String c) (buf_cstr rest)
  end.

(** The variable [source] of [handle_mounts]: NULL, the string of the
    JSON value, or the array [full_source]. *)
Inductive srcptr : Type :=
| SrcNull
| SrcJson (s : string)
| SrcFull.

(** Reading the string behind [source]. *)
Definition deref (full_source : buffer) (p : srcptr) : M (option string) :=
  match p with
  | SrcNull => ret None
  | SrcJson s => ret (Some s)
  | SrcFull =>
    match buf_cstr full_source with
    | Some s => ret (Some s)
    | None => undefined
    end
  end.

(** The block of [handle_mounts] that sets [source]: [None] for return
    1, otherwise [source] and [full_source] afterwards. *)
Definition mount_source (cwd : string) (mt : json) (full_source : buffer)
  : M (option (srcptr * buffer)) :=
  match json_object_get mt "source" with
  | None => ret (Some (SrcNull, full_source))
  | Some v1 =>
    match json_string_value v1 with
    | None => undefined
    | Some source =>
      if first_char_is "/"%char source then
        if strlen source >=? MAX_PATH then
          LOG "mount path %s is too long (%d >= %d)\n"
              [LStr (Some source); LInt (strlen source); LInt MAX_PATH] ;;;
          ret None
        else
          ret (Some (SrcJson source,
                     buf_write full_source (list_ascii_of_string source)))
      else
        let full := (cwd ++ "/" ++ source)%string in
        let size := strlen full in
        if size <? 0 then
          LOG "failed to format %s/%s\n" [LStr (Some cwd); LStr (Some source)] ;;;
          ret None
        else if size >=? MAX_PATH then
          LOG "failed to format %s/%s (needed a buffer with %d bytes)\n"
              [LStr (Some cwd); LStr (Some source); LInt size] ;;;
          ret None
        else ret (Some (SrcFull, buf_snprintf full_source full))
    end
  end.

(** The block that sets [target]: [None] for return 1, otherwise the
    string [target] points to (or NULL). *)
Definition mount_target (cwd : string) (mt : json) : M (option (option string)) :=
  match json_object_get mt "target" with
  | None => ret (Some None)
  | Some v1 =>
    match json_string_value v1 with
    | None => undefined
    | Some target =>
      if first_char_is "/"%char target then
        if strlen target >=? MAX_PATH then
          LOG "mount path %s is too long (%d >= %d)\n"
              [LStr (Some target); LInt (strlen target); LInt MAX_PATH] ;;;
          ret None
        else ret (Some (Some target))
      else
        let full := (cwd ++ "/" ++ target)%string in
        let size := strlen full in
        if size <? 0 then
          LOG "failed to format %s/%s\n" [LStr (Some cwd); LStr (Some target)] ;;;
          ret None
        else if size >=? MAX_PATH then
          LOG "failed to format %s/%s (needed a buffer with %d bytes)\n"
              [LStr (Some cwd); LStr (Some target); LInt size] ;;;
          ret None
        else ret (Some (Some full))
    end
  end.

(** The inner [json_array_foreach] over [flags]: [None] for return 1. *)
Fixpoint mount_flags_loop (P : platform) (i j : Z) (values : list json)
         (flags : Z) : M (option Z) :=
  match values with
  | [] => ret (Some flags)
  | v2 :: rest =>
    match json_string_value v2 with
    | None =>
      LOG "failed to extract namespaces.mount.mounts[%d].flags[%d]\n"
          [LInt i; LInt j] ;;; ret None
    | Some flag =>
      f <- get_mount_flag P flag ;;
      match f with
      | None => ret None
      | Some f => mount_flags_loop P i (j + 1) rest (Z.lor flags f)
      end
    end
  end.

(** [type && strncmp("pivot-root", type, strlen("pivot-root")) == 0] *)
Definition is_pivot_root (type : option string) : bool :=
  match type with
  | Some t => strncmp "pivot-root" t (String.length "pivot-root") =? 0
  | None => false
  end.

(** One turn of the outer [json_array_foreach] of [handle_mounts]:
    [None] for return 1, otherwise [full_source] afterwards. *)
Definition mount_entry (P : platform) (cwd : string) (i : Z) (mt : json)
           (full_source : buffer) : M (option buffer) :=
  src <- mount_source cwd mt full_source ;;
  match src with
  | None => ret None
  | Some (source, full_source) =>
    tgt <- mount_target cwd mt ;;
    match tgt with
    | None => ret None
    | Some target =>
      let type := match json_object_get mt "type" with
                  | Some v1 => json_string_value v1
                  | None => None
                  end in
      let data := match json_object_get mt "data" with
                  | Some v1 => json_string_value v1
                  | None => None
                  end in
      fl <- match json_object_get mt "flags" with
            | Some v1 => mount_flags_loop P i 0 (json_array_elements v1) 0
            | None => ret (Some 0)
            end ;;
      match fl with
      | None => ret None
      | Some flags =>
        if is_pivot_root type then
          s <- deref full_source source ;;
          r <- pivot_root_remove_old s ;;
          if negb (r =? 0) then ret None else ret (Some full_source)
        else
          s <- deref full_source source ;;
          LOG "mount %lu: %s to %s (type: %s, flags: %lu, data %s)\n"
              [LInt i; LStr s; LStr target; LStr type; LInt flags; LStr data] ;;;
          r <- sys_mount s target type flags data ;;
          if r =? -1 then PERROR "mount" ;;; ret None
          else ret (Some full_source)
      end
    end
  end.

Fixpoint handle_mounts_loop (P : platform) (cwd : string) (i : Z)
         (mounts : list json) (full_source : buffer) : M Z :=
  match mounts with
  | [] => ret 0
  | mt :: rest =>
    r <- mount_entry P cwd i mt full_source ;;
    match r with
    | None => ret 1
    | Some full_source => handle_mounts_loop P cwd (i + 1) rest full_source
    end
  end.

Definition handle_mounts (P : platform) (config : json) : M Z :=
  match json_object_get config "namespaces" with
  | None => ret 0
  | Some namespaces =>
    match json_object_get namespaces "mount" with
    | None => ret 0
    | Some mt_ns =>
      match json_object_get mt_ns "mounts" with
      | None => ret 0
      | Some mounts =>
        cwd <- sys_getcwd MAX_PATH ;;
        match cwd with
        | None => PERROR "getcwd" ;;; ret 1
        | Some cwd =>
          if negb (first_char_is "/"%char cwd) then
            LOG "current working directory is unreachable: %s\n"
                [LStr (Some cwd)] ;;; ret 1
          else
            handle_mounts_loop P cwd 0 (json_array_elements mounts)
                               (fresh_buffer MAX_PATH)
        end
      end
    end
  end.

(** [handle_child] from its label [cleanup] on. *)
Definition handle_child_cleanup (exec_fd : Z) (err : Z) (fds : Z * Z)
  : M (Z * (Z * Z)) :=
  if exec_fd >=? 0 then
    c <- sys_close exec_fd ;;
    if negb (c =? 0) then
      PERROR "close user-specified executable file" ;;; ret (1, fds)
    else ret (err, fds)
  else ret (err, fds).

(** [handle_child] after the container told the host that its setup
    is complete: the wait for the host's word to go on, and the exec. *)
Definition handle_child_exec (P : platform) (config : json)
           (from_parent exec_fd : Z) : M (Z * (Z * Z)) :=
  '(n, (buf, allocated)) <- getline_fd None 0 from_parent ;;
  if n =? -1 then handle_child_cleanup exec_fd 1 (-1, from_parent)
  else
    match buf with
    | None => undefined
    | Some l =>
      match strncmp_buf EXEC_PROCESS l (String.length EXEC_PROCESS) with
      | None => undefined
      | Some c =>
        if negb (c =? 0) then
          (* err is still 0 here *)
          LOG "unexpected message from host(%d): %.*s\n"
              [LInt n; LInt (n - 1); LStr (Some (string_of_list_ascii l))] ;;;
          handle_child_cleanup exec_fd 0 (-1, from_parent)
        else
          c <- sys_close from_parent ;;
          if c =? -1 then
            PERROR "close host-to-container pipe read-end" ;;;
            handle_child_cleanup exec_fd 1 (-1, -1)
          else
            r <- set_working_directory config ;;
            if negb (r =? 0) then handle_child_cleanup exec_fd 1 (-1, -1)
            else
              r <- set_user_group config ;;
              if negb (r =? 0) then handle_child_cleanup exec_fd 1 (-1, -1)
              else
                r <- set_capabilities P config ;;
                if negb (r =? 0) then handle_child_cleanup exec_fd 1 (-1, -1)
                else
                  exec_container_process config exec_fd ;;;
                  handle_child_cleanup exec_fd 1 (-1, -1)
      end
    end.

(** [handle_child]: the return value with [*to_parent] and
    [*from_parent] afterwards. *)
Definition handle_child (P : platform) (config : json) (to_parent from_parent : Z)
  : M (Z * (Z * Z)) :=
  '(n, (buf, allocated)) <- getline_fd None 0 from_parent ;;
  if n =? -1 then handle_child_cleanup (-1) 1 (to_parent, from_parent)
  else
    match buf with
    | None => undefined
    | Some l =>
      match strncmp_buf USER_NAMESPACE_MAPPING_COMPLETE l
                        (String.length USER_NAMESPACE_MAPPING_COMPLETE) with
      | None => undefined
      | Some c =>
        if negb (c =? 0) then
          (* err is still 0 here *)
          LOG "unexpected message from container(%d): %.*s\n"
              [LInt n; LInt (n - 1); LStr (Some (string_of_list_ascii l))] ;;;
          handle_child_cleanup (-1) 0 (to_parent, from_parent)
        else
          '(e, exec_fd) <- get_host_exec_fd config (-1) ;;
          if negb (e =? 0) then ret (1, (to_parent, from_parent))
          else
            r <- join_namespaces config ;;
            if negb (r =? 0) then
              handle_child_cleanup exec_fd 1 (to_parent, from_parent)
            else
              r <- handle_mounts P config ;;
              if negb (r =? 0) then
                handle_child_cleanup exec_fd 1 (to_parent, from_parent)
              else
                n <- sys_write to_parent CONTAINER_SETUP_COMPLETE ;;
                if short_write n CONTAINER_SETUP_COMPLETE then
                  PERROR "write to host" ;;;
                  handle_child_cleanup exec_fd 1 (to_parent, from_parent)
                else
                  c <- sys_close to_parent ;;
                  if c =? -1 then
                    PERROR "close container-to-host pipe write-end" ;;;
                    handle_child_cleanup exec_fd 1 (-1, from_parent)
                  else handle_child_exec P config from_parent exec_fd
      end
    end.

(** [child_func], the entry point of the cloned process; [pipe_in]
    and [pipe_out] are the arrays of [child_args]. *)
Definition child_func (P : platform) (config : json) (pipe_in pipe_out : Z * Z)
  : M Z :=
  '(err, (pipe_in, pipe_out)) <-
    (c <- sys_close (snd pipe_in) ;;
     if c =? -1 then
       PERROR "close host-to-container pipe write-end" ;;;
       ret (1, ((fst pipe_in, -1), pipe_out))
     else
       c <- sys_close (fst pipe_out) ;;
       if c =? -1 then
         PERROR "close container-to-host pipe read-end" ;;;
         ret (1, ((fst pipe_in, -1), (-1, snd pipe_out)))
       else
         '(err, (to_parent, from_parent)) <-
           handle_child P config (snd pipe_out) (fst pipe_in) ;;
         (if negb (err =? 0) then LOG "child failed\n" [] else ret tt) ;;;
         ret (err, ((from_parent, -1), (-1, to_parent)))) ;;
  '(e1, _) <- close_pipe pipe_in ;;
  '(e2, _) <- close_pipe pipe_out ;;
  ret (if negb (e2 =? 0) then 1 else if negb (e1 =? 0) then 1 else err).

(** * What is said of the runs

    The vocabulary of the properties: observations on the calls of a
    run, models of what the kernel and libcap-ng do with them, and
    the concrete configurations and runs that the properties are
    applied to. *)

(** ** [getline_fd] *)

Definition heap_ok (w : world) : Prop := Forall (fun b => b = true) (w_heap w).

(** The bytes of a pipe as the answers to the [read] calls. *)
Definition bytes (l : list ascii) : list answer := map ans_byte l.

(** [*n] once [size] bytes are stored: the next multiple of the block. *)
Definition allocated_for (size : Z) : Z :=
  getline_block * ((size + getline_block - 1) / getline_block).

(** The world once [read] has stored one more byte; [grow] says whether
    the buffer had to grow first. *)
Definition after_read (fd : Z) (b : ascii) (grow : bool) (w : world) : world :=
  mkWorld (tl (w_tape w)) (if grow then tl (w_heap w) else w_heap w)
          (EvRead fd 1 b :: w_trace w) (w_verbose w) (w_stderr w).

(** The return value of a function that also hands back other values. *)
Definition returned {A} (o : outcome (Z * A)) : option Z :=
  match o with Ret (r, _) => Some r | _ => None end.

(** ** The handshake reads *)

Definition minimal_config : json := JObject [("version", JString "0.2.0")].

(** ** Capabilities *)

(** The call [set_capabilities] makes for the capability called [name],
    and what it returned. *)
Definition cap_update (P : platform) (name : string) (r : Z) : event :=
  EvCapngUpdate CAPNG_ADD CAPNG_ALL_SETS
                (to_uint32 (_capng_name_to_capability P name)) r.

Definition unknown_warning (name : string) : logline :=
  Log "unrecognized capability name: %s\n" [LStr (Some name)].

(** The calls made between two worlds of one run. *)
Definition calls_since (w w' : world) : list event :=
  skipn (List.length (history w)) (history w').

(** What the libcap-ng calls of a run mean, after capng_clear(3),
    capng_update(3), capng_apply(3) and capabilities(7): the library
    keeps a scratch copy of the four capability sets; [capng_clear]
    empties the selected ones, [capng_update] adds a capability to (or
    drops it from) the sets named by its type, [capng_apply] makes the
    scratch effective, permitted and inheritable sets the sets of the
    process, and drops from the bounding set of the process what the
    scratch bounding set does not hold: a bounding set never gains a
    capability.  A call that reports a failure changes nothing. *)
Record capsets : Type := mkCapsets {
  effective : list Z;
  permitted : list Z;
  inheritable : list Z;
  bounding : list Z
}.

Record capng_state : Type := mkCapng {
  scratch : capsets;  (* the library's working copy *)
  applied : capsets   (* the sets of the process *)
}.

Definition CAPNG_SELECT_CAPS : Z := 16.

Definition CAPNG_SELECT_BOUNDS : Z := 32.

Definition selects (mask bit : Z) : bool := negb (Z.land mask bit =? 0).

Definition capng_put (action cap : Z) (on : bool) (s : list Z) : list Z :=
  if on then
    if action =? CAPNG_ADD then cap :: s
    else filter (fun c => negb (c =? cap)) s
  else s.

Definition capng_call (st : capng_state) (ev : event) : capng_state :=
  match ev with
  | EvCapngClear sel =>
    let s := scratch st in
    let caps := selects sel CAPNG_SELECT_CAPS in
    mkCapng (mkCapsets (if caps then [] else effective s)
                       (if caps then [] else permitted s)
                       (if caps then [] else inheritable s)
                       (if selects sel CAPNG_SELECT_BOUNDS then [] else bounding s))
            (applied st)
  | EvCapngUpdate action type cap r =>
    if r =? 0 then
      let s := scratch st in
      mkCapng (mkCapsets
                 (capng_put action cap (selects type CAPNG_EFFECTIVE) (effective s))
                 (capng_put action cap (selects type CAPNG_PERMITTED) (permitted s))
                 (capng_put action cap (selects type CAPNG_INHERITABLE) (inheritable s))
                 (capng_put action cap (selects type CAPNG_BOUNDING_SET) (bounding s)))
              (applied st)
    else st
  | EvCapngApply sel r =>
    if r =? 0 then
      let s := scratch st in
      let a := applied st in
      let caps := selects sel CAPNG_SELECT_CAPS in
      mkCapng s (mkCapsets (if caps then effective s else effective a)
                           (if caps then permitted s else permitted a)
                           (if caps then inheritable s else inheritable a)
                           (if selects sel CAPNG_SELECT_BOUNDS
                            then filter (fun c => existsb (Z.eqb c) (bounding s))
                                        (bounding a)
                            else bounding a))
    else st
  | _ => st
  end.

Definition capng_run (st : capng_state) (calls : list event) : capng_state :=
  fold_left capng_call calls st.

(** The configuration names a capability by [CAP_] and the name
    libcap-ng has for it: [CAP_CHOWN] is libcap-ng's [chown].  [named]
    is the capability numbers that the names [CAP_r], for the [r] of
    [rests], stand for. *)
Definition named (P : platform) (rests : list string) : list Z :=
  map (capng_name_to_capability P) rests.

(** A name that libcap-ng knows stands for a capability number. *)
Definition known (P : platform) (rest : string) : Prop :=
  0 <= capng_name_to_capability P rest < 2 ^ 32.

(** [capng_update(CAPNG_ADD, type, cap)] for the four sets, that is
    [type = CAPNG_EFFECTIVE | CAPNG_PERMITTED | CAPNG_INHERITABLE |
    CAPNG_BOUNDING_SET = 1 | 2 | 4 | 8], returning [r]. *)
Definition adds_to_all_sets (cap r : Z) : event := EvCapngUpdate 1 15 cap r.

(** The answer the environment gives to the call number [k] (from 0)
    that takes one, counted from the world [w]. *)
Definition answer_at (w : world) (k : nat) : answer := nth k (w_tape w) no_answer.

(** A platform for the examples: the capability names libcap-ng knows
    on Linux 4.3 (it compares them without regard to case), and the
    flags of glibc's <sys/mount.h>, which defines MS_LAZYTIME and
    neither MS_SYNC nor MS_VERBOSE. *)
Definition linux_capabilities : list (string * Z) :=
  [ ("chown", 0); ("dac_override", 1); ("dac_read_search", 2); ("fowner", 3);
    ("fsetid", 4); ("kill", 5); ("setgid", 6); ("setuid", 7); ("setpcap", 8);
    ("linux_immutable", 9); ("net_bind_service", 10); ("net_broadcast", 11);
    ("net_admin", 12); ("net_raw", 13); ("ipc_lock", 14); ("ipc_owner", 15);
    ("sys_module", 16); ("sys_rawio", 17); ("sys_chroot", 18); ("sys_ptrace", 19);
    ("sys_pacct", 20); ("sys_admin", 21); ("sys_boot", 22); ("sys_nice", 23);
    ("sys_resource", 24); ("sys_time", 25); ("sys_tty_config", 26); ("mknod", 27);
    ("lease", 28); ("audit_write", 29); ("audit_control", 30); ("setfcap", 31);
    ("mac_override", 32); ("mac_admin", 33); ("syslog", 34); ("wake_alarm", 35);
    ("block_suspend", 36); ("audit_read", 37) ].

Definition tolower (c : ascii) : ascii :=
  let n := N_of_ascii c in
  if ((65 <=? n) && (n <=? 90))%N then ascii_of_N (n + 32) else c.

Fixpoint lowercase (s : string) : string :=
  match s with
  | EmptyString => EmptyString
  | String c r => String (tolower c) (lowercase r)
  end.

Fixpoint lookup_capability (table : list (string * Z)) (name : string) : Z :=
  match table with
  | [] => -1
  | (n, v) :: rest => if String.eqb n name then v else lookup_capability rest name
  end.

Definition linux_platform : platform :=
  mkPlatform (fun name => lookup_capability linux_capabilities (lowercase name))
             (Some 33554432) None None.

(** The sets of a process that holds every capability. *)
Definition full_sets : capsets :=
  mkCapsets (map snd linux_capabilities) (map snd linux_capabilities)
            (map snd linux_capabilities) (map snd linux_capabilities).

Definition caps_config (names : list string) : json :=
  JObject [("version", JString "0.2.0");
           ("process", JObject [("args", JArray [JString "/bin/sh"]);
                                ("capabilities", JArray (map JString names))])].

(** ** Mounts *)


(** A configuration with two mounts whose sources are absolute paths,
    and the answers of a run in which no call fails. *)
Definition mounts_config : json :=
  JObject
    [("version", JString "0.2.0");
     ("namespaces",
      JObject
        [("mount",
          JObject
            [("mounts",
              JArray [JObject [("source", JString "/proc"); ("target", JString "/proc");
                               ("type", JString "proc")];
                      JObject [("source", JString "/rootfs");
                               ("type", JString "pivot-root")]])])])].

Definition mounts_tape : list answer :=
  [ ans_str "/home"; ans 0; ans_str "/rootfs/pivot-root.Ab12Cd";
    ans 0; ans 0; ans 0; ans 0; ans 0 ].

(** ** Runs whose calls all belong to one class *)

(** [only Q old t]: the trace [t] is [old] with further calls in front
    of it, each of them in [Q]. *)
Inductive only (Q : event -> Prop) (old : list event) : list event -> Prop :=
| only_none : only Q old old
| only_more (e : event) (t : list event) : Q e -> only Q old t -> only Q old (e :: t).


(** ** User-namespace mappings *)

(** What a run does to files, read off its calls: which paths it
    opened, and which data it successfully wrote to which path, in
    order.  [table] says which descriptor is open on which path. *)
Inductive file_op : Type :=
| Opened (path : string)
| Wrote (path data : string).

Fixpoint lookup_fd (fd : Z) (table : list (Z * string)) : option string :=
  match table with
  | [] => None
  | (d, p) :: rest => if d =? fd then Some p else lookup_fd fd rest
  end.

Definition unbind (fd : Z) (table : list (Z * string)) : list (Z * string) :=
  filter (fun dp => negb (fst dp =? fd)) table.

Fixpoint file_ops (table : list (Z * string)) (calls : list event) : list file_op :=
  match calls with
  | [] => []
  | EvOpen path _ r :: rest =>
    if r =? -1 then file_ops table rest
    else Opened path :: file_ops ((r, path) :: table) rest
  | EvDprintf fd data r :: rest =>
    match (if r <? 0 then None else lookup_fd fd table) with
    | Some p => Wrote p data :: file_ops table rest
    | None => file_ops table rest
    end
  | EvWrite fd data r :: rest =>
    match (if r =? -1 then None else lookup_fd fd table) with
    | Some p => Wrote p data :: file_ops table rest
    | None => file_ops table rest
    end
  | EvClose fd r :: rest =>
    file_ops (if r =? -1 then table else unbind fd table) rest
  | _ :: rest => file_ops table rest
  end.

(** The decimal digits of a number, after a minus sign when it is
    negative. *)
Definition decimal (z : Z) : string := NilZero.string_of_int (Z.to_int z).

(** One entry of [uidMappings] or [gidMappings]: the first ID in the
    container, the first ID on the host, and the number of IDs. *)
Record id_mapping : Type := mkMapping {
  containerID : Z;
  hostID : Z;
  size : Z
}.

(** The line a map file is to receive for an entry: the three numbers
    in decimal with a space between them, and a line feed. *)
Definition mapping_text (m : id_mapping) : string :=
  (decimal (containerID m) ++ " " ++ decimal (hostID m) ++ " " ++ decimal (size m)
   ++ String "010"%char EmptyString)%string.

(** The JSON value [j] is the entry [m]: an object with the three
    integers, the IDs in the range of an unsigned int and the size in
    the range of an int. *)
Definition mapping_entry (j : json) (m : id_mapping) : Prop :=
  json_object_get j "containerID" = Some (JInteger (containerID m)) /\
  json_object_get j "hostID" = Some (JInteger (hostID m)) /\
  json_object_get j "size" = Some (JInteger (size m)) /\
  0 <= containerID m < 2 ^ 32 /\ 0 <= hostID m < 2 ^ 32 /\
  - 2 ^ 31 <= size m < 2 ^ 31.

(** The file [name] of the process [cpid] under /proc. *)
Definition proc_file (cpid : Z) (name : string) : string :=
  ("/proc/" ++ decimal cpid ++ "/" ++ name)%string.

(** The entries under [key], in the order of the configuration. *)
Definition entries (user : json) (key : string) : list json :=
  match json_object_get user key with
  | Some mappings => json_array_elements mappings
  | None => []
  end.

(** What is to be done to the map file [name] for the entries [ms]
    under [key]: the file is opened when the key is there, even for an
    empty array, and receives the line of each entry, in order. *)
Definition map_ops (user : json) (cpid : Z) (key name : string)
           (ms : list id_mapping) : list file_op :=
  match json_object_get user key with
  | Some _ =>
    Opened (proc_file cpid name)
    :: map (fun m => Wrote (proc_file cpid name) (mapping_text m)) ms
  | None => []
  end.

(** What is to be done to the file setgroups for the value of
    [setgroups]. *)
Definition setgroups_ops (user : json) (cpid : Z) : list file_op :=
  match json_object_get user "setgroups" with
  | Some setgroups =>
    [Opened (proc_file cpid "setgroups");
     Wrote (proc_file cpid "setgroups")
           (if json_boolean_value setgroups then "allow" else "deny")]
  | None => []
  end.

(** uid_map, then setgroups, then gid_map. *)
Definition mapping_plan (user : json) (cpid : Z) (uids gids : list id_mapping)
  : list file_op :=
  map_ops user cpid "uidMappings" "uid_map" uids
  ++ setgroups_ops user cpid
  ++ map_ops user cpid "gidMappings" "gid_map" gids.

(** A call whose answer makes the host give up on the mappings: the
    container is gone, or [open], [dprintf], [write] or [close]
    failed. *)
Definition gives_up (e : event) : bool :=
  match e with
  | EvChildPid v => v <? 0
  | EvOpen _ _ r => r =? -1
  | EvDprintf _ _ r => r <? 0
  | EvWrite _ _ r => r =? -1
  | EvClose _ r => r =? -1
  | _ => false
  end.

(** A user namespace in which root is the user 1000 of the host. *)
Definition user_namespace : json :=
  JObject
    [("uidMappings",
      JArray [JObject [("containerID", JInteger 0); ("hostID", JInteger 1000);
                       ("size", JInteger 1)]]);
     ("gidMappings",
      JArray [JObject [("containerID", JInteger 0); ("hostID", JInteger 1000);
                       ("size", JInteger 1)]]);
     ("setgroups", JFalse)].

Definition user_namespace_config : json :=
  JObject [("version", JString "0.2.0");
           ("namespaces", JObject [("user", user_namespace)])].

(** The answers of a run in which the container lives and no call fails. *)
Definition user_namespace_tape : list answer :=
  [ ans 4242; ans 3; ans 9; ans 0;    (* uid_map: child_pid, open, dprintf, close *)
    ans 4242; ans 3; ans 4; ans 0;    (* setgroups: child_pid, open, write, close *)
    ans 4242; ans 3; ans 9; ans 0 ].  (* gid_map *)

(** A user namespace with two entries for the user IDs. *)
Definition two_ranges : json :=
  JObject
    [("uidMappings",
      JArray [JObject [("containerID", JInteger 0); ("hostID", JInteger 1000);
                       ("size", JInteger 1)];
              JObject [("containerID", JInteger 1); ("hostID", JInteger 100000);
                       ("size", JInteger 65536)]]);
     ("gidMappings",
      JArray [JObject [("containerID", JInteger 0); ("hostID", JInteger 1000);
                       ("size", JInteger 1)]]);
     ("setgroups", JFalse)].

Definition two_ranges_config : json :=
  JObject [("version", JString "0.2.0");
           ("namespaces", JObject [("user", two_ranges)])].

(** The answers Linux gives for it: a map file takes one write, and
    the second write to uid_map fails with EINVAL. *)
Definition two_ranges_tape : list answer :=
  [ ans 4242; ans 3; ans 9; ans_err 22; ans 0 ].

(** ** Functions whose calls all belong to one class *)

(** [emits Q m]: whatever the world, every call [m] makes is in [Q]. *)
Definition emits (Q : event -> Prop) {A} (m : M A) : Prop :=
  forall w, only Q (w_trace w) (w_trace (snd (m w))).

(** The calls of the host before it runs the pre-start hooks. *)
Definition setup_call (e : event) : Prop :=
  match e with
  | EvChildPid _ | EvOpen _ _ _ | EvDprintf _ _ _ | EvClose _ _ | EvRead _ _ _ => True
  | EvWrite _ data _ => data <> EXEC_PROCESS
  | _ => False
  end.

(** The calls of [run_hooks]. *)
Definition hook_call (e : event) : Prop :=
  match e with
  | EvPipe _ _ _ | EvDprintf _ _ _ | EvClose _ _ | EvChildPid _ | EvFork _
  | EvDup2 _ _ _ | EvExecveat _ _ _ _ _ _ | EvExecvpe _ _ _ _ => True
  | EvWaitid name _ _ _ _ _ => name = "hook"
  | _ => False
  end.

(** ** Waiting *)

(** What [_wait] makes of one answer of [waitid]: [None] when it asks
    again (EINTR), otherwise the value it returns. *)
Definition wait_status (r errno code status : Z) : option Z :=
  if r =? -1 then (if errno =? EINTR then None else Some 1)
  else if code =? CLD_EXITED then Some status else Some 1.

Definition wait_outcome (e : event) : option Z :=
  match e with
  | EvWaitid _ _ r errno code status => wait_status r errno code status
  | _ => None
  end.

Definition wait_for (name : string) (pid : Z) (e : event) : Prop :=
  exists r errno code status, e = EvWaitid name pid r errno code status.

(** ** Functions whose calls are in one class and whose result is known *)

(** [post Q S m]: every call [m] makes is in [Q], and when [m] returns,
    the value it returns satisfies [S]. *)
Definition post (Q : event -> Prop) {A} (S : A -> Prop) (m : M A) : Prop :=
  emits Q m /\ forall w a, fst (m w) = Ret a -> S a.

(** The calls of [run_hooks] other than [waitid]. *)
Definition hook_prep (e : event) : Prop :=
  match e with
  | EvPipe _ _ _ | EvDprintf _ _ _ | EvClose _ _ | EvChildPid _ | EvFork _
  | EvDup2 _ _ _ | EvExecveat _ _ _ _ _ _ | EvExecvpe _ _ _ _ => True
  | _ => False
  end.

(** A [waitid] that reports a hook that exited with a status other than 0. *)
Definition hook_exit_nonzero (e : event) : bool :=
  match e with
  | EvWaitid name _ r _ code status =>
    String.eqb name "hook" && negb (r =? -1) && (code =? CLD_EXITED)
    && negb (status =? 0)
  | _ => false
  end.

Definition hook_call_ok (e : event) : Prop :=
  hook_call e /\ hook_exit_nonzero e = false.

(** [cond_out Q good m]: when [m] ends with an outcome in [good], all
    the calls it made are in [Q]. *)
Definition cond_out (Q : event -> Prop) {A} (good : outcome A -> Prop) (m : M A)
  : Prop :=
  forall w, good (fst (m w)) -> only Q (w_trace w) (w_trace (snd (m w))).

(** An outcome other than "return [Some r]": the loop goes on, or the
    process has ended. *)
Definition not_stopped {A} (o : outcome (option A)) : Prop :=
  forall r, o <> Ret (Some r).

(** ** What the history of a run of [handle_parent] shows *)

(** A [waitid] for the container process. *)
Definition container_wait (e : event) : bool :=
  match e with
  | EvWaitid name _ _ _ _ _ => String.eqb name "container"
  | _ => false
  end.

(** A [waitid] that reports that the container exited with status 0. *)
Definition container_exited_0 (e : event) : bool :=
  match e with
  | EvWaitid name _ r _ code status =>
    String.eqb name "container" && negb (r =? -1) && (code =? CLD_EXITED)
    && (status =? 0)
  | _ => false
  end.

(** A write of the line that lets the container exec its process. *)
Definition wrote_exec (e : event) : bool :=
  match e with
  | EvWrite _ data _ => String.eqb data EXEC_PROCESS
  | _ => false
  end.

(** A SIGKILL sent to [cpid]. *)
Definition killed (cpid : Z) (e : event) : bool :=
  match e with
  | EvKill pid sig _ => (pid =? cpid) && (sig =? SIGKILL)
  | _ => false
  end.

(** A read of [child_pid] that did not find a PID in it: [reap_child]
    has seen the container die. *)
Definition saw_container_gone (e : event) : bool :=
  match e with
  | EvChildPid v => v <=? 0
  | _ => false
  end.

(** A [fork] that returned 0: from here on the run is that of the
    forked hook process. *)
Definition forked_child (e : event) : bool :=
  match e with
  | EvFork r => r =? 0
  | _ => false
  end.

(** Some hook waited for before the container is waited for exited
    with a status other than 0; [calls] is in the order of the calls.
    The hooks waited for before the container are the pre-start
    hooks. *)
Fixpoint prestart_hook_failed (calls : list event) : bool :=
  match calls with
  | [] => false
  | e :: rest =>
    if container_wait e then false
    else hook_exit_nonzero e || prestart_hook_failed rest
  end.

(** The same scan as a state machine over the trace, newest call
    first. *)
Inductive phase : Type := Undecided | HookFailed | Waited.

Definition phase_step (e : event) (p : phase) : phase :=
  match p with
  | Undecided =>
    if container_wait e then Waited
    else if hook_exit_nonzero e then HookFailed else Undecided
  | _ => p
  end.

Definition phase_of (t : list event) : phase := fold_right phase_step Undecided t.

(** Calls that are neither a wait for the container nor the wait for a
    hook that failed. *)
Definition calm (e : event) : Prop :=
  container_wait e = false /\ hook_exit_nonzero e = false.

(** Calls other than a wait for the container. *)
Definition before_wait (e : event) : Prop := container_wait e = false.

(** Calls that are neither a wait for the container nor the write of
    the exec line. *)
Definition before_exec (e : event) : Prop :=
  container_wait e = false /\ wrote_exec e = false.

(** What [handle_parent] owes after its label [wait], in terms of the
    calls [new] made from there and of its outcome [o]. *)
Definition after_wait (new : list event) (o : outcome (Z * (Z * Z))) : Prop :=
  (forall e st, In e new -> container_wait e = true -> wait_outcome e = Some st ->
                forall ret fds, o = Ret (ret, fds) -> ret = st) /\
  (forall e st, In e new -> container_wait e = true -> wait_outcome e = Some st ->
                existsb forked_child new = false -> exists fds, o = Ret (st, fds)) /\
  (forall ret fds, o = Ret (ret, fds) -> ret = 0 ->
                   exists e, In e new /\ container_exited_0 e = true) /\
  (existsb forked_child new = false -> exists r, o = Ret r) /\
  Forall (fun e => wrote_exec e = false) new.

(** Where the value [ret] that [handle_parent] returns from its label
    [wait] on comes from: it is the status that a [waitid] for the
    container gave [_wait]; or it is the 1 for a [close] of the pipe
    to the container that failed, and the container was not waited
    for. *)
Definition status_source (to_child : Z) (calls : list event) (ret : Z) : Prop :=
  (exists e, In e calls /\ container_wait e = true /\ wait_outcome e = Some ret) \/
  (ret = 1 /\ In (EvClose to_child (-1)) calls /\
   Forall (fun e => container_wait e = false) calls).

(** What is shown of [handle_parent], in terms of its trace [t]
    (newest call first) and of its outcome [o]: the exit status of the
    container is what it returns, and, when it was given the PID of
    the container, what it does after a pre-start hook failed. *)
Definition handle_parent_post (cpid to_child : Z) (t : list event)
           (o : outcome (Z * (Z * Z))) : Prop :=
  (forall e st, In e t -> container_wait e = true -> wait_outcome e = Some st ->
                (forall ret fds, o = Ret (ret, fds) -> ret = st) /\
                (existsb forked_child t = false -> exists fds, o = Ret (st, fds))) /\
  (cpid <> 0 -> phase_of t = HookFailed ->
   Forall (fun e => wrote_exec e = false) t /\
   (exists e, In e t /\ (killed cpid e = true \/ saw_container_gone e = true)) /\
   (forall ret fds, o = Ret (ret, fds) -> status_source to_child t ret) /\
   (forall ret fds, o = Ret (ret, fds) -> ret = 0 ->
                    exists e, In e t /\ container_exited_0 e = true) /\
   (existsb forked_child t = false -> exists r, o = Ret r)).

(** [forked_since old t]: [t] is [old] with further calls in front of
    it, one of them a [fork] that returned 0. *)
Definition forked_since (old t : list event) : Prop :=
  exists new, t = new ++ old /\ existsb forked_child new = true.

(** ** Runs with hooks *)

Definition hooks_config : json :=
  JObject
    [("version", JString "0.2.0");
     ("hooks",
      JObject
        [("pre-start", JArray [JObject [("args", JArray [JString "/bin/false"])]]);
         ("post-stop", JArray [JObject [("args", JArray [JString "/bin/false"])]])])].

(** The answers up to the end of the first pre-start hook, which
    exits with status 3. *)
Definition failed_hook_tape : list answer :=
  [ans 32] ++ bytes (list_ascii_of_string CONTAINER_SETUP_COMPLETE)
  ++ [ ans 0;                                 (* close(from_child) *)
       ans_pipe 8 9; ans 4; ans 0; ans 100;   (* pipe, dprintf, close, child_pid *)
       ans 200; ans 0;                        (* fork, close *)
       ans_wait CLD_EXITED 3 ].               (* the hook exits with status 3 *)

Definition killed_run :=
  handle_parent hooks_config 100 5 6
                (init_world (failed_hook_tape
                             ++ [ ans 100; ans 0;          (* child_pid, kill *)
                                  ans 0;                   (* close(to_child) *)
                                  ans_wait CLD_KILLED 9;   (* the container *)
                                  ans 201; ans_wait CLD_EXITED 1 ])
                            [] false).

Definition gone_run :=
  handle_parent hooks_config 100 5 6
                (init_world (failed_hook_tape
                             ++ [ ans (-1);                (* child_pid *)
                                  ans 0;                   (* close(to_child) *)
                                  ans_wait CLD_EXITED 0;   (* the container *)
                                  ans 201; ans_wait CLD_EXITED 1 ])
                            [] false).

(** A run in which the hooks pass, the container exits with status 7
    and the post-stop hook exits with status 1. *)
Definition exit_7_run :=
  handle_parent hooks_config 100 5 6
                (init_world
                   ([ans 32] ++ bytes (list_ascii_of_string CONTAINER_SETUP_COMPLETE)
                    ++ [ ans 0;
                         ans_pipe 8 9; ans 4; ans 0; ans 100; ans 200; ans 0;
                         ans_wait CLD_EXITED 0;     (* the pre-start hook *)
                         ans 13; ans 0;             (* write, close(to_child) *)
                         ans_wait CLD_EXITED 7;     (* the container *)
                         ans 201; ans_wait CLD_EXITED 1 ])
                   [] false).

(** * What is said of further functions *)


(** ** Namespaces *)

(** The names [get_namespace_type] knows, with their types. *)
Definition namespace_types : list (string * Z) :=
  [ ("mount", CLONE_NEWNS); ("uts", CLONE_NEWUTS); ("ipc", CLONE_NEWIPC);
    ("net", CLONE_NEWNET); ("pid", CLONE_NEWPID); ("user", CLONE_NEWUSER) ].

(** The type of the namespace with exactly this name. *)
Definition namespace_type_of (name : string) : option Z :=
  option_map snd (find (fun p => String.eqb (fst p) name) namespace_types).

(** An entry of [namespaces] that names an existing namespace to join. *)
Definition has_path (kv : string * json) : bool :=
  match json_object_get (snd kv) "path" with Some _ => true | None => false end.

(** The namespaces the container process is to be created in. *)
Definition created_namespaces (namespaces : json) : list (string * json) :=
  filter (fun kv => negb (has_path kv)) (json_object_items namespaces).


Definition known_namespace (kv : string * json) : Prop :=
  namespace_type_of (c_str (fst kv)) <> None.

Definition type_of_entry (kv : string * json) : Z :=
  match namespace_type_of (c_str (fst kv)) with Some t => t | None => 0 end.

Definition two_namespaces_config : json :=
  JObject
    [("version", JString "0.2.0");
     ("namespaces",
      JObject [("pid", JObject []);
               ("net", JObject [("path", JString "/run/netns/blue")]);
               ("mount", JObject [])])].






(** ** User and groups *)






(** ** Arrays of strings and the exec call *)

(** The next [n] allocations succeed. *)
Definition allocations_succeed (n : nat) (w : world) : bool :=
  forallb (fun ok => ok) (firstn n (w_heap w)).

(** The strings of a JSON array of strings. *)
Definition strings_of (array : json) (strs : list string) : Prop :=
  map json_string_value (json_array_elements array) = map Some strs.


(** What [process.env] stands for: the strings of the array, or, when
    the key is absent, the environment of the caller ([None]). *)
Definition env_of (process : json) (env : option (list string)) : Prop :=
  match json_object_get process "env" with
  | Some e => exists l, env = Some l /\ strings_of e l
  | None => env = None
  end.

(** The file [exec_process] hands [execvpe]: [process.path], or the
    first argument. *)
Definition exec_file (process : json) (argv : list string) : option string :=
  match json_object_get process "path" with
  | Some p => json_string_value p
  | None => hd_error argv
  end.

Definition shell_process : json :=
  JObject [("args", JArray [JString "sh"; JString "-c"; JString "true"]);
           ("path", JString "/bin/busybox")].


(** ** The search for a host executable *)





(** ** The change of root *)

(** The answers of a run of [pivot_root_remove_old] in which every
    call succeeds. *)
Definition pivot_tape : list answer :=
  [ ans_str "/rootfs/pivot-root.Ab12Cd"; ans 0; ans 0; ans 0; ans 0; ans 0 ].


(** ** What the history of a run of [handle_child] shows *)

(** An exec call. *)
Definition is_exec (e : event) : bool :=
  match e with
  | EvExecveat _ _ _ _ _ _ | EvExecvpe _ _ _ _ => true
  | _ => false
  end.

(** The bytes that the [read] calls among [calls] took from [fd]. *)
Definition bytes_read (fd : Z) (calls : list event) : list ascii :=
  flat_map (fun e => match e with
                     | EvRead fd' r b => if (fd' =? fd) && (r =? 1) then [b] else []
                     | _ => []
                     end) calls.

(** The calls made before the first exec call. *)
Fixpoint until_exec (calls : list event) : list event :=
  match calls with
  | [] => []
  | e :: rest => if is_exec e then [] else e :: until_exec rest
  end.

(** The calls by which the container sets itself up: anything but a
    [read], a [write] or an exec call. *)
Definition container_setup_call (e : event) : Prop :=
  match e with
  | EvRead _ _ _ | EvWrite _ _ _ | EvExecveat _ _ _ _ _ _ | EvExecvpe _ _ _ _ => False
  | _ => True
  end.

(** Anything but a [read] or a [write]. *)
Definition no_message (e : event) : Prop :=
  match e with
  | EvRead _ _ _ | EvWrite _ _ _ => False
  | _ => True
  end.

(** A configuration with a process and nothing to set up, and the
    answers of a run of [handle_child] that reaches the exec call. *)
Definition true_config : json :=
  JObject [("version", JString "0.2.0");
           ("process", JObject [("args", JArray [JString "/bin/true"])])].

Definition exec_tape : list answer :=
  bytes (list_ascii_of_string USER_NAMESPACE_MAPPING_COMPLETE)
  ++ [ans 25; ans 0]
  ++ bytes (list_ascii_of_string EXEC_PROCESS)
  ++ [ans 0; ans 0].


(** ** Hooks *)





(** * Properties *)

(** ** Strings *)

Lemma uchar_inj (a b : ascii) : uchar a = uchar b -> a = b.
Proof.
  unfold uchar. intros H. apply N2Z.inj in H.
  rewrite <- (ascii_N_embedding a), <- (ascii_N_embedding b). now rewrite H.
Qed.

Lemma uchar_diff (a b : ascii) : Ascii.eqb a b = false -> (uchar a - uchar b =? 0) = false.
Proof.
  intros H. apply Z.eqb_neq. intros E.
  assert (a = b) by (apply uchar_inj; lia).
  subst. now rewrite Ascii.eqb_refl in H.
Qed.

(** For a literal without a NUL byte, [strncmp(lit, s, strlen(lit)) == 0]
    says that [s] starts with [lit]. *)
Lemma strncmp_prefix (lit : string) :
  has_char NUL lit = false ->
  forall s, (strncmp lit s (String.length lit) =? 0) = String.prefix lit s.
Proof.
  induction lit as [|c lit IH]; intros Hn s; [now destruct s|].
  cbn [has_char] in Hn. apply orb_false_elim in Hn as [Hc Hn].
  destruct s as [|c2 s]; cbn [strncmp String.length String.prefix].
  - apply Z.eqb_neq. intros E. change 0 with (uchar NUL) in E.
    apply uchar_inj in E. subst. now rewrite Ascii.eqb_refl in Hc.
  - destruct (Ascii.eqb c c2) eqn:E.
    + apply Ascii.eqb_eq in E. subst. destruct (ascii_dec c2 c2); [|congruence].
      now apply IH.
    + destruct (ascii_dec c c2) as [->|_]; [now rewrite Ascii.eqb_refl in E|].
      now apply uchar_diff.
Qed.

Lemma prefix_c_str (lit : string) :
  has_char NUL lit = false ->
  forall s, String.prefix lit (c_str s) = String.prefix lit s.
Proof.
  induction lit as [|c lit IH]; intros Hn s.
  { destruct s as [|c s]; cbn; [|destruct (Ascii.eqb c NUL)]; reflexivity. }
  cbn [has_char] in Hn. apply orb_false_elim in Hn as [Hc Hn].
  destruct s as [|c2 s]; [reflexivity|]. cbn [c_str].
  destruct (Ascii.eqb c2 NUL) eqn:E; cbn [String.prefix].
  - apply Ascii.eqb_eq in E. subst.
    destruct (ascii_dec c NUL) as [->|_]; [now rewrite Ascii.eqb_refl in Hc|reflexivity].
  - destruct (ascii_dec c c2); [now apply IH|reflexivity].
Qed.

Lemma version_supported_prefix (s : string) :
  version_supported supported_versions (c_str s)
  = String.prefix "0.1.0" s || String.prefix "0.2.0" s.
Proof.
  unfold supported_versions. cbn [version_supported].
  rewrite !strncmp_prefix, !prefix_c_str by reflexivity.
  destruct (String.prefix "0.1.0" s), (String.prefix "0.2.0" s); reflexivity.
Qed.

(** C3. A version string that starts with "0.1.0" or "0.2.0" passes
    [validate_version] and [validate_config] (both return 0); a version
    string that starts with neither makes them return 1, and [main]
    then returns 1 without having made a single call: the process
    ends with status 1. *)
Theorem version_acceptance (s : string) (w : world) :
  let accepted := String.prefix "0.1.0" s || String.prefix "0.2.0" s in
  fst (validate_version (JString s) w) = Ret (if accepted then 0 else 1) /\
  (forall kv, assoc "version" kv = Some (JString s) ->
     fst (validate_config (JObject kv) w) = Ret (if accepted then 0 else 1) /\
     (accepted = false ->
      forall path,
        fst (main path (Some (JObject kv)) w) = Ret 1 /\
        exit_status (fun r => r) (fst (main path (Some (JObject kv)) w)) = Some 1 /\
        w_trace (snd (main path (Some (JObject kv)) w)) = w_trace w)).
Proof.
  cbv zeta.
  assert (V : fst (validate_version (JString s) w)
              = Ret (if String.prefix "0.1.0" s || String.prefix "0.2.0" s
                     then 0 else 1)).
  { unfold validate_version. cbn [json_string_value].
    rewrite version_supported_prefix.
    now destruct (String.prefix "0.1.0" s || String.prefix "0.2.0" s). }
  split; [exact V|]. intros kv Hv.
  assert (C : forall w0 : world,
             validate_config (JObject kv) w0
             = (if String.prefix "0.1.0" s || String.prefix "0.2.0" s
                then (Ret 0, w0)
                else (Ret 1, say (Log "config version %s is not supported\n"
                                      [LStr (Some (c_str s))]) w0))).
  { intros w0. unfold validate_config, validate_version, bind.
    cbn [json_is_object negb json_object_get json_string_value].
    rewrite Hv. cbn [json_string_value]. rewrite version_supported_prefix.
    now destruct (String.prefix "0.1.0" s || String.prefix "0.2.0" s). }
  split.
  - rewrite C. now destruct (String.prefix "0.1.0" s || String.prefix "0.2.0" s).
  - intros Hr path. unfold main, bind. rewrite C, Hr. cbn. auto.
Qed.

Lemma version_acceptance_witness :
  assoc "version" [("version", JString "0.3.0-rc1")] = Some (JString "0.3.0-rc1") /\
  (String.prefix "0.1.0" "0.3.0-rc1" || String.prefix "0.2.0" "0.3.0-rc1" = false) /\
  fst (main "config.json" (Some (JObject [("version", JString "0.3.0-rc1")]))
            (init_world [] [] false)) = Ret 1.
Proof.
  split; [reflexivity|]. split; [reflexivity|].
  apply (proj2 (version_acceptance "0.3.0-rc1" (init_world [] [] false))
               [("version", JString "0.3.0-rc1")] eq_refl).
  reflexivity.
Defined.

(** ** [getline_fd] *)

Lemma store_at_end (l : list ascii) (b : ascii) :
  store_at l (List.length l) b = l ++ [b].
Proof.
  unfold store_at. rewrite firstn_all, skipn_all2 by (cbn; lia). reflexivity.
Qed.

Lemma heap_ok_hd (w : world) : heap_ok w -> hd true (w_heap w) = true.
Proof. unfold heap_ok. destruct (w_heap w); [reflexivity|]. now inversion 1. Qed.

Lemma heap_ok_tl (w : world) : heap_ok w -> Forall (fun b => b = true) (tl (w_heap w)).
Proof. unfold heap_ok. destruct (w_heap w); [auto|]. now inversion 1. Qed.

Lemma allocated_for_step (size : Z) :
  0 <= size ->
  (if size =? allocated_for size then allocated_for size + getline_block
   else allocated_for size) = allocated_for (size + 1).
Proof.
  unfold allocated_for, getline_block. intros H.
  destruct (size =? _) eqn:E; [apply Z.eqb_eq in E|apply Z.eqb_neq in E].
  - assert (size mod 512 = 0) by (rewrite E at 1; rewrite Z.mul_comm; apply Z_mod_mult).
    pose proof (Z.div_mod size 512). pose proof (Z.div_mod (size + 511) 512).
    pose proof (Z.div_mod (size + 1 + 512 - 1) 512).
    pose proof (Z.mod_pos_bound (size + 511) 512).
    pose proof (Z.mod_pos_bound (size + 1 + 512 - 1) 512).
    replace (size + 512 - 1) with (size + 511) in * by lia. lia.
  - pose proof (Z.div_mod size 512). pose proof (Z.div_mod (size + 511) 512).
    pose proof (Z.div_mod (size + 1 + 512 - 1) 512).
    pose proof (Z.mod_pos_bound size 512).
    pose proof (Z.mod_pos_bound (size + 511) 512).
    pose proof (Z.mod_pos_bound (size + 1 + 512 - 1) 512).
    replace (size + 512 - 1) with (size + 511) in * by lia. lia.
Qed.

Lemma heap_ok_after_read fd b grow w : heap_ok w -> heap_ok (after_read fd b grow w).
Proof.
  intros H. unfold heap_ok, after_read. cbn.
  destruct grow; [now apply heap_ok_tl|exact H].
Qed.

(** One turn of the loop of [getline_fd] when the pipe delivers a byte. *)
Lemma getline_fd_turn (fuel : nat) (buf : option (list ascii)) (l1 : list ascii)
      (fd : Z) (b : ascii) (t : list answer) (w : world) :
  buf = Some l1 \/ (buf = None /\ l1 = []) ->
  w_tape w = ans_byte b :: t ->
  heap_ok w ->
  let size := Z.of_nat (List.length l1) in
  let w' := after_read fd b (size =? allocated_for size) w in
  getline_fd_loop (S fuel) buf (allocated_for size) fd size w =
  if size + 1 >=? getline_max
  then (Ret (-1, (Some (l1 ++ [b]), allocated_for (size + 1))), w')
  else if Ascii.eqb b newline
       then (Ret (size + 1, (Some (l1 ++ [b]), allocated_for (size + 1))), w')
       else getline_fd_loop fuel (Some (l1 ++ [b])) (allocated_for (size + 1))
                            fd (size + 1) w'.
Proof.
  intros Hbuf Ht Hh size w'. subst size w'.
  pose proof (allocated_for_step (Z.of_nat (List.length l1)) ltac:(lia)) as Hstep.
  assert (Hl : match buf with Some l => l | None => [] end = l1)
    by (destruct Hbuf as [->|[-> ->]]; reflexivity).
  cbn [getline_fd_loop]. unfold bind at 1.
  destruct (Z.of_nat (List.length l1) =? allocated_for (Z.of_nat (List.length l1))) eqn:E.
  - unfold bind at 1, alloc. rewrite (heap_ok_hd w Hh). unfold ret at 1.
    unfold bind at 1, sys_read1, sys, next. cbn [w_tape]. rewrite Ht.
    cbn [hd a_ret a_byte ans_byte Z.eqb negb Pos.eqb].
    rewrite Hl, Hstep, Nat2Z.id, store_at_end.
    unfold after_read, called. cbn [w_tape w_heap w_trace w_verbose w_stderr].
    rewrite Ht.
    destruct (_ >=? getline_max); [reflexivity|].
    destruct (Ascii.eqb b newline); reflexivity.
  - destruct Hbuf as [->|[-> ->]]; [|cbn in E; discriminate].
    unfold ret at 1.
    unfold bind at 1, sys_read1, sys, next. rewrite Ht.
    cbn [hd a_ret a_byte ans_byte Z.eqb negb Pos.eqb].
    rewrite Hstep, Nat2Z.id, store_at_end.
    unfold after_read, called. rewrite Ht.
    destruct (_ >=? getline_max); [reflexivity|].
    destruct (Ascii.eqb b newline); reflexivity.
Qed.

(** The bytes of a line before its line feed are read one by one. *)
Lemma getline_fd_bytes (fd : Z) (l2 : list ascii) :
  forall (fuel : nat) (buf : option (list ascii)) (l1 : list ascii)
         (t : list answer) (w : world),
    buf = Some l1 \/ (buf = None /\ l1 = []) ->
    w_tape w = bytes l2 ++ t ->
    heap_ok w ->
    Forall (fun b => Ascii.eqb b newline = false) l2 ->
    Z.of_nat (List.length l1 + List.length l2) < getline_max ->
    exists (buf' : option (list ascii)) (w' : world),
      getline_fd_loop (List.length l2 + fuel) buf
                      (allocated_for (Z.of_nat (List.length l1))) fd
                      (Z.of_nat (List.length l1)) w
      = getline_fd_loop fuel buf'
                        (allocated_for (Z.of_nat (List.length (l1 ++ l2)))) fd
                        (Z.of_nat (List.length (l1 ++ l2))) w' /\
      (buf' = Some (l1 ++ l2) \/ (buf' = None /\ l1 ++ l2 = [])) /\
      w_tape w' = t /\ heap_ok w' /\
      w_trace w' = rev (map (EvRead fd 1) l2) ++ w_trace w /\
      w_verbose w' = w_verbose w /\ w_stderr w' = w_stderr w.
Proof.
  induction l2 as [|b l2 IH]; intros fuel buf l1 t w Hbuf Ht Hh Hnl Hlen.
  - exists buf, w. rewrite app_nil_r. cbn. auto 10.
  - inversion Hnl as [|? ? Hb Hnl']; subst.
    cbn [bytes map app] in Ht.
    cbn [List.length Nat.add].
    rewrite (getline_fd_turn _ buf l1 fd b _ w Hbuf Ht Hh).
    rewrite List.length_cons in Hlen.
    destruct (_ >=? getline_max) eqn:E; [lia|]. rewrite Hb.
    set (w1 := after_read fd b _ w).
    destruct (IH fuel (Some (l1 ++ [b])) (l1 ++ [b]) t w1) as (buf' & w' & Hrun & Hb' & Ht' & Hh' & Htr & Hv & Hs).
    + now left.
    + unfold w1, after_read. cbn [w_tape]. now rewrite Ht.
    + now apply heap_ok_after_read.
    + exact Hnl'.
    + rewrite length_app. cbn [List.length]. lia.
    + exists buf', w'.
      replace (Z.of_nat (List.length l1) + 1) with (Z.of_nat (List.length (l1 ++ [b])))
        by (rewrite length_app; cbn [List.length]; lia).
      rewrite Hrun, <- app_assoc. cbn [app]. repeat split; auto.
      * destruct Hb' as [->|[-> Hnil]]; [left|right]; rewrite <- app_assoc in *; auto.
      * rewrite Htr. unfold w1, after_read. cbn [w_trace map rev].
        rewrite <- app_assoc. reflexivity.
Qed.

(** A complete line shorter than [max] is returned with its length. *)
Lemma getline_fd_line (fd : Z) (l : list ascii) (t : list answer) (w : world) :
  Forall (fun b => Ascii.eqb b newline = false) l ->
  w_tape w = bytes (l ++ [newline]) ++ t ->
  heap_ok w ->
  Z.of_nat (List.length (l ++ [newline])) < getline_max ->
  exists w',
    getline_fd None 0 fd w
    = (Ret (Z.of_nat (List.length (l ++ [newline])),
            (Some (l ++ [newline]),
             allocated_for (Z.of_nat (List.length (l ++ [newline]))))), w') /\
    w_tape w' = t /\ heap_ok w' /\
    w_trace w' = rev (map (EvRead fd 1) (l ++ [newline])) ++ w_trace w /\
    w_verbose w' = w_verbose w /\ w_stderr w' = w_stderr w.
Proof.
  intros Hnl Ht Hh Hlen. rewrite length_app in Hlen. cbn [List.length] in Hlen.
  unfold bytes in Ht. rewrite map_app, <- app_assoc in Ht. cbn [map app] in Ht.
  unfold getline_fd.
  replace (Z.to_nat getline_max)
    with (List.length l + S (Z.to_nat (getline_max - 1 - Z.of_nat (List.length l))))%nat
    by (unfold getline_max in *; lia).
  destruct (getline_fd_bytes fd l
              (S (Z.to_nat (getline_max - 1 - Z.of_nat (List.length l))))
              None [] _ w (or_intror (conj eq_refl eq_refl))
              Ht Hh Hnl ltac:(cbn [List.length]; lia))
    as (buf' & w1 & Hrun & Hb & Ht1 & Hh1 & Htr & Hv & Hs).
  change (allocated_for (Z.of_nat (@List.length ascii []))) with 0 in Hrun.
  change (Z.of_nat (@List.length ascii [])) with 0 in Hrun.
  rewrite Hrun. cbn [app] in *.
  rewrite (getline_fd_turn _ buf' l fd newline t w1 Hb Ht1 Hh1).
  destruct (_ >=? getline_max) eqn:E; [lia|].
  rewrite Ascii.eqb_refl.
  eexists. split.
  - rewrite length_app. cbn [List.length].
    replace (Z.of_nat (List.length l + 1)) with (Z.of_nat (List.length l) + 1) by lia.
    reflexivity.
  - unfold after_read. cbn [w_tape w_heap w_trace w_verbose w_stderr].
    rewrite Ht1, Htr, map_app, rev_app_distr. cbn [map rev app tl].
    repeat split; auto.
    apply (heap_ok_after_read fd newline _ w1 Hh1).
Qed.

(** Once [max] bytes are stored without a line feed among the first
    [max - 1], the call fails, whatever the last byte is. *)
Lemma getline_fd_too_long (fd : Z) (l : list ascii) (b : ascii)
      (t : list answer) (w : world) :
  Forall (fun b => Ascii.eqb b newline = false) l ->
  w_tape w = bytes (l ++ [b]) ++ t ->
  heap_ok w ->
  Z.of_nat (List.length (l ++ [b])) = getline_max ->
  returned (fst (getline_fd None 0 fd w)) = Some (-1).
Proof.
  intros Hnl Ht Hh Hlen. rewrite length_app in Hlen. cbn [List.length] in Hlen.
  unfold bytes in Ht. rewrite map_app, <- app_assoc in Ht. cbn [map app] in Ht.
  unfold getline_fd.
  replace (Z.to_nat getline_max) with (List.length l + 1)%nat
    by (unfold getline_max in *; lia).
  destruct (getline_fd_bytes fd l 1%nat None [] _ w
              (or_intror (conj eq_refl eq_refl))
              Ht Hh Hnl ltac:(cbn [List.length]; lia))
    as (buf' & w1 & Hrun & Hb & Ht1 & Hh1 & _).
  change (allocated_for (Z.of_nat (@List.length ascii []))) with 0 in Hrun.
  change (Z.of_nat (@List.length ascii [])) with 0 in Hrun.
  rewrite Hrun. cbn [app] in *.
  rewrite (getline_fd_turn _ buf' l fd b t w1 Hb Ht1 Hh1).
  destruct (_ >=? getline_max) eqn:E; [reflexivity|lia].
Qed.

(** C8, as the code has it.  The longest line [getline_fd] returns has
    16,383 bytes, its line feed included: such a line, and every
    shorter one, is returned with its length; a line of 16,384 bytes
    makes [getline_fd] return -1. *)
Theorem getline_fd_longest_line (fd : Z) (l : list ascii) (t : list answer)
        (w : world) :
  Forall (fun b => Ascii.eqb b newline = false) l ->
  w_tape w = bytes (l ++ [newline]) ++ t ->
  heap_ok w ->
  (Z.of_nat (List.length (l ++ [newline])) <= 16383 ->
   fst (getline_fd None 0 fd w)
   = Ret (Z.of_nat (List.length (l ++ [newline])),
          (Some (l ++ [newline]),
           allocated_for (Z.of_nat (List.length (l ++ [newline])))))) /\
  (Z.of_nat (List.length (l ++ [newline])) = 16384 ->
   returned (fst (getline_fd None 0 fd w)) = Some (-1)).
Proof.
  intros Hnl Ht Hh. split; intros Hlen.
  - destruct (getline_fd_line fd l t w Hnl Ht Hh) as (w' & Hrun & _).
    + unfold getline_max. lia.
    + now rewrite Hrun.
  - now apply (getline_fd_too_long fd l newline t w).
Qed.

Lemma getline_fd_longest_line_witness :
  fst (getline_fd None 0 3
         (init_world (bytes (list_ascii_of_string (line "exec-process"))) [] false))
  = Ret (13, (Some (list_ascii_of_string (line "exec-process")), 512)).
Proof.
  apply (proj1 (getline_fd_longest_line 3 (list_ascii_of_string "exec-process") []
                  (init_world (bytes (list_ascii_of_string (line "exec-process")))
                              [] false)
                  ltac:(repeat constructor) eq_refl ltac:(constructor))).
  cbn. lia.
Defined.

(** C8 as stated fails: a line of exactly 16,384 bytes (16,383 letters
    and the line feed) is not returned; [getline_fd] returns -1. *)
Lemma getline_fd_16384_rejected :
  returned
    (fst (getline_fd None 0 3
            (init_world (bytes (repeat "a"%char (Z.to_nat 16383) ++ [newline]))
                        [] false)))
  = Some (-1).
Proof.
  apply (getline_fd_too_long 3 (repeat "a"%char (Z.to_nat 16383)) newline []).
  - apply Forall_forall. intros b Hb. apply repeat_spec in Hb. now subst.
  - cbn [init_world w_tape]. now rewrite app_nil_r.
  - constructor.
  - rewrite length_app, repeat_length. cbn [List.length]. unfold getline_max. lia.
Qed.

(** ** The handshake reads *)

(** Comparing an expected message with a complete line never reads past
    the line, and finds them equal only when the line is the message. *)
Lemma strncmp_buf_line (lit : string) :
  has_char NUL lit = false ->
  has_char newline lit = false ->
  forall l,
    Forall (fun b => Ascii.eqb b newline = false) l ->
    exists c,
      strncmp_buf (line lit) (l ++ [newline]) (String.length (line lit)) = Some c /\
      (c = 0 <-> l = list_ascii_of_string lit).
Proof.
  induction lit as [|c lit IH]; intros Hz Hn l Hl.
  - destruct l as [|b l];
      cbn [line String.append String.length strncmp_buf app list_ascii_of_string].
    + rewrite Ascii.eqb_refl. exists 0. split; [reflexivity|tauto].
    + inversion Hl as [|? ? Hb _]; subst.
      rewrite Ascii.eqb_sym, Hb. eexists. split; [reflexivity|].
      split; [|discriminate]. intros E. exfalso.
      assert (newline = b) by (apply uchar_inj; lia).
      subst. now rewrite Ascii.eqb_refl in Hb.
  - cbn [has_char] in Hz, Hn.
    apply orb_false_elim in Hz as [_ Hz]. apply orb_false_elim in Hn as [Hc Hn].
    destruct l as [|b l].
    + cbn [line String.append String.length strncmp_buf app list_ascii_of_string].
      rewrite Hc. eexists. split; [reflexivity|].
      split; [|discriminate]. intros E. exfalso.
      assert (c = newline) by (apply uchar_inj; lia).
      subst. now rewrite Ascii.eqb_refl in Hc.
    + inversion Hl as [|? ? Hb Hl']; subst.
      cbn [line String.append String.length strncmp_buf app list_ascii_of_string].
      destruct (Ascii.eqb c b) eqn:E.
      * apply Ascii.eqb_eq in E. subst b.
        destruct (IH Hz Hn l Hl') as (c0 & Hc0 & Hiff).
        exists c0. split; [exact Hc0|]. rewrite Hiff.
        split; [now intros ->|now inversion 1].
      * eexists. split; [reflexivity|]. split.
        -- intros E0. pose proof (uchar_diff c b E) as D. rewrite E0 in D. discriminate.
        -- inversion 1. subst. now rewrite Ascii.eqb_refl in E.
Qed.

(** C1: the code and the claim part ways.  A complete line that is not
    the expected message makes the reader log it and jump to [cleanup]
    while [err] is still 0: [handle_parent] returns 0 when the
    container sends "bogus\n" where "container-setup-complete\n" is
    due, and [handle_child] returns 0 when the host sends "bogus\n"
    where "user-namespace-mapping-complete\n" or "exec-process\n" is
    due.  (End of file is fatal: the last equation.) *)
Theorem wrong_handshake_line_returns_0 (P : platform) :
  returned (fst (handle_parent minimal_config 100 5 6
                   (init_world (ans 32 :: bytes (list_ascii_of_string (line "bogus")))
                               [] false))) = Some 0 /\
  returned (fst (handle_child P minimal_config 7 4
                   (init_world (bytes (list_ascii_of_string (line "bogus")))
                               [] false))) = Some 0 /\
  returned (fst (handle_child P minimal_config 7 4
                   (init_world
                      (bytes (list_ascii_of_string USER_NAMESPACE_MAPPING_COMPLETE)
                       ++ [ans 25; ans 0]
                       ++ bytes (list_ascii_of_string (line "bogus")))
                      [] false))) = Some 0 /\
  returned (fst (handle_parent minimal_config 100 5 6
                   (init_world [ans 32; ans 0] [] false))) = Some 1.
Proof. repeat split; vm_compute; reflexivity. Qed.

(** ** The exec dispatcher *)

(** C7, as the code has it.  With no [process], or a [process] without
    an [args] key, [exec_container_process] makes the container exit
    with status 0, and makes no call at all.  (An empty [args] array
    is no such case: see [empty_args_reaches_exec].) *)
Theorem no_process_or_no_args_exits_0 (config : json) (exec_fd : Z) (w : world) :
  json_object_get config "process" = None \/
  (exists process, json_object_get config "process" = Some process /\
                   json_object_get process "args" = None) ->
  fst (exec_container_process config exec_fd w) = Exit 0 /\
  exit_status (fun _ : unit => 0) (fst (exec_container_process config exec_fd w))
  = Some 0 /\
  w_trace (snd (exec_container_process config exec_fd w)) = w_trace w.
Proof.
  unfold exec_container_process.
  intros [H|(process & H & Ha)]; rewrite H.
  - cbn. auto.
  - unfold exec_process. rewrite Ha. cbn. auto.
Qed.

Lemma no_process_or_no_args_exits_0_witness :
  fst (exec_container_process
         (JObject [("version", JString "0.2.0"); ("process", JObject [("cwd", JString "/")])])
         (-1) (init_world [] [] false)) = Exit 0.
Proof.
  apply (no_process_or_no_args_exits_0
           (JObject [("version", JString "0.2.0"); ("process", JObject [("cwd", JString "/")])])
           (-1) (init_world [] [] false)).
  right. exists (JObject [("cwd", JString "/")]). split; reflexivity.
Defined.

(** C7 as stated fails for an empty [args] array:
    [json_array_of_strings_value] turns it into an [argv] that holds
    only the terminating NULL, which is not a NULL [argv], and the
    code goes on to exec.  With [process.path] set the container
    calls [execvpe(path, argv, environ)] and is replaced by that
    program; without it the call is [execvpe(argv[0], ...)] with
    [argv[0] == NULL]. *)
Lemma empty_args_reaches_exec :
  let with_path :=
      JObject [("process", JObject [("args", JArray []); ("path", JString "/bin/true")])] in
  let without_path := JObject [("process", JObject [("args", JArray [])])] in
  (fst (exec_container_process with_path (-1) (init_world [ans 0] [] false)) = Execd /\
   history (snd (exec_container_process with_path (-1) (init_world [ans 0] [] false)))
   = [EvExecvpe (Some "/bin/true") [] None 0]) /\
  (fst (exec_container_process without_path (-1) (init_world [ans_err 14] [] false))
   = Undef /\
   history (snd (exec_container_process without_path (-1)
                                        (init_world [ans_err 14] [] false)))
   = [EvExecvpe None [] None (-1)]).
Proof. cbv zeta. repeat split; vm_compute; reflexivity. Qed.

(** ** Capabilities *)

(** What the loop of [set_capabilities] does, in full: it goes through
    the names [done] with a successful [capng_update] for each, and
    then either is through the array, or stops at an element that is
    not a string, or stops at a [capng_update] that failed. *)
Lemma set_capabilities_loop_spec (P : platform) (values : list json) :
  forall (i : Z) (w : world),
  exists (done : list string) (o : option Z) (w' : world) (last : list event),
    set_capabilities_loop P i values w = (Ret o, w') /\
    w_trace w' = last ++ rev (map (fun n => cap_update P n 0) done) ++ w_trace w /\
    w_tape w' = skipn (List.length done + List.length last) (w_tape w) /\
    w_verbose w' = w_verbose w /\
    (forall l, In l (w_stderr w) -> In l (w_stderr w')) /\
    (forall n, In n done -> _capng_name_to_capability P n < 0 ->
               w_verbose w = true -> In (unknown_warning n) (w_stderr w')) /\
    ((o = None /\ last = [] /\ map json_string_value values = map Some done) \/
     (o = Some 1 /\ last = [] /\
      exists rest, map json_string_value values = map Some done ++ None :: rest) \/
     (o = Some 1 /\
      exists name r rest,
        last = [cap_update P name r] /\ r <> 0 /\
        (_capng_name_to_capability P name < 0 -> w_verbose w = true ->
         In (unknown_warning name) (w_stderr w')) /\
        map json_string_value values = map Some done ++ Some name :: rest)).
Proof.
  induction values as [|value values IH]; intros i w.
  - exists [], None, w, []. cbn. repeat split; auto; try tauto.
  - destruct (json_string_value value) as [name|] eqn:Hv.
    + set (w1 := say (Log "restore %s capability to scratch space\n" [LStr (Some name)])
                     (if _capng_name_to_capability P name <? 0
                      then say (unknown_warning name) w else w)).
      assert (Hw1 : w_trace w1 = w_trace w /\ w_tape w1 = w_tape w /\
                    w_verbose w1 = w_verbose w /\
                    (forall l, In l (w_stderr w) -> In l (w_stderr w1)) /\
                    (_capng_name_to_capability P name < 0 -> w_verbose w = true ->
                     In (unknown_warning name) (w_stderr w1))).
      { unfold w1. destruct (_ <? 0) eqn:E; cbn; repeat split; auto.
        - intros l Hl. destruct (w_verbose w); cbn; auto.
        - intros _ ->. cbn. auto.
        - intros l Hl. destruct (w_verbose w); cbn; auto.
        - lia. }
      destruct Hw1 as (Htr1 & Htp1 & Hvb1 & Hse1 & Hun1).
      set (r := a_ret (next w1)).
      set (w2 := called (cap_update P name r) w1).
      assert (Hstep :
                set_capabilities_loop P i (value :: values) w
                = if negb (r =? 0)
                  then (Ret (Some 1),
                        say (Log "failed to restore the %s capability\n"
                                 [LStr (Some name)]) w2)
                  else set_capabilities_loop P (i + 1) values w2).
      { cbn [set_capabilities_loop]. rewrite Hv. cbv zeta.
        unfold bind, capng_update, sys, LOG, ret.
        unfold r, w2, cap_update, w1, unknown_warning.
        destruct (_capng_name_to_capability P name <? 0) eqn:E;
          match goal with |- context [negb (a_ret (next ?x) =? 0)] =>
                          destruct (negb (a_ret (next x) =? 0)) end; reflexivity. }
      rewrite Hstep. clear Hstep.
      destruct (negb (r =? 0)) eqn:Er.
      * exists [], (Some 1), (say (Log "failed to restore the %s capability\n"
                                       [LStr (Some name)]) w2), [cap_update P name r].
        split; [reflexivity|].
        split; [unfold w2; cbn [say called w_trace map rev app]; now rewrite Htr1|].
        split; [unfold w2; cbn [say called w_tape List.length Nat.add]; rewrite Htp1;
                now destruct (w_tape w)|].
        split; [exact Hvb1|].
        split; [intros l Hl; apply Hse1 in Hl; unfold w2; cbn [say called w_stderr w_verbose];
                destruct (w_verbose w1); cbn; auto|].
        split; [intros n []|].
        right. right. split; [reflexivity|].
        exists name, r, (map json_string_value values).
        split; [reflexivity|].
        split; [now apply negb_true_iff, Z.eqb_neq in Er|].
        split; [|cbn [map app]; now rewrite Hv].
        intros Hu Hvb. specialize (Hun1 Hu Hvb).
        unfold w2. cbn [say called w_stderr w_verbose].
        destruct (w_verbose w1); cbn; auto.
      * apply negb_false_iff, Z.eqb_eq in Er.
        destruct (IH (i + 1) w2) as (done & o & w' & last & Hrun & Htr & Htp & Hvb & Hse & Hun & Hcase).
        exists (name :: done), o, w', last. rewrite Hrun.
        assert (Hvb2 : w_verbose w2 = w_verbose w) by exact Hvb1.
        split; [reflexivity|].
        split; [rewrite Htr; cbn [map rev]; rewrite <- app_assoc; unfold w2;
                cbn [app called w_trace]; now rewrite Htr1, Er|].
        split; [rewrite Htp; unfold w2; cbn [called w_tape List.length Nat.add];
                rewrite Htp1; destruct (w_tape w); [now rewrite !skipn_nil|reflexivity]|].
        split; [congruence|].
        split; [intros l Hl; apply Hse; unfold w2; cbn [called w_stderr]; auto|].
        split.
        { intros n [<-|Hn] Hu Hb.
          - apply Hse. unfold w2. cbn [called w_stderr]. auto.
          - apply Hun; auto. congruence. }
        rewrite Hvb2 in Hcase.
        destruct Hcase as [(-> & -> & Hm)|[(-> & -> & rest & Hm)|(-> & name' & r' & rest & -> & Hr & Hw & Hm)]].
        -- left. cbn [map]. rewrite Hm, Hv. auto.
        -- right. left. repeat split; auto. exists rest. cbn [map app]. now rewrite Hm, Hv.
        -- right. right. split; auto. exists name', r', rest. cbn [map app].
           rewrite Hm, Hv. auto.
    + exists [], (Some 1), (say (Log "failed to extract process.capabilities[%d]\n" [LInt i]) w), [].
      cbn [set_capabilities_loop]. rewrite Hv.
      split; [reflexivity|]. split; [reflexivity|]. split; [reflexivity|].
      split; [reflexivity|].
      split; [intros l Hl; cbn; destruct (w_verbose w); cbn; auto|].
      split; [intros n []|].
      right. left. repeat split; auto. exists (map json_string_value values).
      cbn [map app]. now rewrite Hv.
Qed.

Lemma calls_since_new (w w' : world) (new : list event) :
  w_trace w' = new ++ w_trace w -> calls_since w w' = rev new.
Proof.
  intros H. unfold calls_since, history. rewrite H, rev_app_distr.
  rewrite skipn_app, skipn_all, Nat.sub_diag. reflexivity.
Qed.

(** What [set_capabilities] does when [process.capabilities] is there. *)
Lemma set_capabilities_spec (P : platform) (config process caps : json) (w : world) :
  json_object_get config "process" = Some process ->
  json_object_get process "capabilities" = Some caps ->
  exists (done : list string) (ret : Z) (w' : world) (last : list event),
    set_capabilities P config w = (Ret ret, w') /\
    calls_since w w'
    = EvCapngClear CAPNG_SELECT_BOTH :: map (fun n => cap_update P n 0) done ++ last /\
    w_verbose w' = w_verbose w /\
    (forall n, In n done -> _capng_name_to_capability P n < 0 ->
               w_verbose w = true -> In (unknown_warning n) (w_stderr w')) /\
    ((ret = 0 /\ last = [EvCapngApply CAPNG_SELECT_BOTH 0] /\
      map json_string_value (json_array_elements caps) = map Some done) \/
     (ret = 1 /\ (exists a, a <> 0 /\ last = [EvCapngApply CAPNG_SELECT_BOTH a]) /\
      map json_string_value (json_array_elements caps) = map Some done) \/
     (ret = 1 /\ last = [] /\
      exists rest, map json_string_value (json_array_elements caps)
                   = map Some done ++ None :: rest) \/
     (ret = 1 /\
      exists name r rest,
        last = [cap_update P name r] /\ r <> 0 /\
        (_capng_name_to_capability P name < 0 -> w_verbose w = true ->
         In (unknown_warning name) (w_stderr w')) /\
        map json_string_value (json_array_elements caps)
        = map Some done ++ Some name :: rest)).
Proof.
  intros Hp Hc. unfold set_capabilities. rewrite Hp, Hc.
  set (w0 := say (Log "remove all capabilities from the scratch space\n" []) w).
  set (w1 := mkWorld (w_tape w0) (w_heap w0) (EvCapngClear CAPNG_SELECT_BOTH :: w_trace w0)
                     (w_verbose w0) (w_stderr w0)).
  destruct (set_capabilities_loop_spec P (json_array_elements caps) 0 w1)
    as (done & o & w2 & last & Hrun & Htr & Htp & Hvb & Hse & Hun & Hcase).
  assert (Hstart :
            forall k : option Z -> M Z,
              bind (LOG "remove all capabilities from the scratch space\n" [])
                           (fun _ => bind (capng_clear CAPNG_SELECT_BOTH)
                                          (fun _ => bind (set_capabilities_loop P 0 (json_array_elements caps)) k)) w
                      = k o w2).
  { intros k. unfold bind at 1, LOG. fold w0. unfold bind at 1, capng_clear, sys_void.
    fold w1. unfold bind at 1. now rewrite Hrun. }
  rewrite Hstart. clear Hstart.
  assert (Htr' : w_trace w2 = (last ++ rev (map (fun n => cap_update P n 0) done)
                               ++ [EvCapngClear CAPNG_SELECT_BOTH]) ++ w_trace w).
  { rewrite Htr. unfold w1, w0. cbn [w_trace say]. now rewrite <- !app_assoc. }
  assert (Hvb' : w_verbose w2 = w_verbose w) by (rewrite Hvb; reflexivity).
  assert (Hlog : forall n, In n done -> _capng_name_to_capability P n < 0 ->
                           w_verbose w = true -> In (unknown_warning n) (w_stderr w2))
    by (intros n Hn Hu Hb; apply Hun; auto).
  destruct Hcase as [(-> & -> & Hm)|[(-> & -> & rest & Hm)|(-> & name & r & rest & -> & Hr & Hw & Hm)]].
  - (* through the array: capng_apply *)
    set (w3 := say (Log "apply specified capabilities to bounding and traditional sets\n" []) w2).
    set (a := a_ret (next w3)).
    set (w4 := called (EvCapngApply CAPNG_SELECT_BOTH a) w3).
    assert (Ha : w_trace w4 = (EvCapngApply CAPNG_SELECT_BOTH a
                               :: rev (map (fun n => cap_update P n 0) done)
                               ++ [EvCapngClear CAPNG_SELECT_BOTH]) ++ w_trace w).
    { unfold w4, w3. cbn [called say w_trace]. rewrite Htr'. reflexivity. }
    destruct (negb (a =? 0)) eqn:Ea.
    + exists done, 1, (say (Log "failed to apply capabilities\n" []) w4),
             [EvCapngApply CAPNG_SELECT_BOTH a].
      split.
      { unfold bind, LOG, capng_apply, sys, ret. fold w3. fold a. rewrite Ea. reflexivity. }
      split.
      { rewrite (calls_since_new w (say (Log "failed to apply capabilities\n" []) w4) _ Ha).
        cbn [rev]. rewrite rev_app_distr, rev_involutive. reflexivity. }
      split; [exact Hvb'|].
      split.
      { intros n Hn Hu Hb. specialize (Hlog n Hn Hu Hb). unfold w4, w3.
        cbn [say called w_stderr w_verbose]. destruct (w_verbose w2); cbn; auto. }
      right. left. split; [reflexivity|]. split; [|exact Hm].
      exists a. split; [|reflexivity]. now apply negb_true_iff, Z.eqb_neq in Ea.
    + exists done, 0, w4, [EvCapngApply CAPNG_SELECT_BOTH 0].
      split.
      { unfold bind, LOG, capng_apply, sys, ret. fold w3. fold a. rewrite Ea. reflexivity. }
      apply negb_false_iff, Z.eqb_eq in Ea.
      split.
      { rewrite (calls_since_new w _ _ Ha). cbn [rev]. rewrite rev_app_distr, rev_involutive.
        rewrite Ea. reflexivity. }
      split; [exact Hvb'|].
      split.
      { intros n Hn Hu Hb. specialize (Hlog n Hn Hu Hb). unfold w4, w3.
        cbn [say called w_stderr w_verbose]. destruct (w_verbose w2); cbn; auto. }
      left. auto.
  - exists done, 1, w2, []. split; [reflexivity|].
    split.
    { rewrite (calls_since_new w _ _ Htr'). cbn [app]. rewrite rev_app_distr, rev_involutive.
      now rewrite app_nil_r. }
    split; [exact Hvb'|]. split; [exact Hlog|].
    right. right. left. split; [reflexivity|]. split; [reflexivity|]. now exists rest.
  - exists done, 1, w2, [cap_update P name r]. split; [reflexivity|].
    split.
    { rewrite (calls_since_new w _ _ Htr'). cbn [app rev]. rewrite rev_app_distr, rev_involutive.
      reflexivity. }
    split; [exact Hvb'|]. split; [exact Hlog|].
    right. right. right. split; [reflexivity|]. exists name, r, rest.
    split; [reflexivity|]. split; [exact Hr|]. split; [|exact Hm].
    intros Hu Hb. apply Hw; auto.
Qed.

Lemma substring_whole (s : string) : String.substring 0 (String.length s) s = s.
Proof. induction s as [|c s IH]; cbn; congruence. Qed.

(** For a name [CAP_r] the wrapper asks libcap-ng for [r]. *)
Lemma _capng_name_to_capability_prefixed (P : platform) (rest : string) :
  _capng_name_to_capability P ("CAP_" ++ rest) = capng_name_to_capability P rest.
Proof.
  unfold _capng_name_to_capability, strlen, skip4.
  cbn [append String.length Nat.sub String.substring].
  rewrite Nat.sub_0_r, substring_whole.
  destruct (_ <? 4) eqn:E; [apply Z.ltb_lt in E; lia|reflexivity].
Qed.

Lemma cap_update_known (P : platform) (rest : string) (r : Z) :
  known P rest ->
  cap_update P ("CAP_" ++ rest) r
  = adds_to_all_sets (capng_name_to_capability P rest) r.
Proof.
  intros H. unfold cap_update, adds_to_all_sets.
  rewrite _capng_name_to_capability_prefixed. unfold to_uint32.
  rewrite Z.mod_small by exact H. reflexivity.
Qed.

Lemma cap_update_unknown (P : platform) (rest : string) (r : Z) :
  capng_name_to_capability P rest = -1 ->
  cap_update P ("CAP_" ++ rest) r = adds_to_all_sets 4294967295 r.
Proof.
  intros H. unfold cap_update, adds_to_all_sets.
  rewrite _capng_name_to_capability_prefixed, H. reflexivity.
Qed.

Lemma map_cap_update_known (P : platform) (rests : list string) :
  Forall (known P) rests ->
  map (fun n => cap_update P n 0) (map (fun r => ("CAP_" ++ r)%string) rests)
  = map (fun c => adds_to_all_sets c 0) (named P rests).
Proof.
  induction 1 as [|r rests Hr _ IH]; [reflexivity|].
  cbn [map named]. rewrite cap_update_known by exact Hr. f_equal. exact IH.
Qed.

(** One turn of the loop of [set_capabilities] for a string. *)
Lemma set_capabilities_loop_step (P : platform) (i : Z) (value : json)
      (values : list json) (name : string) (w : world) :
  json_string_value value = Some name ->
  let w1 := say (Log "restore %s capability to scratch space\n" [LStr (Some name)])
                (if _capng_name_to_capability P name <? 0
                 then say (unknown_warning name) w else w) in
  let r := a_ret (next w) in
  let w2 := called (cap_update P name r) w1 in
  set_capabilities_loop P i (value :: values) w
  = if negb (r =? 0)
    then (Ret (Some 1),
          say (Log "failed to restore the %s capability\n" [LStr (Some name)]) w2)
    else set_capabilities_loop P (i + 1) values w2.
Proof.
  intros Hv. cbn [set_capabilities_loop]. rewrite Hv. cbv zeta.
  unfold bind, capng_update, sys, LOG, ret, cap_update, unknown_warning.
  destruct (_capng_name_to_capability P name <? 0) eqn:E;
    match goal with |- context [negb (a_ret (next ?x) =? 0)] =>
                    change (next x) with (next w);
                    destruct (negb (a_ret (next w) =? 0)) end; reflexivity.
Qed.

Lemma nth_tl {A} (l : list A) (k : nat) (d : A) : nth k (tl l) d = nth (S k) l d.
Proof. destruct l; [now destruct k|reflexivity]. Qed.

(** While [capng_update] returns 0 the loop goes from name to name. *)
Lemma set_capabilities_loop_passes (P : platform) (values : list json) :
  forall (names : list string) (rest : list json) (i : Z) (w : world),
    map json_string_value values = map Some names ->
    (forall k, (k < List.length names)%nat -> a_ret (answer_at w k) = 0) ->
    exists w1,
      set_capabilities_loop P i (values ++ rest) w
      = set_capabilities_loop P (i + Z.of_nat (List.length names)) rest w1 /\
      w_trace w1 = rev (map (fun n => cap_update P n 0) names) ++ w_trace w /\
      w_tape w1 = skipn (List.length names) (w_tape w) /\
      w_verbose w1 = w_verbose w /\
      (forall l, In l (w_stderr w) -> In l (w_stderr w1)).
Proof.
  induction values as [|value values IH]; intros names rest i w Hm Hans.
  - destruct names; [|discriminate]. exists w. cbn. rewrite Z.add_0_r. auto.
  - destruct names as [|name names]; [discriminate|]. cbn [map] in Hm.
    injection Hm as Hv Hm. cbn [app].
    rewrite (set_capabilities_loop_step P i value (values ++ rest) name w Hv). cbv zeta.
    assert (H0 : a_ret (next w) = 0).
    { specialize (Hans 0%nat). unfold answer_at in Hans. unfold next.
      destruct (w_tape w); apply Hans; cbn; lia. }
    rewrite H0. cbn [Z.eqb negb].
    match goal with |- context [set_capabilities_loop P (i + 1) _ ?x] => set (w2 := x) end.
    destruct (IH names rest (i + 1) w2 Hm) as (w1 & Hrun & Htr & Htp & Hvb & Hse).
    { intros k Hk. unfold answer_at, w2. cbn [called say w_tape].
      replace (w_tape (if _capng_name_to_capability P name <? 0
                       then say (unknown_warning name) w else w))
        with (w_tape w) by (now destruct (_ <? 0)).
      rewrite nth_tl. apply Hans. cbn. lia. }
    exists w1. rewrite Hrun.
    assert (Hw2 : w_trace w2 = cap_update P name 0 :: w_trace w /\
                  w_tape w2 = tl (w_tape w) /\ w_verbose w2 = w_verbose w /\
                  (forall l, In l (w_stderr w) -> In l (w_stderr w2))).
    { unfold w2. destruct (_ <? 0); cbn [called say w_trace w_tape w_verbose w_stderr];
        repeat split; auto; intros l Hl; destruct (w_verbose w); cbn; auto. }
    destruct Hw2 as (Htr2 & Htp2 & Hvb2 & Hse2).
    split; [f_equal; cbn [List.length]; lia|].
    split; [rewrite Htr, Htr2; cbn [map rev]; now rewrite <- app_assoc|].
    split; [rewrite Htp, Htp2; cbn [List.length]; now destruct (w_tape w);
            [rewrite skipn_nil|]|].
    split; [congruence|auto].
Qed.

Lemma capng_run_adds (caps : list Z) :
  forall st,
    capng_run st (map (fun c => adds_to_all_sets c 0) caps)
    = mkCapng (mkCapsets (rev caps ++ effective (scratch st))
                         (rev caps ++ permitted (scratch st))
                         (rev caps ++ inheritable (scratch st))
                         (rev caps ++ bounding (scratch st)))
              (applied st).
Proof.
  induction caps as [|c caps IH]; intros [[e p i b] a]; [reflexivity|].
  cbn [map capng_run fold_left].
  fold (capng_run (capng_call (mkCapng (mkCapsets e p i b) a) (adds_to_all_sets c 0))
                  (map (fun c => adds_to_all_sets c 0) caps)).
  rewrite IH. cbn [map rev]. rewrite <- !app_assoc. reflexivity.
Qed.

Lemma existsb_eqb_In (c : Z) (l : list Z) : existsb (Z.eqb c) l = true <-> In c l.
Proof.
  rewrite existsb_exists. split.
  - intros (x & Hx & E). apply Z.eqb_eq in E. now subst.
  - intros H. exists c. split; [exact H|apply Z.eqb_refl].
Qed.

Lemma hd_skipn {A} (d : A) (n : nat) : forall l, hd d (skipn n l) = nth n l d.
Proof. induction n as [|n IH]; intros [|x l]; cbn; auto. Qed.

Lemma map_Some_inj {A} (l1 l2 : list A) : map Some l1 = map Some l2 -> l1 = l2.
Proof.
  revert l2. induction l1 as [|x l1 IH]; intros [|y l2] H; try discriminate; [reflexivity|].
  cbn in H. injection H as -> H. f_equal. now apply IH.
Qed.

(** When every libcap-ng call returns 0, [set_capabilities] returns 0. *)
Lemma set_capabilities_succeeds (P : platform) (config process caps : json)
      (names : list string) (w : world) :
  json_object_get config "process" = Some process ->
  json_object_get process "capabilities" = Some caps ->
  map json_string_value (json_array_elements caps) = map Some names ->
  (forall k, (k <= List.length names)%nat -> a_ret (answer_at w k) = 0) ->
  fst (set_capabilities P config w) = Ret 0.
Proof.
  intros Hp Hc Hm Hans. unfold set_capabilities. rewrite Hp, Hc.
  unfold bind at 1, LOG. unfold bind at 1, capng_clear, sys_void.
  match goal with |- context [bind (set_capabilities_loop P 0 _) _ ?x] => set (w0 := x) end.
  destruct (set_capabilities_loop_passes P (json_array_elements caps) names [] 0 w0 Hm)
    as (w1 & Hrun & _ & Htp & _).
  { intros k Hk. unfold answer_at, w0. cbn [w_tape say]. apply Hans. lia. }
  rewrite app_nil_r in Hrun. unfold bind at 1. rewrite Hrun.
  cbn [set_capabilities_loop]. unfold ret at 1.
  unfold bind, LOG, capng_apply, sys, ret.
  replace (a_ret (next (say (Log "apply specified capabilities to bounding and traditional sets\n" []) w1))) with 0; [reflexivity|].
  unfold next, say. cbn [w_tape]. rewrite Htp. unfold w0. cbn [w_tape say].
  rewrite hd_skipn. symmetry. apply (Hans (List.length names)). lia.
Qed.

(** C5.  When [process.capabilities] is there, the first libcap-ng call
    of [set_capabilities] is [capng_clear(CAPNG_SELECT_BOTH)], before
    any capability is added.  For names [CAP_r] that libcap-ng knows:
    when every libcap-ng call returns 0, [set_capabilities] returns 0;
    and when it returns 0 its libcap-ng calls are exactly that clear,
    one successful [capng_update(CAPNG_ADD, EFFECTIVE | PERMITTED |
    INHERITABLE | BOUNDING_SET, cap)] per name of the array, in order,
    with [cap] the number libcap-ng has for [r], and a successful
    [capng_apply(CAPNG_SELECT_BOTH)].  Whatever the sets held before,
    the applied effective, permitted and inheritable sets then hold
    exactly the named capabilities, and the bounding set holds exactly
    those of the named capabilities it held before (all of them, for a
    process whose bounding set held them). *)
Theorem set_capabilities_applies_named (P : platform) (config process caps : json)
        (w : world) :
  json_object_get config "process" = Some process ->
  json_object_get process "capabilities" = Some caps ->
  let run := set_capabilities P config w in
  let calls := calls_since w (snd run) in
  (exists rest, calls = EvCapngClear CAPNG_SELECT_BOTH :: rest) /\
  (forall rests : list string,
      map json_string_value (json_array_elements caps)
      = map (fun r => Some ("CAP_" ++ r)%string) rests ->
      Forall (known P) rests ->
      ((forall k, (k <= List.length rests)%nat -> a_ret (answer_at w k) = 0) ->
       fst run = Ret 0) /\
      (fst run = Ret 0 ->
       calls
       = EvCapngClear CAPNG_SELECT_BOTH
         :: map (fun c => adds_to_all_sets c 0) (named P rests)
         ++ [EvCapngApply CAPNG_SELECT_BOTH 0] /\
       forall (st : capng_state) (c : Z),
         let sets := applied (capng_run st calls) in
         (In c (effective sets) <-> In c (named P rests)) /\
         (In c (permitted sets) <-> In c (named P rests)) /\
         (In c (inheritable sets) <-> In c (named P rests)) /\
         (In c (bounding sets)
          <-> In c (named P rests) /\ In c (bounding (applied st))))).
Proof.
  intros Hp Hc run calls. subst calls run.
  destruct (set_capabilities_spec P config process caps w Hp Hc)
    as (done & ret & w' & last & Hrun & Hcalls & _ & _ & Hcase).
  split; [rewrite Hrun; cbn [snd]; eauto|].
  intros rests Hnames Hknown.
  assert (Hnames' : map json_string_value (json_array_elements caps)
                    = map Some (map (fun r => ("CAP_" ++ r)%string) rests))
    by (now rewrite map_map).
  split.
  { intros Hans.
    apply (set_capabilities_succeeds P config process caps _ w Hp Hc Hnames').
    now rewrite length_map. }
  rewrite Hrun. cbn [fst snd]. intros Hret. inversion Hret; subst ret.
  destruct Hcase as [(_ & -> & Hm)|[(H & _)|[(H & _)|(H & _)]]]; try discriminate.
  rewrite Hnames' in Hm. apply map_Some_inj in Hm. subst done.
  rewrite map_cap_update_known in Hcalls by exact Hknown.
  split; [exact Hcalls|].
  intros st c. rewrite Hcalls. cbv zeta.
  unfold capng_run. cbn [fold_left]. rewrite fold_left_app.
  fold (capng_run (capng_call st (EvCapngClear CAPNG_SELECT_BOTH))
                  (map (fun c => adds_to_all_sets c 0) (named P rests))).
  rewrite capng_run_adds. cbn. rewrite !app_nil_r.
  split; [symmetry; apply in_rev|]. split; [symmetry; apply in_rev|].
  split; [symmetry; apply in_rev|].
  rewrite filter_In, existsb_eqb_In, <- in_rev. tauto.
Qed.

Lemma set_capabilities_applies_named_witness :
  let w := init_world [ans 0; ans 0; ans 0] [] false in
  let run := set_capabilities linux_platform
                              (caps_config ["CAP_CHOWN"; "CAP_NET_BIND_SERVICE"]) w in
  fst run = Ret 0 /\
  calls_since w (snd run)
  = [EvCapngClear 48; EvCapngUpdate 1 15 0 0; EvCapngUpdate 1 15 10 0;
     EvCapngApply 48 0].
Proof.
  assert (K : Forall (known linux_platform) ["CHOWN"; "NET_BIND_SERVICE"])
    by (repeat constructor; vm_compute; discriminate).
  pose (T := proj2 (set_capabilities_applies_named
                      linux_platform (caps_config ["CAP_CHOWN"; "CAP_NET_BIND_SERVICE"])
                      (JObject [("args", JArray [JString "/bin/sh"]);
                                ("capabilities",
                                 JArray (map JString ["CAP_CHOWN"; "CAP_NET_BIND_SERVICE"]))])
                      (JArray (map JString ["CAP_CHOWN"; "CAP_NET_BIND_SERVICE"]))
                      (init_world [ans 0; ans 0; ans 0] [] false)
                      eq_refl eq_refl)
                   ["CHOWN"; "NET_BIND_SERVICE"] eq_refl K).
  cbv zeta. split.
  - apply (proj1 T). intros [|[|[|k]]] Hk; try reflexivity. cbn in Hk. lia.
  - exact (proj1 (proj2 T eq_refl)).
Defined.

(** The sets of a process after the calls of that run: a process that
    held every capability keeps the two named ones in all four sets;
    a process whose bounding set held [chown] and [kill] keeps [chown]
    in it. *)
Example applied_sets_after_set_capabilities :
  let calls := [EvCapngClear 48; EvCapngUpdate 1 15 0 0; EvCapngUpdate 1 15 10 0;
                EvCapngApply 48 0] in
  applied (capng_run (mkCapng full_sets full_sets) calls)
  = mkCapsets [10; 0] [10; 0] [10; 0] [0; 10] /\
  applied (capng_run (mkCapng full_sets (mkCapsets [0; 10] [0; 10] [] [0; 5])) calls)
  = mkCapsets [10; 0] [10; 0] [10; 0] [0].
Proof. split; reflexivity. Qed.

(** What is left of [set_capabilities] from its loop on: it returns 0
    or 1, and forgets no call and no line of stderr. *)
Lemma set_capabilities_rest (P : platform) (values : list json) (i : Z) (w : world) :
  exists (e : Z) (w' : world) (new : list event),
    (r <- set_capabilities_loop P i values ;;
     match r with
     | Some e1 => ret e1
     | None =>
       LOG "apply specified capabilities to bounding and traditional sets\n" [] ;;;
       a <- capng_apply CAPNG_SELECT_BOTH ;;
       if negb (a =? 0) then LOG "failed to apply capabilities\n" [] ;;; ret 1
       else ret 0
     end) w = (Ret e, w') /\
    (e = 0 \/ e = 1) /\
    w_trace w' = new ++ w_trace w /\
    (forall l, In l (w_stderr w) -> In l (w_stderr w')).
Proof.
  destruct (set_capabilities_loop_spec P values i w)
    as (done & o & w1 & last & Hrun & Htr & _ & Hvb & Hse & _ & Hcase).
  unfold bind at 1. rewrite Hrun.
  assert (Ho : o = None \/ o = Some 1)
    by (destruct Hcase as [(-> & _)|[(-> & _)|(-> & _)]]; auto).
  destruct Ho as [-> | ->].
  - unfold bind, LOG, capng_apply, sys, ret.
    match goal with |- context [negb (?a =? 0)] => destruct (negb (a =? 0)) end.
    + eexists 1, _, (_ :: last ++ rev (map (fun n => cap_update P n 0) done)).
      split; [reflexivity|]. split; [auto|].
      split; [cbn [say called w_trace app]; now rewrite Htr, <- app_assoc|].
      intros l Hl. apply Hse in Hl. cbn [say called w_stderr w_verbose].
      destruct (w_verbose w1); cbn; auto.
    + eexists 0, _, (_ :: last ++ rev (map (fun n => cap_update P n 0) done)).
      split; [reflexivity|]. split; [auto|].
      split; [cbn [say called w_trace app]; now rewrite Htr, <- app_assoc|].
      intros l Hl. apply Hse in Hl. cbn [say called w_stderr w_verbose].
      destruct (w_verbose w1); cbn; auto.
  - exists 1, w1, (last ++ rev (map (fun n => cap_update P n 0) done)).
    split; [reflexivity|]. split; [auto|].
    split; [now rewrite Htr, <- app_assoc|exact Hse].
Qed.

(** C6, as the code has it.  Let the configuration name, after names
    whose [capng_update] returned 0, a name [CAP_bogus] for which the
    lookup of libcap-ng fails (it returns -1).  Then in every run the
    warning is logged and [set_capabilities] goes on past the failed
    lookup: it hands the -1 of the lookup, as the unsigned int
    4294967295, to [capng_update(CAPNG_ADD, all four sets, ...)].
    Whenever that call returns something other than 0, as libcap-ng
    does for a number that is no capability, it is the last call and
    [set_capabilities] returns 1: the unknown name is fatal. *)
Theorem unknown_capability_name (P : platform) (config process caps : json)
        (before : list json) (value : json) (after : list json)
        (names : list string) (bogus : string) (w : world) :
  json_object_get config "process" = Some process ->
  json_object_get process "capabilities" = Some caps ->
  json_array_elements caps = before ++ value :: after ->
  map json_string_value before = map Some names ->
  json_string_value value = Some ("CAP_" ++ bogus)%string ->
  capng_name_to_capability P bogus = -1 ->
  (forall k, (k < List.length before)%nat -> a_ret (answer_at w k) = 0) ->
  let run := set_capabilities P config w in
  let r := a_ret (answer_at w (List.length before)) in
  (exists earlier later,
      List.length earlier = List.length before /\
      calls_since w (snd run)
      = EvCapngClear CAPNG_SELECT_BOTH
        :: earlier ++ adds_to_all_sets 4294967295 r :: later /\
      (r <> 0 -> later = [])) /\
  (w_verbose w = true ->
   In (Log "unrecognized capability name: %s\n" [LStr (Some ("CAP_" ++ bogus)%string)])
      (w_stderr (snd run))) /\
  (r <> 0 -> fst run = Ret 1) /\
  (fst run = Ret 0 \/ fst run = Ret 1).
Proof.
  intros Hp Hc He Hm Hv Hu Hans run r.
  assert (Hlen : List.length names = List.length before).
  { apply (f_equal (@List.length _)) in Hm. now rewrite !length_map in Hm. }
  set (w0 := mkWorld (w_tape w) (w_heap w) (EvCapngClear CAPNG_SELECT_BOTH :: w_trace w)
                     (w_verbose w)
                     (w_stderr (say (Log "remove all capabilities from the scratch space\n" []) w))).
  destruct (set_capabilities_loop_passes P before names (value :: after) 0 w0 Hm)
    as (w1 & Hpass & Htr1 & Htp1 & Hvb1 & Hse1).
  { intros k Hk. apply Hans. lia. }
  pose proof (set_capabilities_loop_step P (0 + Z.of_nat (List.length names)) value after
                                         _ w1 Hv) as Hstep.
  cbv zeta in Hstep.
  assert (Hr : a_ret (next w1) = r).
  { unfold r, answer_at, next. rewrite Htp1, hd_skipn, Hlen. reflexivity. }
  rewrite Hr in Hstep.
  rewrite _capng_name_to_capability_prefixed, Hu in Hstep.
  change (-1 <? 0) with true in Hstep. cbv iota in Hstep.
  rewrite (cap_update_unknown P bogus r Hu) in Hstep.
  match type of Hstep with
  | _ = if _ then _ else set_capabilities_loop _ _ _ ?x => set (w2 := x) in *
  end.
  assert (Hw2 : w_trace w2
                = adds_to_all_sets 4294967295 r
                  :: rev (map (fun n => cap_update P n 0) names)
                  ++ EvCapngClear CAPNG_SELECT_BOTH :: w_trace w).
  { unfold w2. cbn [called say w_trace]. rewrite Htr1. reflexivity. }
  assert (Hs2 : w_verbose w = true ->
                In (Log "unrecognized capability name: %s\n"
                        [LStr (Some ("CAP_" ++ bogus)%string)]) (w_stderr w2)).
  { intros Hvb. unfold w2, unknown_warning. cbn [called say w_stderr w_verbose].
    rewrite Hvb1. unfold w0. cbn [w_verbose]. rewrite Hvb. cbn. auto. }
  assert (Hrun : set_capabilities P config w
                 = if negb (r =? 0)
                   then (Ret 1, say (Log "failed to restore the %s capability\n"
                                         [LStr (Some ("CAP_" ++ bogus)%string)]) w2)
                   else (r <- set_capabilities_loop P (0 + Z.of_nat (List.length names) + 1)
                                                    after ;;
                         match r with
                         | Some e => ret e
                         | None =>
                           LOG "apply specified capabilities to bounding and traditional sets\n" [] ;;;
                           a <- capng_apply CAPNG_SELECT_BOTH ;;
                           if negb (a =? 0) then LOG "failed to apply capabilities\n" [] ;;; ret 1
                           else ret 0
                         end) w2).
  { unfold set_capabilities. rewrite Hp, Hc, He.
    unfold bind at 1, LOG. unfold bind at 1, capng_clear, sys_void.
    change (mkWorld _ _ _ _ _) with w0.
    unfold bind at 1. rewrite Hpass, Hstep.
    destruct (negb (r =? 0)); reflexivity. }
  subst run. rewrite Hrun.
  assert (Hcalls : forall w' new,
             w_trace w' = new ++ w_trace w2 ->
             calls_since w w'
             = EvCapngClear CAPNG_SELECT_BOTH
               :: map (fun n => cap_update P n 0) names
               ++ adds_to_all_sets 4294967295 r :: rev new).
  { intros w' new Hn.
    rewrite (calls_since_new w w' (new ++ adds_to_all_sets 4294967295 r
                                       :: rev (map (fun n => cap_update P n 0) names)
                                       ++ [EvCapngClear CAPNG_SELECT_BOTH])).
    - rewrite rev_app_distr. cbn [rev]. rewrite rev_app_distr, rev_involutive.
      cbn [rev app]. rewrite <- !app_assoc. reflexivity.
    - rewrite Hn, Hw2, <- !app_assoc. cbn [app]. rewrite <- !app_assoc. reflexivity. }
  destruct (negb (r =? 0)) eqn:Er.
  - cbn [fst snd]. split; [|split; [|split]]; auto.
    + exists (map (fun n => cap_update P n 0) names), [].
      split; [now rewrite length_map|]. split; [|reflexivity].
      apply (Hcalls _ []). reflexivity.
    + intros Hvb. specialize (Hs2 Hvb). cbn [say w_stderr]. destruct (w_verbose w2); cbn; auto.
  - apply negb_false_iff, Z.eqb_eq in Er.
    destruct (set_capabilities_rest P after (0 + Z.of_nat (List.length names) + 1) w2)
      as (e & w' & new & Hrest & Hret & Hn & Hse).
    rewrite Hrest. cbn [fst snd]. split; [|split; [|split]].
    + exists (map (fun n => cap_update P n 0) names), (rev new).
      split; [now rewrite length_map|]. split; [now apply Hcalls|]. congruence.
    + intros Hvb. apply Hse. now apply Hs2.
    + congruence.
    + destruct Hret as [-> | ->]; auto.
Qed.

Lemma unknown_capability_name_witness :
  let w := init_world [ans 0; ans_err 22] [] true in
  let run := set_capabilities linux_platform (caps_config ["CAP_CHOWN"; "CAP_BOGUS"]) w in
  fst run = Ret 1 /\
  In (Log "unrecognized capability name: %s\n" [LStr (Some "CAP_BOGUS")])
     (w_stderr (snd run)) /\
  calls_since w (snd run)
  = [EvCapngClear 48; EvCapngUpdate 1 15 0 0; EvCapngUpdate 1 15 4294967295 (-1)].
Proof.
  pose (T := unknown_capability_name
               linux_platform (caps_config ["CAP_CHOWN"; "CAP_BOGUS"])
               (JObject [("args", JArray [JString "/bin/sh"]);
                         ("capabilities",
                          JArray (map JString ["CAP_CHOWN"; "CAP_BOGUS"]))])
               (JArray (map JString ["CAP_CHOWN"; "CAP_BOGUS"]))
               [JString "CAP_CHOWN"] (JString "CAP_BOGUS") [] ["CAP_CHOWN"] "BOGUS"
               (init_world [ans 0; ans_err 22] [] true)
               eq_refl eq_refl eq_refl eq_refl eq_refl eq_refl).
  cbv zeta. split; [|split].
  - apply (proj1 (proj2 (proj2 (T ltac:(intros [|k] Hk; [reflexivity|cbn in Hk; lia]))))).
    discriminate.
  - apply (proj1 (proj2 (T ltac:(intros [|k] Hk; [reflexivity|cbn in Hk; lia])))).
    reflexivity.
  - reflexivity.
Defined.

(** C6 as stated fails: "CAP_BOGUS" is unknown to the lookup, the
    warning is logged, [capng_update] is called with 4294967295 and
    returns -1, as libcap-ng does for a number that is no capability,
    and [set_capabilities] returns 1. *)
Lemma unknown_capability_is_fatal :
  let w := init_world [ans_err 22] [] true in
  let run := set_capabilities linux_platform (caps_config ["CAP_BOGUS"]) w in
  fst run = Ret 1 /\
  calls_since w (snd run) = [EvCapngClear 48; EvCapngUpdate 1 15 4294967295 (-1)] /\
  w_stderr (snd run)
  = [Log "failed to restore the %s capability\n" [LStr (Some "CAP_BOGUS")];
     Log "restore %s capability to scratch space\n" [LStr (Some "CAP_BOGUS")];
     Log "unrecognized capability name: %s\n" [LStr (Some "CAP_BOGUS")];
     Log "remove all capabilities from the scratch space\n" []].
Proof. cbv zeta. split; [|split]; vm_compute; auto. Qed.

(** ** Mounts *)




(** ** Runs whose calls all belong to one class *)

Lemma only_app (Q : event -> Prop) (old t : list event) :
  only Q old t <-> exists new, t = new ++ old /\ Forall Q new.
Proof.
  split.
  - induction 1 as [|e t He Ht (new & -> & Hnew)].
    + now exists [].
    + exists (e :: new). split; [reflexivity|now constructor].
  - intros (new & -> & Hnew). induction Hnew; cbn; now constructor.
Qed.

Lemma only_trans (Q : event -> Prop) (t1 t2 t3 : list event) :
  only Q t1 t2 -> only Q t2 t3 -> only Q t1 t3.
Proof. intros H12 H23. induction H23; [exact H12|now constructor]. Qed.

Lemma only_weaken (Q R : event -> Prop) (old t : list event) :
  (forall e, Q e -> R e) -> only Q old t -> only R old t.
Proof. intros H. induction 1; constructor; auto. Qed.















(** [handle_mounts] on the two mounts of [mounts_config]: [mount] and
    the calls of [pivot_root_remove_old] take the strings of the
    configuration. *)
Example handle_mounts_absolute_sources :
  let run := handle_mounts linux_platform mounts_config (init_world mounts_tape [] false) in
  fst run = Ret 0 /\
  history (snd run)
  = [EvGetcwd 1024 (Some "/home");
     EvMount (Some "/proc") (Some "/proc") (Some "proc") 0 None 0;
     EvMkdtemp "/rootfs/pivot-root.XXXXXX" (Some "/rootfs/pivot-root.Ab12Cd");
     EvChdir "/rootfs" 0;
     EvPivotRoot "/rootfs" "/rootfs/pivot-root.Ab12Cd" 0;
     EvChdir "/" 0;
     EvUmount2 "pivot-root.Ab12Cd" 2 0;
     EvRmdir "pivot-root.Ab12Cd" 0].
Proof. vm_compute. split; reflexivity. Qed.

(** ** User-namespace mappings *)

(** The path and the line of the code are the ones that are asked for. *)
Lemma proc_path_proc_file (cpid : Z) (name : string) :
  0 < cpid < 2 ^ 31 -> proc_path cpid name = proc_file cpid name.
Proof.
  intros H. unfold proc_path, proc_file, to_uint64, fmt_d, decimal.
  rewrite Z.mod_small by lia. reflexivity.
Qed.

Lemma string_app_assoc (s1 s2 s3 : string) :
  ((s1 ++ s2) ++ s3 = s1 ++ s2 ++ s3)%string.
Proof. induction s1 as [|c s1 IH]; cbn; congruence. Qed.

Lemma map_line_mapping_text (j : json) (m : id_mapping) (c h s : json) :
  mapping_entry j m ->
  json_object_get j "containerID" = Some c ->
  json_object_get j "hostID" = Some h ->
  json_object_get j "size" = Some s ->
  map_line (to_uint32 (json_integer_value c)) (to_uint32 (json_integer_value h))
           (to_int32 (json_integer_value s))
  = mapping_text m.
Proof.
  intros (Hc & Hh & Hs & Rc & Rh & Rs) Ec Eh Es.
  rewrite Hc in Ec. rewrite Hh in Eh. rewrite Hs in Es.
  inversion Ec. inversion Eh. inversion Es. subst c h s. cbn [json_integer_value].
  unfold to_uint32, to_int32. rewrite !Z.mod_small by lia.
  assert (Hsz : (if size m mod 2 ^ 32 <? 2 ^ 31 then size m mod 2 ^ 32
                 else size m mod 2 ^ 32 - 2 ^ 32) = size m).
  { destruct (Z.ltb_spec (size m) 0).
    - replace (size m mod 2 ^ 32) with (size m + 2 ^ 32).
      + destruct (Z.ltb_spec (size m + 2 ^ 32) (2 ^ 31)); lia.
      + apply Z.mod_unique with (q := -1); lia.
    - rewrite Z.mod_small by lia. destruct (Z.ltb_spec (size m) (2 ^ 31)); lia. }
  rewrite Hsz. unfold map_line, line, mapping_text, fmt_d, decimal, newline.
  rewrite !string_app_assoc. reflexivity.
Qed.

(** What the loop of [set_user_map] does, in every run: it writes the
    lines of the first [k] entries, one [dprintf] each, and stops at
    the first [dprintf] that fails. *)
Lemma set_user_map_loop_spec (key path : string) (fd : Z) (mappings : list json)
      (ms : list id_mapping) :
  Forall2 mapping_entry mappings ms ->
  forall (i : Z) (w : world),
  exists (e : Z) (k : nat) (new : list event) (w' : world),
    set_user_map_loop key path fd i mappings w = (Ret e, w') /\
    w_trace w' = rev new ++ w_trace w /\
    (e = 0 \/ e = 1) /\
    (e = 0 -> k = List.length ms) /\
    existsb gives_up new = negb (e =? 0) /\
    forall table rest,
      lookup_fd fd table = Some path ->
      file_ops table (new ++ rest)
      = map (fun m => Wrote path (mapping_text m)) (firstn k ms) ++ file_ops table rest.
Proof.
  induction 1 as [|j m mappings ms Hjm _ IH]; intros i w.
  - exists 0, 0%nat, [], w. cbn. auto 6.
  - cbn [set_user_map_loop].
    pose proof Hjm as (Hc & Hh & Hs & _). rewrite Hc, Hh, Hs. cbv zeta.
    rewrite (map_line_mapping_text j m _ _ _ Hjm Hc Hh Hs).
    unfold bind at 1, LOG. unfold bind at 1, sys_dprintf, sys.
    match goal with
    | |- context [if a_ret (next ?x) <? 0 then _ else _] =>
      set (w1 := x); set (r := a_ret (next w1))
    end.
    destruct (r <? 0) eqn:Er.
    + eexists 1, 0%nat, [EvDprintf fd (mapping_text m) r], _.
      split; [unfold bind, LOG, ret; reflexivity|].
      split; [reflexivity|]. split; [auto|]. split; [discriminate|].
      split; [cbn; now rewrite Er|].
      intros table rest Hfd. cbn [app file_ops firstn map]. now rewrite Er.
    + match goal with
      | |- context [set_user_map_loop key path fd (i + 1) mappings ?x] =>
        destruct (IH (i + 1) x) as (e & k & new & w' & Hrun & Htr & He & Hk & Hg & Hops)
      end.
      exists e, (S k), (EvDprintf fd (mapping_text m) r :: new), w'.
      split; [exact Hrun|].
      split; [rewrite Htr; cbn [called say w_trace rev]; now rewrite <- app_assoc|].
      split; [exact He|]. split; [intros E; cbn [List.length]; now rewrite (Hk E)|].
      split; [cbn [existsb gives_up]; now rewrite Er|].
      intros table rest Hfd. cbn [app file_ops firstn map]. rewrite Er, Hfd.
      f_equal. now apply Hops.
Qed.

Lemma firstn_prefix {A} (k : nat) (l : list A) : exists tail, l = firstn k l ++ tail.
Proof. exists (skipn k l). symmetry. apply firstn_skipn. Qed.

(** What [set_user_map] does, in every run.  [known] is what the file
    has been shown to receive so far: a beginning of what is asked
    for, and all of it when [set_user_map] returns 0. *)
Lemma set_user_map_spec (user : json) (cpid : Z) (key filename : string)
      (ms : list id_mapping) (w : world) :
  0 < cpid < 2 ^ 31 ->
  strlen (proc_file cpid filename) < MAX_PATH ->
  Forall2 mapping_entry (entries user key) ms ->
  exists (e : Z) (new : list event) (w' : world),
    set_user_map user cpid key filename w = (Ret e, w') /\
    w_trace w' = rev new ++ w_trace w /\
    (e = 0 \/ e = 1) /\
    existsb gives_up new = negb (e =? 0) /\
    (forall table, exists tail,
        map_ops user cpid key filename ms = file_ops table new ++ tail) /\
    (e = 0 ->
     forall table rest, exists table',
         file_ops table (new ++ rest)
         = map_ops user cpid key filename ms ++ file_ops table' rest).
Proof.
  intros Hcpid Hfit Hms. unfold set_user_map, map_ops. unfold entries in Hms.
  destruct (json_object_get user key) as [mappings|].
  2: { exists 0, [], w. cbn. repeat split; auto; eauto. }
  rewrite (proc_path_proc_file cpid filename Hcpid).
  set (path := proc_file cpid filename) in *. cbv zeta.
  pose (plan := Opened path :: map (fun m => Wrote path (mapping_text m)) ms).
  assert (Hnil : forall table,
             exists tail, Opened path :: map (fun m => Wrote path (mapping_text m)) ms
                          = file_ops table [] ++ tail) by (intros; cbn; eauto).
  destruct (_ <? 0) eqn:E0; [apply Z.ltb_lt in E0; unfold strlen in E0; lia|].
  destruct (_ >=? MAX_PATH) eqn:E1;
    [rewrite Z.geb_leb in E1; apply Z.leb_le in E1; lia|].
  unfold bind at 1, read_child_pid, sys.
  set (cp := a_ret (next w)). set (w1 := called (EvChildPid cp) w).
  destruct (cp <? 0) eqn:Ecp.
  { exists 1, [EvChildPid cp], w1. split; [reflexivity|]. split; [reflexivity|].
    split; [auto|]. split; [cbn; now rewrite Ecp|].
    split; [intros; cbn; eauto|discriminate]. }
  unfold bind at 1, sys_open, sys.
  set (fd := a_ret (next w1)). set (w2 := called (EvOpen path O_WRONLY fd) w1).
  destruct (fd =? -1) eqn:Efd.
  { eexists 1, [EvChildPid cp; EvOpen path O_WRONLY fd], _.
    split; [unfold bind, PERROR, ret; reflexivity|]. split; [reflexivity|].
    split; [auto|]. split; [cbn; now rewrite Ecp, Efd|]. split; [|discriminate].
    intros table. cbn [file_ops]. rewrite Efd. cbn. eauto. }
  unfold bind at 1.
  destruct (set_user_map_loop_spec key path fd (json_array_elements mappings) ms Hms 0 w2)
    as (err & k & new & w3 & Hrun & Htr & Herr & Hk & Hg & Hops).
  rewrite Hrun.
  assert (Hg0 : forall tl,
             existsb gives_up (EvChildPid cp :: EvOpen path O_WRONLY fd :: new ++ tl)
             = negb (err =? 0) || existsb gives_up tl).
  { intros tl. cbn [existsb gives_up]. now rewrite Ecp, Efd, existsb_app, Hg. }
  assert (Hfd : forall table, lookup_fd fd ((fd, path) :: table) = Some path)
    by (intros; cbn [lookup_fd]; now rewrite Z.eqb_refl).
  assert (Hsofar : forall table tl,
             file_ops table (EvChildPid cp :: EvOpen path O_WRONLY fd :: new ++ tl)
             = Opened path :: map (fun m => Wrote path (mapping_text m)) (firstn k ms)
                      ++ file_ops ((fd, path) :: table) tl).
  { intros table tl. cbn [file_ops]. now rewrite Efd, (Hops _ tl (Hfd table)). }
  assert (Hpre : exists tail,
             Opened path :: map (fun m => Wrote path (mapping_text m)) ms
             = (Opened path :: map (fun m => Wrote path (mapping_text m)) (firstn k ms)
                       ++ []) ++ tail).
  { destruct (firstn_prefix k ms) as (tail & Htail).
    exists (map (fun m => Wrote path (mapping_text m)) tail).
    rewrite app_nil_r. cbn [app]. f_equal. rewrite <- map_app. now rewrite <- Htail. }
  assert (Hall : err = 0 -> firstn k ms = ms)
    by (intros E; rewrite (Hk E); apply firstn_all).
  assert (Htr3 : w_trace w3
                 = rev (EvChildPid cp :: EvOpen path O_WRONLY fd :: new) ++ w_trace w).
  { rewrite Htr. unfold w2, w1. cbn [called w_trace rev]. now rewrite <- !app_assoc. }
  destruct (fd >=? 0).
  - unfold bind at 1, sys_close, sys.
    set (c := a_ret (next w3)). set (w4 := called (EvClose fd c) w3).
    assert (Htr4 : w_trace w4
                   = rev (EvChildPid cp :: EvOpen path O_WRONLY fd :: new ++ [EvClose fd c])
                         ++ w_trace w).
    { unfold w4. cbn [called w_trace]. rewrite Htr3. cbn [rev].
      rewrite rev_app_distr. cbn [rev app]. now rewrite <- !app_assoc. }
    assert (Hfew : forall table, exists tail,
               Opened path :: map (fun m => Wrote path (mapping_text m)) ms
               = file_ops table (EvChildPid cp :: EvOpen path O_WRONLY fd
                                            :: new ++ [EvClose fd c]) ++ tail).
    { intros table. rewrite Hsofar. cbn [file_ops]. exact Hpre. }
    destruct (c =? -1) eqn:Ec.
    + eexists 1, _, _. split; [unfold bind, PERROR, ret; reflexivity|].
      split; [exact Htr4|]. split; [auto|].
      split; [rewrite Hg0; cbn; rewrite Ec; now destruct (err =? 0)|].
      split; [exact Hfew|discriminate].
    + exists err, (EvChildPid cp :: EvOpen path O_WRONLY fd :: new ++ [EvClose fd c]), w4.
      split; [reflexivity|]. split; [exact Htr4|]. split; [exact Herr|].
      split; [rewrite Hg0; cbn; rewrite Ec; now destruct (err =? 0)|].
      split; [exact Hfew|].
      intros E table rest. exists (unbind fd ((fd, path) :: table)).
      cbn [app]. rewrite <- app_assoc, Hsofar, (Hall E). cbn [app file_ops].
      now rewrite Ec.
  - exists err, (EvChildPid cp :: EvOpen path O_WRONLY fd :: new), w3.
    split; [reflexivity|]. split; [exact Htr3|]. split; [exact Herr|].
    split; [rewrite <- (app_nil_r new), Hg0; cbn; now destruct (err =? 0)|].
    split.
    + intros table. rewrite <- (app_nil_r new), Hsofar. cbn [file_ops]. exact Hpre.
    + intros E table rest. exists ((fd, path) :: table).
      cbn [app]. now rewrite Hsofar, (Hall E).
Qed.

(** What [set_user_setgroups] does, in every run. *)
Lemma set_user_setgroups_spec (user : json) (cpid : Z) (w : world) :
  0 < cpid < 2 ^ 31 ->
  strlen (proc_file cpid "setgroups") < MAX_PATH ->
  exists (e : Z) (new : list event) (w' : world),
    set_user_setgroups user cpid w = (Ret e, w') /\
    w_trace w' = rev new ++ w_trace w /\
    (e = 0 \/ e = 1) /\
    existsb gives_up new = negb (e =? 0) /\
    (forall table, exists tail, setgroups_ops user cpid = file_ops table new ++ tail) /\
    (e = 0 ->
     forall table rest, exists table',
         file_ops table (new ++ rest) = setgroups_ops user cpid ++ file_ops table' rest).
Proof.
  intros Hcpid Hfit. unfold set_user_setgroups, setgroups_ops.
  destruct (json_object_get user "setgroups") as [setgroups|].
  2: { exists 0, [], w. cbn. repeat split; auto; eauto. }
  rewrite (proc_path_proc_file cpid "setgroups" Hcpid).
  set (path := proc_file cpid "setgroups") in *.
  set (value := if json_boolean_value setgroups then "allow" else "deny"). cbv zeta.
  destruct (_ <? 0) eqn:E0; [apply Z.ltb_lt in E0; unfold strlen in E0; lia|].
  destruct (_ >=? MAX_PATH) eqn:E1;
    [rewrite Z.geb_leb in E1; apply Z.leb_le in E1; lia|].
  unfold bind at 1, read_child_pid, sys.
  set (cp := a_ret (next w)). set (w1 := called (EvChildPid cp) w).
  destruct (cp <? 0) eqn:Ecp.
  { exists 1, [EvChildPid cp], w1. split; [reflexivity|]. split; [reflexivity|].
    split; [auto|]. split; [cbn; now rewrite Ecp|].
    split; [intros; cbn; eauto|discriminate]. }
  unfold bind at 1, LOG. unfold bind at 1, sys_open, sys.
  set (w2 := say _ w1).
  set (fd := a_ret (next w2)). set (w3 := called (EvOpen path O_WRONLY fd) w2).
  destruct (fd =? -1) eqn:Efd.
  { eexists 1, [EvChildPid cp; EvOpen path O_WRONLY fd], _.
    split; [unfold bind, PERROR, ret; reflexivity|]. split; [reflexivity|].
    split; [auto|]. split; [cbn; now rewrite Ecp, Efd|]. split; [|discriminate].
    intros table. cbn [file_ops]. rewrite Efd. cbn. eauto. }
  unfold bind at 1, sys_write, sys.
  set (r := a_ret (next w3)). set (w4 := called (EvWrite fd value r) w3).
  assert (Hsofar : forall table tl,
             file_ops table (EvChildPid cp :: EvOpen path O_WRONLY fd
                                        :: EvWrite fd value r :: tl)
             = Opened path
                      :: (if r =? -1 then [] else [Wrote path value])
                      ++ file_ops ((fd, path) :: table) tl).
  { intros table tl. cbn [file_ops lookup_fd]. rewrite Efd, Z.eqb_refl.
    now destruct (r =? -1). }
  assert (Hpre : exists tail,
             [Opened path; Wrote path value]
             = (Opened path :: (if r =? -1 then [] else [Wrote path value]) ++ []) ++ tail).
  { destruct (r =? -1); cbn; eauto. }
  destruct (r =? -1) eqn:Er.
  - (* the write failed *)
    unfold bind at 1, PERROR. unfold bind at 1, ret at 1.
    destruct (fd >=? 0).
    + unfold bind, sys_close, sys, PERROR, ret.
      match goal with |- context [EvClose fd ?x] => set (c := x) end.
      exists 1, [EvChildPid cp; EvOpen path O_WRONLY fd; EvWrite fd value r; EvClose fd c].
      destruct (c =? -1); eexists; (split; [reflexivity|]); (split; [reflexivity|]);
        (split; [auto|]);
        (split; [cbn; rewrite Ecp, Efd, Er; now rewrite ?orb_true_r|]);
        (split; [|discriminate]);
        intros table; rewrite Hsofar; cbn [file_ops]; exact Hpre.
    + eexists 1, [EvChildPid cp; EvOpen path O_WRONLY fd; EvWrite fd value r], _.
      split; [reflexivity|]. split; [reflexivity|]. split; [auto|].
      split; [cbn; now rewrite Ecp, Efd, Er|]. split; [|discriminate].
      intros table. rewrite Hsofar. cbn [file_ops]. exact Hpre.
  - unfold bind at 1, ret at 1.
    destruct (fd >=? 0).
    + unfold bind, sys_close, sys, PERROR, ret.
      set (c := a_ret (next w4)).
      destruct (c =? -1) eqn:Ec.
      * eexists 1, [EvChildPid cp; EvOpen path O_WRONLY fd; EvWrite fd value r;
                    EvClose fd c], _.
        split; [reflexivity|]. split; [reflexivity|]. split; [auto|].
        split; [cbn; now rewrite Ecp, Efd, Er, Ec|].
        split; [|discriminate].
        intros table. rewrite Hsofar. cbn [file_ops]. exact Hpre.
      * eexists 0, [EvChildPid cp; EvOpen path O_WRONLY fd; EvWrite fd value r;
                    EvClose fd c], _.
        split; [reflexivity|]. split; [reflexivity|]. split; [auto|].
        split; [cbn; now rewrite Ecp, Efd, Er, Ec|].
        split.
        -- intros table. rewrite Hsofar. cbn [file_ops]. exact Hpre.
        -- intros _ table rest. eexists. cbn [app]. rewrite Hsofar.
           cbn [app file_ops]. rewrite Ec. reflexivity.
    + eexists 0, [EvChildPid cp; EvOpen path O_WRONLY fd; EvWrite fd value r], _.
      split; [reflexivity|]. split; [reflexivity|]. split; [auto|].
      split; [cbn; now rewrite Ecp, Efd, Er|].
      split.
      * intros table. rewrite Hsofar. cbn [file_ops]. exact Hpre.
      * intros _ table rest. eexists. cbn [app]. rewrite Hsofar. reflexivity.
Qed.

Lemma string_length_app (s1 s2 : string) :
  String.length (s1 ++ s2) = (String.length s1 + String.length s2)%nat.
Proof. induction s1 as [|c s1 IH]; cbn; congruence. Qed.

Lemma map_file_fits (cpid : Z) (name : string) :
  (String.length name <= 9)%nat ->
  strlen (proc_file cpid "setgroups") < MAX_PATH ->
  strlen (proc_file cpid name) < MAX_PATH.
Proof.
  unfold strlen, proc_file. rewrite !string_length_app. cbn [String.length]. lia.
Qed.

Ltac simpl_status :=
  change (negb (1 =? 0)) with true in *; change (negb (0 =? 0)) with false in *;
  cbv iota.

(** C4, as the code has it.  Let the configuration have a user
    namespace whose entries each hold their three integers, and let
    [cpid] be a PID whose files under /proc have paths that fit in
    [MAX_PATH] bytes.  In every
    run, what the host has opened and written is a beginning of: open
    uid_map and write it the line of each entry of [uidMappings], in
    order; open setgroups and write it allow or deny; open gid_map and
    write it the line of each entry of [gidMappings], in order (each
    file when its key is there).  The line of an entry is its
    container ID, host ID and size in decimal, with a space between
    them and a line feed at the end, and each line is sent by a call
    of its own.  [set_user_namespace_mappings] returns 0 or 1; it
    returns 0 exactly when the container was alive and no call
    failed, and then all of the above has been written.  At the first
    call that fails it gives up. *)
Theorem user_mappings_written_in_order (config namespaces user : json)
        (cpid : Z) (uids gids : list id_mapping) (w : world) :
  json_object_get config "namespaces" = Some namespaces ->
  json_object_get namespaces "user" = Some user ->
  0 < cpid < 2 ^ 31 ->
  strlen (proc_file cpid "setgroups") < MAX_PATH ->
  Forall2 mapping_entry (entries user "uidMappings") uids ->
  Forall2 mapping_entry (entries user "gidMappings") gids ->
  let run := set_user_namespace_mappings config cpid w in
  let calls := calls_since w (snd run) in
  (exists rest, mapping_plan user cpid uids gids = file_ops [] calls ++ rest) /\
  (fst run = Ret 0 -> file_ops [] calls = mapping_plan user cpid uids gids) /\
  (fst run = Ret 0 \/ fst run = Ret 1) /\
  (fst run = Ret 0 <-> existsb gives_up calls = false).
Proof.
  intros Hn Hu Hcpid Hfit Huids Hgids run calls. subst calls run.
  destruct (set_user_namespace_mappings config cpid w) as [o w'] eqn:Hrun.
  cbn [fst snd]. unfold set_user_namespace_mappings in Hrun. rewrite Hn, Hu in Hrun.
  unfold mapping_plan.
  assert (Hfu : strlen (proc_file cpid "uid_map") < MAX_PATH)
    by (apply map_file_fits; [cbn; lia|exact Hfit]).
  assert (Hfg : strlen (proc_file cpid "gid_map") < MAX_PATH)
    by (apply map_file_fits; [cbn; lia|exact Hfit]).
  destruct (set_user_map_spec user cpid "uidMappings" "uid_map" uids w Hcpid Hfu Huids)
    as (e1 & n1 & w1 & R1 & T1 & V1 & G1 & P1 & F1).
  unfold bind at 1 in Hrun. rewrite R1 in Hrun.
  destruct V1 as [-> | ->]; simpl_status.
  2: { inversion Hrun; subst o w'.
       rewrite (calls_since_new w w1 _ T1), rev_involutive.
       destruct (P1 []) as (tail & ->).
       split; [eexists; rewrite <- !app_assoc; reflexivity|]. split; [discriminate|]. split; [auto|].
       rewrite G1. split; discriminate. }
  destruct (set_user_setgroups_spec user cpid w1 Hcpid Hfit)
    as (e2 & n2 & w2 & R2 & T2 & V2 & G2 & P2 & F2).
  unfold bind at 1 in Hrun. rewrite R2 in Hrun.
  assert (T12 : w_trace w2 = rev (n1 ++ n2) ++ w_trace w)
    by (rewrite T2, T1, rev_app_distr, <- app_assoc; reflexivity).
  destruct V2 as [-> | ->]; simpl_status.
  2: { inversion Hrun; subst o w'.
       rewrite (calls_since_new w w2 _ T12), rev_involutive.
       destruct (F1 eq_refl [] n2) as (t1 & ->). destruct (P2 t1) as (tail & ->).
       split; [eexists; rewrite <- !app_assoc; reflexivity|]. split; [discriminate|]. split; [auto|].
       rewrite existsb_app, G1, G2. split; discriminate. }
  destruct (set_user_map_spec user cpid "gidMappings" "gid_map" gids w2 Hcpid Hfg Hgids)
    as (e3 & n3 & w3 & R3 & T3 & V3 & G3 & P3 & F3).
  unfold bind at 1 in Hrun. rewrite R3 in Hrun.
  assert (T123 : w_trace w3 = rev (n1 ++ n2 ++ n3) ++ w_trace w)
    by (rewrite T3, T12, !rev_app_distr, <- !app_assoc; reflexivity).
  destruct (F1 eq_refl [] (n2 ++ n3)) as (t1 & O1).
  destruct (F2 eq_refl t1 n3) as (t2 & O2).
  destruct V3 as [-> | ->]; simpl_status; inversion Hrun; subst o w';
    rewrite (calls_since_new w w3 _ T123), rev_involutive, O1, O2.
  - destruct (F3 eq_refl t2 []) as (t3 & O3). rewrite app_nil_r in O3. rewrite O3.
    cbn [file_ops]. rewrite app_nil_r.
    split; [exists []; now rewrite app_nil_r|]. split; [reflexivity|]. split; [auto|].
    rewrite !existsb_app, G1, G2, G3. split; reflexivity.
  - destruct (P3 t2) as (tail & ->).
    split; [eexists; rewrite <- !app_assoc; reflexivity|]. split; [discriminate|]. split; [auto|].
    rewrite !existsb_app, G1, G2, G3. split; discriminate.
Qed.

Lemma user_mappings_written_in_order_witness :
  let w := init_world user_namespace_tape [] false in
  let run := set_user_namespace_mappings user_namespace_config 4242 w in
  fst run = Ret 0 /\
  file_ops [] (calls_since w (snd run))
  = [Opened "/proc/4242/uid_map";
     Wrote "/proc/4242/uid_map" ("0 1000 1" ++ String "010"%char EmptyString);
     Opened "/proc/4242/setgroups";
     Wrote "/proc/4242/setgroups" "deny";
     Opened "/proc/4242/gid_map";
     Wrote "/proc/4242/gid_map" ("0 1000 1" ++ String "010"%char EmptyString)].
Proof.
  assert (E : forall j, j = JObject [("containerID", JInteger 0); ("hostID", JInteger 1000);
                                     ("size", JInteger 1)] ->
                        mapping_entry j (mkMapping 0 1000 1)).
  { intros j ->. unfold mapping_entry. cbn. repeat split; (reflexivity || lia). }
  pose (T := user_mappings_written_in_order
               user_namespace_config (JObject [("user", user_namespace)]) user_namespace
               4242 [mkMapping 0 1000 1] [mkMapping 0 1000 1]
               (init_world user_namespace_tape [] false)
               eq_refl eq_refl (conj eq_refl eq_refl) eq_refl
               (Forall2_cons _ _ (E _ eq_refl) (Forall2_nil _))
               (Forall2_cons _ _ (E _ eq_refl) (Forall2_nil _))).
  cbv zeta.
  assert (H0 : fst (set_user_namespace_mappings user_namespace_config 4242
                                                (init_world user_namespace_tape [] false))
               = Ret 0)
    by exact (proj2 (proj2 (proj2 (proj2 T))) eq_refl).
  split; [exact H0|]. exact (proj1 (proj2 T) H0).
Defined.

(** What C4 asks for is not what happens for a map of two entries.
    The host sends each line with a [dprintf] of its own; Linux takes
    one write for a map file and refuses the second with EINVAL.
    uid_map has then received the first line only,
    [set_user_namespace_mappings] returns 1, and neither setgroups nor
    gid_map is written. *)
Lemma second_mapping_line_is_refused :
  let w := init_world two_ranges_tape [] false in
  let run := set_user_namespace_mappings two_ranges_config 4242 w in
  fst run = Ret 1 /\
  calls_since w (snd run)
  = [EvChildPid 4242;
     EvOpen "/proc/4242/uid_map" 1 3;
     EvDprintf 3 ("0 1000 1" ++ String "010"%char EmptyString) 9;
     EvDprintf 3 ("1 100000 65536" ++ String "010"%char EmptyString) (-1);
     EvClose 3 0] /\
  file_ops [] (calls_since w (snd run))
  = [Opened "/proc/4242/uid_map";
     Wrote "/proc/4242/uid_map" ("0 1000 1" ++ String "010"%char EmptyString)].
Proof. vm_compute. repeat split. Qed.

(** ** Functions whose calls all belong to one class *)

Lemma emits_ret (Q : event -> Prop) {A} (a : A) : emits Q (ret a).
Proof. intros w. constructor. Qed.

Lemma emits_bind (Q : event -> Prop) {A B} (m : M A) (k : A -> M B) :
  emits Q m -> (forall a, emits Q (k a)) -> emits Q (bind m k).
Proof.
  intros Hm Hk w. unfold bind. specialize (Hm w).
  destruct (m w) as [[a| | | |] w1]; cbn [snd] in *; try exact Hm.
  exact (only_trans Q _ _ _ Hm (Hk a w1)).
Qed.

Lemma emits_sys (Q : event -> Prop) {A} (mk : answer -> event) (res : answer -> A) :
  (forall a, Q (mk a)) -> emits Q (sys mk res).
Proof. intros H w. cbn. constructor; [apply H|constructor]. Qed.

Lemma emits_sys_void (Q : event -> Prop) (e : event) : Q e -> emits Q (sys_void e).
Proof. intros H w. cbn. constructor; [exact H|constructor]. Qed.

Lemma emits_LOG (Q : event -> Prop) (fmt : string) (args : list logarg) :
  emits Q (LOG fmt args).
Proof. intros w. constructor. Qed.

Lemma emits_PERROR (Q : event -> Prop) (msg : string) : emits Q (PERROR msg).
Proof. intros w. constructor. Qed.

Lemma emits_perror (Q : event -> Prop) (msg : string) : emits Q (perror msg).
Proof. intros w. constructor. Qed.

Lemma emits_alloc (Q : event -> Prop) : emits Q alloc.
Proof. intros w. constructor. Qed.

Lemma emits_exit (Q : event -> Prop) {A} (s : Z) : emits Q (@exit A s).
Proof. intros w. constructor. Qed.

Lemma emits_undefined (Q : event -> Prop) {A} : emits Q (@undefined A).
Proof. intros w. constructor. Qed.

Lemma emits_out_of_fuel (Q : event -> Prop) {A} : emits Q (@out_of_fuel A).
Proof. intros w. constructor. Qed.

Lemma emits_execveat (Q : event -> Prop) fd path argv env flags :
  (forall r, Q (EvExecveat fd path argv env flags r)) ->
  emits Q (sys_execveat fd path argv env flags).
Proof. intros H w. cbn. constructor; [apply H|constructor]. Qed.

Lemma emits_execvpe (Q : event -> Prop) file argv env :
  (forall r, Q (EvExecvpe file argv env r)) -> emits Q (sys_execvpe file argv env).
Proof. intros H w. cbn. constructor; [apply H|constructor]. Qed.

Lemma emits_weaken (Q R : event -> Prop) {A} (m : M A) :
  (forall e, Q e -> R e) -> emits Q m -> emits R m.
Proof. intros H Hm w. exact (only_weaken Q R _ _ H (Hm w)). Qed.

(** Goes through a function along its syntax. *)
Ltac emits_step :=
  first
    [ apply emits_ret | apply emits_LOG | apply emits_PERROR | apply emits_perror
    | apply emits_alloc | apply emits_exit | apply emits_undefined
    | apply emits_out_of_fuel
    | apply emits_bind; [|intros ?]
    | apply emits_sys; intros ?; cbn; auto; fail
    | apply emits_sys_void; cbn; auto; fail
    | apply emits_execveat; intros ?; cbn; auto; fail
    | apply emits_execvpe; intros ?; cbn; auto; fail
    | match goal with
      | |- emits _ (if ?c then _ else _) => destruct c
      | |- emits _ (match ?x with _ => _ end) => destruct x
      | |- emits _ (let (_, _) := ?x in _) => destruct x
      end ].

Ltac emits_tac := repeat emits_step.

Lemma emits_log_each (Q : event -> Prop) (fmt : string) (l : list string) :
  emits Q (log_each fmt l).
Proof. induction l; cbn [log_each]; emits_tac. exact IHl. Qed.

Lemma emits_close_pipe (Q : event -> Prop) (fds : Z * Z) :
  (forall fd r, Q (EvClose fd r)) -> emits Q (close_pipe fds).
Proof. intros H. unfold close_pipe, sys_close. emits_tac. Qed.

Lemma emits_strdup_each (Q : event -> Prop) (l : list json) : emits Q (strdup_each l).
Proof. induction l; cbn [strdup_each]; emits_tac. exact IHl. Qed.

Lemma emits_exec_process (process : json) (exec_fd : Z) :
  emits hook_call (exec_process process exec_fd).
Proof.
  unfold exec_process, json_array_of_strings_value.
  emits_tac; try apply emits_strdup_each; try apply emits_log_each.
Qed.

(** ** Waiting *)

Lemma _wait_loop_spec (pid : Z) (name : string) (fuel : nat) :
  forall w,
    (List.length (w_tape w) < fuel)%nat ->
    exists err new w',
      _wait_loop fuel pid name w = (Ret err, w') /\
      w_trace w' = new ++ w_trace w /\
      Forall (fun e => wait_for name pid e /\
                       (wait_outcome e = None \/ wait_outcome e = Some err)) new /\
      exists e, In e new /\ wait_outcome e = Some err.
Proof.
  induction fuel as [|fuel IH]; intros w Hlen; [lia|].
  cbn [_wait_loop]. unfold bind at 1, sys_waitid, sys.
  set (a := next w).
  set (ev := EvWaitid name pid (a_ret a) (a_errno a) (a_code a) (a_status a)).
  set (w1 := called ev w).
  assert (He : wait_for name pid ev) by (unfold wait_for, ev; eauto).
  assert (Hleaf : forall err (w' : world),
             w_trace w' = w_trace w1 -> wait_outcome ev = Some err ->
             exists err0 new w'0,
               (Ret err, w') = (Ret err0, w'0) /\
               w_trace w'0 = new ++ w_trace w /\
               Forall (fun e0 => wait_for name pid e0 /\
                                 (wait_outcome e0 = None \/ wait_outcome e0 = Some err0)) new /\
               exists e0, In e0 new /\ wait_outcome e0 = Some err0).
  { intros err w' Htr Ho. exists err, [ev], w'. split; [reflexivity|].
    split; [now rewrite Htr|].
    split; [constructor; [split; [exact He|right; exact Ho]|constructor]|].
    exists ev. split; [now left|exact Ho]. }
  destruct (a_ret a =? -1) eqn:Er.
  - destruct (a_errno a =? EINTR) eqn:Ee.
    + assert (Htape : (List.length (w_tape w1) < fuel)%nat).
      { unfold w1. cbn [called w_tape]. unfold a, next in Ee.
        destruct (w_tape w); [cbn in Ee; discriminate|cbn in *; lia]. }
      destruct (IH w1 Htape) as (err & new & w' & Hrun & Htr & Hall & Hex).
      exists err, (new ++ [ev]), w'. split; [exact Hrun|].
      split; [rewrite Htr, <- app_assoc; reflexivity|]. split.
      * apply Forall_app. split; [exact Hall|].
        constructor; [|constructor]. split; [exact He|].
        left. unfold ev. cbn [wait_outcome]. unfold wait_status. now rewrite Er, Ee.
      * destruct Hex as (e0 & Hin & Ho). exists e0. split; [|exact Ho].
        apply in_or_app. now left.
    + apply Hleaf; [reflexivity|].
      unfold ev. cbn [wait_outcome]. unfold wait_status. now rewrite Er, Ee.
  - assert (Hs : wait_outcome ev
                 = if a_code a =? CLD_EXITED then Some (a_status a) else Some 1).
    { unfold ev. cbn [wait_outcome]. unfold wait_status. now rewrite Er. }
    destruct (a_code a =? CLD_EXITED); [now apply Hleaf|].
    destruct (a_code a =? CLD_KILLED); [now apply Hleaf|].
    destruct (a_code a =? CLD_DUMPED); now apply Hleaf.
Qed.

Lemma _wait_spec (pid : Z) (name : string) (w : world) :
  exists err new w',
    _wait pid name w = (Ret err, w') /\
    w_trace w' = new ++ w_trace w /\
    Forall (fun e => wait_for name pid e /\
                     (wait_outcome e = None \/ wait_outcome e = Some err)) new /\
    exists e, In e new /\ wait_outcome e = Some err.
Proof. unfold _wait. apply _wait_loop_spec. lia. Qed.

Lemma emits_wait (Q : event -> Prop) (pid : Z) (name : string) :
  (forall e, wait_for name pid e -> Q e) -> emits Q (_wait pid name).
Proof.
  intros H w. destruct (_wait_spec pid name w) as (err & new & w' & Hrun & Htr & Hall & _).
  rewrite Hrun. cbn [snd]. apply only_app. exists new. split; [exact Htr|].
  eapply Forall_impl; [|exact Hall]. intros e [He _]. now apply H.
Qed.

(** ** Functions whose calls are in one class and whose result is known *)

Lemma post_ret (Q : event -> Prop) {A} (S : A -> Prop) (a : A) :
  S a -> post Q S (ret a).
Proof.
  intros H. split; [apply emits_ret|]. intros w a' E.
  unfold ret in E. cbn in E. inversion E. subst. exact H.
Qed.

Lemma post_bind (Q : event -> Prop) {A B} (S1 : A -> Prop) (S : B -> Prop)
      (m : M A) (k : A -> M B) :
  post Q S1 m -> (forall a, S1 a -> post Q S (k a)) -> post Q S (bind m k).
Proof.
  intros [Hm Hv] Hk. split.
  - intros w. unfold bind. specialize (Hm w). specialize (Hv w).
    destruct (m w) as [[a| | | |] w1]; cbn [fst snd] in *; try exact Hm.
    exact (only_trans Q _ _ _ Hm (proj1 (Hk a (Hv a eq_refl)) w1)).
  - intros w b. unfold bind. specialize (Hv w).
    destruct (m w) as [[a| | | |] w1]; cbn [fst snd] in *; try discriminate.
    apply (proj2 (Hk a (Hv a eq_refl))).
Qed.

Lemma post_emits (Q : event -> Prop) {A} (m : M A) :
  emits Q m -> post Q (fun _ => True) m.
Proof. intros H. split; [exact H|auto]. Qed.

Lemma post_then (Q : event -> Prop) {A B} (S : B -> Prop) (m : M A) (k : A -> M B) :
  emits Q m -> (forall a, post Q S (k a)) -> post Q S (bind m k).
Proof. intros Hm Hk. apply (post_bind Q (fun _ => True)); [now apply post_emits|auto]. Qed.

Lemma post_never (Q : event -> Prop) {A} (S : A -> Prop) (m : M A) :
  emits Q m -> (forall w a, fst (m w) <> Ret a) -> post Q S m.
Proof. intros H Hn. split; [exact H|]. intros w a E. now apply Hn in E. Qed.

Lemma emits_exec_process_prep (process : json) (exec_fd : Z) :
  emits hook_prep (exec_process process exec_fd).
Proof.
  unfold exec_process, json_array_of_strings_value.
  emits_tac; try apply emits_strdup_each; try apply emits_log_each.
Qed.

Ltac post_step :=
  first
    [ apply post_ret; cbn; auto; fail
    | apply post_then; [|intros ?]
    | match goal with
      | |- post _ _ (if ?c then _ else _) => destruct c
      | |- post _ _ (match ?x with _ => _ end) => destruct x
      | |- post _ _ (let (_, _) := ?x in _) => destruct x
      end ].

Lemma post_hook_pipe (cpid : Z) :
  post hook_prep (fun p => match p with inl r => r = 1 | inr _ => True end)
       (hook_pipe cpid).
Proof.
  unfold hook_pipe.
  repeat first [ post_step
               | apply emits_close_pipe; cbn; auto; fail
               | apply emits_PERROR
               | unfold sys_pipe, sys_dprintf, sys_close, read_child_pid;
                 apply emits_sys; intros ?; cbn; auto; fail ].
Qed.

Lemma post_hook_child (cpid : Z) (pipe_fd : option (Z * Z)) (hook : json) :
  post hook_prep (fun r => r = 1) (hook_child cpid pipe_fd hook).
Proof.
  unfold hook_child. apply post_then.
  - destruct pipe_fd; unfold sys_dup2, sys_close; emits_tac.
  - intros ready. destruct ready; [|now apply post_ret].
    apply post_then; [apply emits_exec_process_prep|]. intros _.
    destruct pipe_fd.
    + apply post_then; [apply emits_close_pipe; cbn; auto|]. intros _. now apply post_ret.
    + apply post_never; [apply emits_undefined|]. intros w a. discriminate.
Qed.

Lemma hook_prep_ok (e : event) : hook_prep e -> hook_call_ok e.
Proof. destruct e; cbn; intros []; split; cbn; auto. Qed.

Lemma hook_call_ok_call (e : event) : hook_call_ok e -> hook_call e.
Proof. now intros []. Qed.

Lemma cond_emits (Q : event -> Prop) {A} (good : outcome A -> Prop) (m : M A) :
  emits Q m -> cond_out Q good m.
Proof. intros H w _. apply H. Qed.

Lemma cond_bind (Q : event -> Prop) {A B} (m : M A) (k : A -> M (option B)) :
  emits Q m -> (forall a, cond_out Q not_stopped (k a)) ->
  cond_out Q not_stopped (bind m k).
Proof.
  intros Hm Hk w. unfold bind. specialize (Hm w).
  destruct (m w) as [[a| | | |] w1]; cbn [fst snd] in *; try (intros _; exact Hm).
  intros G. exact (only_trans Q _ _ _ Hm (Hk a w1 G)).
Qed.

Lemma cond_hook_wait (cpid hpid : Z) :
  cpid <> 0 ->
  cond_out hook_call_ok not_stopped
           (err <- _wait hpid "hook" ;;
            if negb (cpid =? 0) && negb (err =? 0) then ret (Some 1) else ret None).
Proof.
  intros Hc w. unfold bind.
  destruct (_wait_spec hpid "hook" w) as (err & new & w' & Hrun & Htr & Hall & _).
  rewrite Hrun. apply Z.eqb_neq in Hc. rewrite Hc. cbn [negb andb].
  destruct (err =? 0) eqn:Ee; cbn [negb fst snd ret];
    [|intros G; now destruct (G 1)].
  apply Z.eqb_eq in Ee. subst err. intros _.
  apply only_app. exists new. split; [exact Htr|].
  eapply Forall_impl; [|exact Hall].
  intros e [(r & en & c & s & ->) Ho]. split; [reflexivity|].
  cbn [hook_exit_nonzero wait_outcome] in *. unfold wait_status in Ho.
  destruct (r =? -1); [reflexivity|]. cbn [negb andb].
  destruct (c =? CLD_EXITED); [|reflexivity].
  destruct Ho as [Ho|Ho]; [discriminate|]. inversion Ho. reflexivity.
Qed.

Lemma emits_hook_pipe (Q : event -> Prop) (cpid : Z) :
  (forall e, hook_prep e -> Q e) -> emits Q (hook_pipe cpid).
Proof. intros H. exact (emits_weaken _ _ _ H (proj1 (post_hook_pipe cpid))). Qed.

Lemma emits_hook_child (Q : event -> Prop) cpid pipe_fd hook :
  (forall e, hook_prep e -> Q e) -> emits Q (hook_child cpid pipe_fd hook).
Proof. intros H. exact (emits_weaken _ _ _ H (proj1 (post_hook_child cpid pipe_fd hook))). Qed.

(** One hook: its calls, and what it means when [run_hooks] goes on. *)
Lemma run_hook_spec (name : string) (cpid i : Z) (hook : json) (w : world) :
  only hook_call (w_trace w) (w_trace (snd (run_hook name cpid i hook w))) /\
  (forall r, fst (run_hook name cpid i hook w) = Ret (Some r) -> r = 1) /\
  (cpid <> 0 -> not_stopped (fst (run_hook name cpid i hook w)) ->
   only hook_call_ok (w_trace w) (w_trace (snd (run_hook name cpid i hook w)))).
Proof.
  assert (Hp : forall e, hook_prep e -> hook_call e)
    by (intros e He; exact (hook_call_ok_call e (hook_prep_ok e He))).
  assert (P : post hook_call (fun o => match o with Some r => r = 1 | None => True end)
                   (run_hook name cpid i hook)).
  { unfold run_hook. apply post_then; [apply emits_LOG|]. intros _.
    apply (post_bind _ (fun p => match p with inl r => r = 1 | inr _ => True end)).
    - destruct (negb (cpid =? 0)); [|now apply post_ret].
      apply (post_bind _ (fun p => match p with inl r => r = 1 | inr _ => True end)).
      + destruct (post_hook_pipe cpid) as [He Hv]. split; [|exact Hv].
        exact (emits_weaken _ _ _ Hp He).
      + intros [r|fds] Hr; now apply post_ret.
    - intros [r|pipe_fd] Hr; [now apply post_ret|].
      apply post_then; [unfold sys_fork; emits_tac|]. intros hpid.
      destruct (hpid =? -1).
      { apply post_then; [apply emits_PERROR|]. intros _.
        destruct pipe_fd; [|now apply post_ret].
        apply post_then; [apply emits_close_pipe; cbn; auto|]. intros _.
        now apply post_ret. }
      destruct (hpid =? 0).
      { apply (post_bind _ (fun r => r = 1)).
        - destruct (post_hook_child cpid pipe_fd hook) as [He Hv]. split; [|exact Hv].
          exact (emits_weaken _ _ _ Hp He).
        - intros r ->. now apply post_ret. }
      apply post_then; [apply emits_LOG|]. intros _.
      apply post_then.
      { destruct pipe_fd; [|apply emits_ret].
        apply emits_bind; [apply emits_close_pipe; cbn; auto|].
        intros [e ?]. apply emits_ret. }
      intros closed. destruct (negb (closed =? 0)); [now apply post_ret|].
      apply post_then; [apply emits_wait; intros e (? & ? & ? & ? & ->); reflexivity|].
      intros err. destruct (_ && _); now apply post_ret. }
  split; [apply (proj1 P)|]. split.
  { intros r E. exact (proj2 P w (Some r) E). }
  intros Hc E. revert E.
  assert (C : cond_out hook_call_ok not_stopped (run_hook name cpid i hook)).
  { unfold run_hook. apply cond_bind; [apply emits_LOG|]. intros _.
    apply cond_bind.
    - destruct (negb (cpid =? 0)); [|apply emits_ret].
      apply emits_bind; [apply emits_hook_pipe, hook_prep_ok|].
      intros [r|fds]; apply emits_ret.
    - intros [r|pipe_fd]; [apply cond_emits, emits_ret|].
      apply cond_bind; [unfold sys_fork; apply emits_sys; intros ?; now split|].
      intros hpid. destruct (hpid =? -1).
      { apply cond_emits. apply emits_bind; [apply emits_PERROR|]. intros _.
        destruct pipe_fd; [|apply emits_ret].
        apply emits_bind; [apply emits_close_pipe; intros; now split|]. intros _.
        apply emits_ret. }
      destruct (hpid =? 0).
      { apply cond_emits. apply emits_bind; [apply emits_hook_child, hook_prep_ok|].
        intros r. apply emits_ret. }
      apply cond_bind; [apply emits_LOG|]. intros _.
      apply cond_bind.
      { destruct pipe_fd; [|apply emits_ret].
        apply emits_bind; [apply emits_close_pipe; intros; now split|].
        intros [e ?]. apply emits_ret. }
      intros closed. destruct (negb (closed =? 0)); [apply cond_emits, emits_ret|].
      now apply cond_hook_wait. }
  exact (C w).
Qed.

Lemma run_hooks_loop_spec (name : string) (cpid : Z) (hooks : list json) :
  forall (i : Z) (w : world),
    only hook_call (w_trace w) (w_trace (snd (run_hooks_loop name cpid i hooks w))) /\
    (cpid <> 0 -> fst (run_hooks_loop name cpid i hooks w) <> Ret 1 ->
     only hook_call_ok (w_trace w) (w_trace (snd (run_hooks_loop name cpid i hooks w)))).
Proof.
  induction hooks as [|hook hooks IH]; intros i w.
  - cbn. split; [constructor|]. intros _ _. constructor.
  - cbn [run_hooks_loop]. unfold bind.
    destruct (run_hook_spec name cpid i hook w) as (Hall & Hone & Hok).
    destruct (run_hook name cpid i hook w) as [[[r|]| | | |] w1];
      cbn [fst snd] in *;
      try (split; [exact Hall|]; intros Hc _; apply (Hok Hc); intros r; discriminate).
    + split; [exact Hall|]. intros _ E. unfold ret in E. cbn in E.
      specialize (Hone r eq_refl). subst r. now destruct E.
    + destruct (IH (i + 1) w1) as [IHall IHok]. split.
      * exact (only_trans _ _ _ _ Hall IHall).
      * intros Hc E.
        refine (only_trans _ _ _ _ (Hok Hc _) (IHok Hc E)). intros r. discriminate.
Qed.

(** [run_hooks]: all its calls are calls of hooks; when it is given
    the container's PID, it returns 1 as soon as a hook it waited for
    has exited with a status other than 0. *)
Lemma run_hooks_spec (config : json) (name : string) (cpid : Z) (w : world) :
  only hook_call (w_trace w) (w_trace (snd (run_hooks config name cpid w))) /\
  (cpid <> 0 -> fst (run_hooks config name cpid w) <> Ret 1 ->
   only hook_call_ok (w_trace w) (w_trace (snd (run_hooks config name cpid w)))).
Proof.
  unfold run_hooks.
  destruct (json_object_get config "hooks") as [hooks|];
    [|cbn; split; [constructor|intros _ _; constructor]].
  destruct (json_object_get hooks name) as [hook_array|];
    [|cbn; split; [constructor|intros _ _; constructor]].
  apply run_hooks_loop_spec.
Qed.

(** ** The host before the hooks *)

Lemma emits_set_user_map_loop key path fd mappings :
  forall i, emits setup_call (set_user_map_loop key path fd i mappings).
Proof.
  induction mappings as [|m mappings IH]; intros i; cbn [set_user_map_loop];
    unfold sys_dprintf; emits_tac. apply IH.
Qed.

Lemma emits_set_user_map user cpid key filename :
  emits setup_call (set_user_map user cpid key filename).
Proof.
  unfold set_user_map, read_child_pid, sys_open, sys_close. cbv zeta.
  emits_tac; try apply emits_set_user_map_loop.
Qed.

Lemma emits_set_user_setgroups user cpid :
  emits setup_call (set_user_setgroups user cpid).
Proof.
  unfold set_user_setgroups, read_child_pid, sys_open, sys_close, sys_write. cbv zeta.
  emits_tac.
  all: apply emits_sys; intros ?; cbn;
    match goal with |- context [if ?b then _ else _] => destruct b end; discriminate.
Qed.

Lemma emits_set_user_namespace_mappings config cpid :
  emits setup_call (set_user_namespace_mappings config cpid).
Proof.
  unfold set_user_namespace_mappings.
  emits_tac; try apply emits_set_user_map; try apply emits_set_user_setgroups.
Qed.

Lemma emits_getline_fd_loop fd (fuel : nat) :
  forall buf n size, emits setup_call (getline_fd_loop fuel buf n fd size).
Proof.
  induction fuel as [|fuel IH]; intros buf n size; cbn [getline_fd_loop];
    unfold sys_read1; emits_tac. apply IH.
Qed.

Lemma emits_getline_fd buf n fd : emits setup_call (getline_fd buf n fd).
Proof. apply emits_getline_fd_loop. Qed.

(** ** What the history of a run of [handle_parent] shows *)

Lemma phase_failed_stays (l : list event) :
  fold_left (fun p e => phase_step e p) l HookFailed = HookFailed.
Proof. induction l; cbn; auto. Qed.

Lemma phase_passed_stays (l : list event) :
  fold_left (fun p e => phase_step e p) l Waited = Waited.
Proof. induction l; cbn; auto. Qed.

Lemma prestart_hook_failed_fold (l : list event) :
  prestart_hook_failed l = true <->
  fold_left (fun p e => phase_step e p) l Undecided = HookFailed.
Proof.
  induction l as [|e l IH]; cbn; [split; discriminate|].
  destruct (container_wait e).
  - rewrite phase_passed_stays. split; discriminate.
  - destruct (hook_exit_nonzero e); cbn [orb]; [|exact IH].
    rewrite phase_failed_stays. split; reflexivity.
Qed.

Lemma prestart_hook_failed_phase (t : list event) :
  prestart_hook_failed (rev t) = true <-> phase_of t = HookFailed.
Proof.
  rewrite prestart_hook_failed_fold. unfold phase_of.
  rewrite <- (rev_involutive t) at 2. now rewrite fold_left_rev_right.
Qed.

Lemma phase_calm (new old : list event) :
  Forall calm new -> phase_of (new ++ old) = phase_of old.
Proof.
  unfold phase_of. induction 1 as [|e new [Hw Hh] _ IH]; cbn; [reflexivity|].
  rewrite IH. unfold phase_step. rewrite Hw, Hh. now destruct (fold_right _ _ old).
Qed.

Lemma phase_passed (new old : list event) :
  phase_of old = Waited -> phase_of (new ++ old) = Waited.
Proof.
  unfold phase_of. intros H. induction new as [|e new IH]; cbn; [exact H|].
  now rewrite IH.
Qed.

Lemma phase_container_wait (new old : list event) :
  new <> [] -> Forall (fun e => container_wait e = true) new ->
  phase_of old = Undecided -> phase_of (new ++ old) = Waited.
Proof.
  intros Hne Hall Hold. induction Hall as [|e new He Hall IH]; [now destruct Hne|].
  destruct new as [|e' new].
  - cbn. unfold phase_of in Hold. rewrite Hold. cbn. now rewrite He.
  - change ((e :: e' :: new) ++ old) with ([e] ++ (e' :: new) ++ old).
    apply phase_passed. apply IH. discriminate.
Qed.

Lemma setup_call_calm (e : event) : setup_call e -> calm e.
Proof. destruct e; cbn; intros H; try (split; reflexivity); destruct H. Qed.

Lemma hook_call_ok_calm (e : event) : hook_call_ok e -> calm e.
Proof.
  intros [H Hn]. split; [|exact Hn].
  destruct e; cbn in *; try reflexivity. now subst.
Qed.

Lemma setup_call_before_exec (e : event) : setup_call e -> before_exec e.
Proof.
  destruct e; cbn; intros H; try (split; reflexivity); try (destruct H; fail).
  split; [reflexivity|]. now apply String.eqb_neq.
Qed.

Lemma hook_call_before_exec (e : event) : hook_call e -> before_exec e.
Proof.
  destruct e; cbn; intros H; try (split; reflexivity); try (destruct H; fail).
  subst. split; reflexivity.
Qed.

Lemma forked_since_more (Q : event -> Prop) (old t t' : list event) :
  forked_since old t -> only Q t t' -> forked_since old t'.
Proof.
  intros (new & -> & Hf) H. apply only_app in H as (new' & -> & _).
  exists (new' ++ new). split; [now rewrite app_assoc|].
  rewrite existsb_app, Hf. apply orb_true_r.
Qed.

Lemma forked_since_later (Q : event -> Prop) (old t t' : list event) :
  only Q old t -> forked_since t t' -> forked_since old t'.
Proof.
  intros H (new & -> & Hf). apply only_app in H as (new' & -> & _).
  exists (new ++ new'). split; [now rewrite app_assoc|].
  rewrite existsb_app, Hf. reflexivity.
Qed.

(** ** The post-stop hooks *)

(** [run_hooks] without a container PID, as for the post-stop hooks:
    it returns, unless a [fork] has put the run into a hook process. *)
Lemma run_hook_host (name : string) (i : Z) (hook : json) (w : world) :
  forall o w',
    run_hook name 0 i hook w = (o, w') ->
    (exists a, o = Ret a) \/ forked_since (w_trace w) (w_trace w').
Proof.
  intros o w'. unfold run_hook. unfold bind at 1, LOG.
  set (w0 := say _ w). change (w_trace w) with (w_trace w0).
  cbn [Z.eqb negb]. unfold bind at 1, ret at 1. unfold bind at 1, sys_fork, sys.
  set (hpid := a_ret (next w0)). set (w1 := called (EvFork hpid) w0).
  destruct (hpid =? -1); [intros E; inversion E; left; eexists; reflexivity|].
  destruct (hpid =? 0) eqn:Eh.
  - intros E. apply (f_equal snd) in E. cbn [snd] in E. subst w'.
    right. apply (forked_since_more hook_call _ (w_trace w1)).
    + exists [EvFork hpid]. split; [reflexivity|]. cbn. now rewrite Eh.
    + apply (emits_bind hook_call);
        [apply emits_hook_child; intros e He; exact (hook_call_ok_call e (hook_prep_ok e He))|].
      intros r. apply emits_ret.
  - unfold bind at 1, LOG. unfold bind at 1, ret at 1. cbn [Z.eqb negb].
    unfold bind.
    destruct (_wait_spec hpid "hook" (say (Log "launched hook %d with PID %d\n"
                                               [LInt i; LInt hpid]) w1))
      as (err & new & w2 & -> & _).
    cbn. intros E; inversion E. left. eexists; reflexivity.
Qed.

Lemma run_hooks_loop_host (name : string) (hooks : list json) :
  forall (i : Z) (w : world) o w',
    run_hooks_loop name 0 i hooks w = (o, w') ->
    (exists a, o = Ret a) \/ forked_since (w_trace w) (w_trace w').
Proof.
  induction hooks as [|hook hooks IH]; intros i w o w'.
  - cbn. intros E; inversion E. left. eexists; reflexivity.
  - cbn [run_hooks_loop]. unfold bind.
    pose proof (run_hook_host name i hook w) as H1.
    pose proof (proj1 (run_hook_spec name 0 i hook w)) as H2.
    destruct (run_hook name 0 i hook w) as [o1 w1]. cbn [fst snd] in H2.
    specialize (H1 o1 w1 eq_refl).
    destruct o1 as [[r|]| | | |];
      try (intros E; inversion E; subst;
           destruct H1 as [[a Ha]|H1]; [discriminate|right; exact H1]).
    + intros E; inversion E. left. eexists; reflexivity.
    + intros E. destruct (IH _ _ _ _ E) as [Hr|Hf]; [left; exact Hr|right].
      exact (forked_since_later hook_call _ _ _ H2 Hf).
Qed.

Lemma run_hooks_host (config : json) (name : string) (w : world) :
  forall o w',
    run_hooks config name 0 w = (o, w') ->
    (exists a, o = Ret a) \/ forked_since (w_trace w) (w_trace w').
Proof.
  intros o w'. unfold run_hooks.
  destruct (json_object_get config "hooks") as [hooks|];
    [|intros E; inversion E; left; eexists; reflexivity].
  destruct (json_object_get hooks name) as [hook_array|];
    [|intros E; inversion E; left; eexists; reflexivity].
  apply run_hooks_loop_host.
Qed.

(** ** [handle_parent] from its label [wait] on *)

Lemma wait_for_container (cpid : Z) (e : event) :
  wait_for "container" cpid e -> container_wait e = true /\ wrote_exec e = false.
Proof. intros (r & en & c & s & ->). split; reflexivity. Qed.

Lemma wait_for_container_0 (cpid : Z) (e : event) :
  wait_for "container" cpid e -> wait_outcome e = Some 0 -> container_exited_0 e = true.
Proof.
  intros (r & en & c & s & ->). cbn. unfold wait_status.
  destruct (r =? -1); [destruct (en =? EINTR); discriminate|].
  destruct (c =? CLD_EXITED); [|discriminate].
  intros E. inversion E. reflexivity.
Qed.

Lemma hook_call_not_container (e : event) :
  hook_call e -> container_wait e = false /\ wrote_exec e = false.
Proof. intros H. exact (hook_call_before_exec e H). Qed.

Lemma after_wait_intro (nh nw : list event) (close : event) (cpid err : Z)
      (o : outcome (Z * (Z * Z))) :
  Forall hook_call nh ->
  Forall (fun e => wait_for "container" cpid e /\
                   (wait_outcome e = None \/ wait_outcome e = Some err)) nw ->
  (exists e, In e nw /\ wait_outcome e = Some err) ->
  container_wait close = false -> wrote_exec close = false ->
  (exists fds, o = Ret (err, fds)) \/
  ((forall r, o <> Ret r) /\ existsb forked_child nh = true) ->
  after_wait (nh ++ nw ++ [close]) o.
Proof.
  intros Hnh Hnw (e0 & Hin0 & Ho0) Hc Hx Ho.
  assert (Hst : forall e st, In e (nh ++ nw ++ [close]) -> container_wait e = true ->
                             wait_outcome e = Some st -> st = err).
  { intros e st Hin Hw Hst. rewrite !in_app_iff in Hin.
    destruct Hin as [Hin|[Hin|[<-|[]]]].
    - rewrite Forall_forall in Hnh.
      destruct (hook_call_not_container e (Hnh e Hin)). congruence.
    - rewrite Forall_forall in Hnw. destruct (Hnw e Hin) as [_ [H|H]]; congruence.
    - congruence. }
  assert (Hfork : existsb forked_child (nh ++ nw ++ [close]) = false ->
                  exists fds, o = Ret (err, fds)).
  { intros Hf. destruct Ho as [Ho|[_ Ho]]; [exact Ho|].
    rewrite existsb_app, Ho in Hf. discriminate. }
  repeat split.
  - intros e st Hin Hw He ret fds E. rewrite (Hst e st Hin Hw He).
    destruct Ho as [[fds' Ho]|[Ho _]]; [congruence|now destruct (Ho (ret, fds))].
  - intros e st Hin Hw He Hf. rewrite (Hst e st Hin Hw He). exact (Hfork Hf).
  - intros ret fds E ->. exists e0.
    assert (err = 0).
    { destruct Ho as [[fds' Ho]|[Ho _]]; [congruence|now destruct (Ho (0, fds))]. }
    subst err. split; [rewrite !in_app_iff; auto|].
    rewrite Forall_forall in Hnw. exact (wait_for_container_0 cpid e0 (proj1 (Hnw e0 Hin0)) Ho0).
  - intros Hf. destruct (Hfork Hf) as [fds E]. now exists (err, fds).
  - rewrite !Forall_app. repeat split.
    + eapply Forall_impl; [|exact Hnh]. intros e He. exact (proj2 (hook_call_not_container e He)).
    + eapply Forall_impl; [|exact Hnw]. intros e [He _]. exact (proj2 (wait_for_container cpid e He)).
    + constructor; [exact Hx|constructor].
Qed.

Lemma handle_parent_wait_spec (config : json) (cpid to_child from_child : Z) (w : world) :
  forall o w',
    handle_parent_wait config cpid to_child from_child w = (o, w') ->
    exists new,
      w_trace w' = new ++ w_trace w /\
      after_wait new o /\
      (forall ret fds, o = Ret (ret, fds) -> status_source to_child new ret) /\
      (phase_of (w_trace w) = Undecided -> phase_of (new ++ w_trace w) <> HookFailed).
Proof.
  intros o w'. unfold handle_parent_wait. unfold bind at 1, sys_close, sys.
  set (c := a_ret (next w)). set (cl := EvClose to_child c). set (w1 := called cl w).
  assert (Hcalm : Forall calm [cl]) by (constructor; [split; reflexivity|constructor]).
  destruct (c =? -1) eqn:Ec.
  - apply Z.eqb_eq in Ec.
    intros E. inversion E. subst o w'. exists [cl]. split; [reflexivity|]. split; [|split].
    + repeat split.
      * intros e st [<-|[]]; discriminate.
      * intros e st [<-|[]]; discriminate.
      * intros ret fds E' ->. discriminate.
      * intros _. eexists; reflexivity.
      * constructor; [reflexivity|constructor].
    + intros ret fds E'. inversion E'. right. split; [reflexivity|].
      split; [left; unfold cl; now rewrite Ec|].
      constructor; [reflexivity|constructor].
    + intros Hs. rewrite (phase_calm _ _ Hcalm), Hs. discriminate.
  - unfold bind at 1.
    destruct (_wait_spec cpid "container" w1) as (err & nw & w2 & -> & Htr & Hall & Hex).
    unfold bind at 1.
    pose proof (proj1 (run_hooks_spec config "post-stop" 0 w2)) as Hh.
    pose proof (run_hooks_host config "post-stop" w2) as Hhost.
    destruct (run_hooks config "post-stop" 0 w2) as [oh w3]. cbn [fst snd] in Hh.
    specialize (Hhost oh w3 eq_refl).
    apply only_app in Hh as (nh & Htr3 & Hnh).
    assert (Hphase : phase_of (w_trace w) = Undecided ->
                     phase_of ((nh ++ nw ++ [cl]) ++ w_trace w) <> HookFailed).
    { intros Hs. rewrite <- !app_assoc. rewrite phase_passed; [discriminate|].
      apply phase_container_wait.
      - destruct Hex as (e0 & Hin0 & _). intros ->. destruct Hin0.
      - eapply Forall_impl; [|exact Hall].
        intros e [He _]. exact (proj1 (wait_for_container cpid e He)).
      - now rewrite (phase_calm _ _ Hcalm). }
    assert (Htrace : w_trace w3 = (nh ++ nw ++ [cl]) ++ w_trace w).
    { rewrite Htr3, Htr. now rewrite <- !app_assoc. }
    assert (Hlost : forall o' : outcome (Z * (Z * Z)),
               (forall a, oh <> Ret a) -> (forall r, o' <> Ret r) ->
               after_wait (nh ++ nw ++ [cl]) o').
    { intros o' Hno Hno'.
      apply (after_wait_intro nh nw cl cpid err); auto.
      right. split; [exact Hno'|].
      destruct Hhost as [[a Ha]|(n' & Hn' & Hf)]; [now destruct (Hno a)|].
      rewrite Htr3 in Hn'. apply app_inv_tail in Hn'. now subst n'. }
    destruct oh as [v| | | |]; intros E; inversion E; subst o w';
      exists (nh ++ nw ++ [cl]); (split; [exact Htrace|]);
        (split; [|split; [|exact Hphase]]);
        try (apply Hlost; intros ?; discriminate);
        try (intros ret fds E'; discriminate).
    + apply (after_wait_intro nh nw cl cpid err); auto.
      left. eexists; reflexivity.
    + intros ret fds E'. inversion E'. subst ret fds. left.
      destruct Hex as (e0 & Hin0 & Ho0). exists e0.
      split; [rewrite !in_app_iff; auto|]. split; [|exact Ho0].
      rewrite Forall_forall in Hall.
      exact (proj1 (wait_for_container cpid e0 (proj1 (Hall e0 Hin0)))).
Qed.

(** ** [handle_parent] *)

Lemma only_nil (Q : event -> Prop) (t : list event) : only Q [] t -> Forall Q t.
Proof. intros H. apply only_app in H as (new & -> & H). now rewrite app_nil_r. Qed.

Lemma phase_calm_nil (t : list event) : Forall calm t -> phase_of t = Undecided.
Proof. intros H. rewrite <- (app_nil_r t). now rewrite (phase_calm _ _ H). Qed.

Lemma existsb_app_false {A} (f : A -> bool) (l1 l2 : list A) :
  existsb f (l1 ++ l2) = false -> existsb f l1 = false.
Proof. rewrite existsb_app. now intros [H _]%orb_false_iff. Qed.

(** The wait for the container is among the calls made from the label
    [wait] on: what is owed for these calls holds for all the calls. *)
Lemma after_wait_exit_status (new old : list event) (o : outcome (Z * (Z * Z))) :
  only before_wait [] old -> after_wait new o ->
  forall e st, In e (new ++ old) -> container_wait e = true -> wait_outcome e = Some st ->
               (forall ret fds, o = Ret (ret, fds) -> ret = st) /\
               (existsb forked_child (new ++ old) = false -> exists fds, o = Ret (st, fds)).
Proof.
  intros Hold%only_nil (W1 & W2 & _) e st Hin Hw He. apply in_app_iff in Hin as [Hin|Hin].
  - split; [exact (W1 e st Hin Hw He)|].
    intros Hf. exact (W2 e st Hin Hw He (existsb_app_false _ _ _ Hf)).
  - rewrite Forall_forall in Hold. rewrite (Hold e Hin) in Hw. discriminate.
Qed.

Lemma before_exec_before_wait (e : event) : before_exec e -> before_wait e.
Proof. now intros []. Qed.

(** [handle_parent] ends before its label [wait]. *)
Lemma early_post (cpid to_child : Z) (t : list event) (o : outcome (Z * (Z * Z))) :
  only before_wait [] t -> (cpid <> 0 -> only calm [] t) ->
  handle_parent_post cpid to_child t o.
Proof.
  intros B H. split.
  - intros e st Hin Hw. apply only_nil in B. rewrite Forall_forall in B.
    rewrite (B e Hin) in Hw. discriminate.
  - intros Hc. rewrite (phase_calm_nil t (only_nil _ _ (H Hc))). discriminate.
Qed.

(** [handle_parent] reaches its label [wait] with the exec line written. *)
Lemma success_post (cpid to_child : Z) (new old : list event)
      (o : outcome (Z * (Z * Z))) :
  only before_wait [] old -> (cpid <> 0 -> only calm [] old) -> after_wait new o ->
  (phase_of old = Undecided -> phase_of (new ++ old) <> HookFailed) ->
  handle_parent_post cpid to_child (new ++ old) o.
Proof.
  intros B H Haw Hph. split.
  - now apply after_wait_exit_status.
  - intros Hc Hf. now destruct (Hph (phase_calm_nil old (only_nil _ _ (H Hc)))).
Qed.

(** [handle_parent] reaches its label [wait] by the [goto]. *)
Lemma failure_post (cpid to_child : Z) (new old : list event)
      (o : outcome (Z * (Z * Z))) :
  only before_exec [] old -> after_wait new o ->
  (forall ret fds, o = Ret (ret, fds) -> status_source to_child new ret) ->
  (exists e, In e old /\ (killed cpid e = true \/ saw_container_gone e = true)) ->
  handle_parent_post cpid to_child (new ++ old) o.
Proof.
  intros B Haw Hsrc (e & Hin & He). split.
  - apply after_wait_exit_status; [|exact Haw].
    exact (only_weaken _ _ _ _ before_exec_before_wait B).
  - intros _ _. apply only_nil in B. destruct Haw as (_ & _ & W3 & W4 & W5).
    split; [|split; [|split; [|split]]].
    + apply Forall_app. split; [exact W5|].
      eapply Forall_impl; [|exact B]. now intros e' [].
    + exists e. split; [apply in_app_iff; now right|exact He].
    + intros ret fds E.
      destruct (Hsrc ret fds E) as [(e' & Hin' & Hw' & Ho')|(Hr & Hcl & Hno)].
      * left. exists e'. split; [apply in_app_iff; now left|auto].
      * right. split; [exact Hr|]. split; [apply in_app_iff; now left|].
        apply Forall_app. split; [exact Hno|].
        eapply Forall_impl; [|exact B]. now intros e' [].
    + intros ret fds E Hr. destruct (W3 ret fds E Hr) as (e' & Hin' & He').
      exists e'. split; [apply in_app_iff; now left|exact He'].
    + intros Hf. exact (W4 (existsb_app_false _ _ _ Hf)).
Qed.

Ltac ends_early B H :=
  unfold bind, PERROR, LOG, ret, undefined;
  let E := fresh "E" in
  intros E; inversion E; subst;
  apply early_post;
  [ first [exact B|exact (only_weaken _ _ _ _ before_exec_before_wait B)]
  | first [exact H|intros _; exact H] ].

Lemma handle_parent_spec (config : json) (cpid to_child from_child : Z) (w : world) :
  forall o w',
    handle_parent config cpid to_child from_child w = (o, w') ->
    w_trace w = [] ->
    handle_parent_post cpid to_child (w_trace w') o.
Proof.
  intros o w' E Hw. revert E. unfold handle_parent.
  (* the user namespace mappings *)
  unfold bind at 1.
  pose proof (emits_set_user_namespace_mappings config cpid w) as H1. rewrite Hw in H1.
  pose proof (only_weaken _ _ _ _ setup_call_before_exec H1) as B1.
  apply (only_weaken _ calm _ _ setup_call_calm) in H1.
  destruct (set_user_namespace_mappings config cpid w) as [[m| | | |] w1];
    cbn [fst snd] in H1, B1; try ends_early B1 H1.
  destruct (negb (m =? 0)); [ends_early B1 H1|].
  unfold bind at 1, sys_write, sys.
  set (n := a_ret (next w1)).
  set (w2 := called (EvWrite to_child USER_NAMESPACE_MAPPING_COMPLETE n) w1).
  assert (H2 : only calm [] (w_trace w2))
    by (constructor; [split; reflexivity|exact H1]).
  assert (B2 : only before_exec [] (w_trace w2))
    by (constructor; [split; reflexivity|exact B1]).
  destruct (short_write n USER_NAMESPACE_MAPPING_COMPLETE); [ends_early B2 H2|].
  (* the line from the container *)
  unfold bind at 1.
  pose proof (emits_getline_fd None 0 from_child w2) as H3.
  pose proof (only_trans _ _ _ _ B2 (only_weaken _ _ _ _ setup_call_before_exec H3)) as B3.
  apply (only_weaken _ calm _ _ setup_call_calm) in H3.
  apply (only_trans _ _ _ _ H2) in H3.
  destruct (getline_fd None 0 from_child w2) as [[[len [buf allocated]]| | | |] w3];
    cbn [fst snd] in H3, B3; try ends_early B3 H3.
  destruct (len =? -1); [ends_early B3 H3|].
  destruct buf as [l|]; [|ends_early B3 H3].
  destruct (strncmp_buf _ _ _) as [c|]; [|ends_early B3 H3].
  destruct (negb (c =? 0)); [ends_early B3 H3|].
  unfold bind at 1, sys_close, sys.
  set (c' := a_ret (next w3)). set (w4 := called (EvClose from_child c') w3).
  assert (H4 : only calm [] (w_trace w4))
    by (constructor; [split; reflexivity|exact H3]).
  assert (B4 : only before_exec [] (w_trace w4))
    by (constructor; [split; reflexivity|exact B3]).
  destruct (c' =? -1); [ends_early B4 H4|].
  (* the pre-start hooks *)
  unfold bind at 1.
  destruct (run_hooks_spec config "pre-start" cpid w4) as [Hh Hok].
  pose proof (only_trans _ _ _ _ B4 (only_weaken _ _ _ _ hook_call_before_exec Hh)) as B5.
  assert (H5 : fst (run_hooks config "pre-start" cpid w4) <> Ret 1 -> cpid <> 0 ->
               only calm [] (w_trace (snd (run_hooks config "pre-start" cpid w4)))).
  { intros Hr Hc.
    exact (only_trans _ _ _ _ H4 (only_weaken _ _ _ _ hook_call_ok_calm (Hok Hc Hr))). }
  clear Hh Hok.
  destruct (run_hooks config "pre-start" cpid w4) as [[h| | | |] w5];
    cbn [fst snd] in B5, H5;
    try (assert (H5' : cpid <> 0 -> only calm [] (w_trace w5))
          by (apply H5; discriminate);
         ends_early B5 H5').
  destruct (h =? 0) eqn:Eh; cbn [negb].
  - (* they passed *)
    apply Z.eqb_eq in Eh. subst h.
    assert (H5' : cpid <> 0 -> only calm [] (w_trace w5)) by (apply H5; discriminate).
    unfold bind at 1, sys_write, sys.
    set (n' := a_ret (next w5)). set (w6 := called (EvWrite to_child EXEC_PROCESS n') w5).
    assert (H6 : cpid <> 0 -> only calm [] (w_trace w6))
      by (intros Hc; constructor; [split; reflexivity|exact (H5' Hc)]).
    assert (W6 : only before_wait [] (w_trace w6))
      by (constructor;
          [reflexivity|exact (only_weaken _ _ _ _ before_exec_before_wait B5)]).
    destruct (short_write n' EXEC_PROCESS); [ends_early W6 H6|].
    intros E. apply handle_parent_wait_spec in E as (new & -> & Haw & _ & Hph).
    now apply success_post.
  - (* one of them failed *)
    unfold bind at 1, read_child_pid, sys.
    set (cp := a_ret (next w5)). set (w6 := called (EvChildPid cp) w5).
    assert (B6 : only before_exec [] (w_trace w6))
      by (constructor; [split; reflexivity|exact B5]).
    destruct (cp >? 0) eqn:Ecp.
    + unfold bind at 1. unfold bind at 1, LOG. unfold bind at 1, sys_kill, sys.
      set (w6' := say _ w6). set (k := a_ret (next w6')).
      set (kill := EvKill cpid SIGKILL k). set (w7 := called kill w6').
      assert (B7 : only before_exec [] (w_trace w7))
        by (constructor; [split; reflexivity|exact B6]).
      assert (Hk : exists e, In e (w_trace w7) /\
                             (killed cpid e = true \/ saw_container_gone e = true)).
      { exists kill. split; [now left|]. left. cbn. now rewrite !Z.eqb_refl. }
      destruct (negb (k =? 0)); unfold PERROR, ret;
        intros E; apply handle_parent_wait_spec in E as (new & -> & Haw & Hsrc & _);
          now apply failure_post.
    + unfold bind at 1, ret at 1.
      intros E. apply handle_parent_wait_spec in E as (new & -> & Haw & Hsrc & _).
      apply failure_post; [exact B6|exact Haw|exact Hsrc|].
      exists (EvChildPid cp). split; [now left|]. right. cbn.
      apply Z.leb_le. rewrite Z.gtb_ltb in Ecp. now apply Z.ltb_ge in Ecp.
Qed.

(** ** The host after the hooks *)

Lemma existsb_rev {A} (f : A -> bool) (l : list A) : existsb f (rev l) = existsb f l.
Proof.
  induction l as [|a l IH]; [reflexivity|].
  cbn. rewrite existsb_app, IH. cbn. rewrite orb_false_r. apply orb_comm.
Qed.

Lemma existsb_of_In {A} (f : A -> bool) (l : list A) :
  (exists a, In a l /\ f a = true) -> existsb f l = true.
Proof. intros H. now apply existsb_exists. Qed.

Lemma existsb_of_Forall {A} (f : A -> bool) (l : list A) :
  Forall (fun a => f a = false) l -> existsb f l = false.
Proof. induction 1 as [|a l Ha _ IH]; cbn; [reflexivity|now rewrite Ha, IH]. Qed.

(** C9.  Whatever the post-stop hooks do, [handle_parent] returns the
    exit status that the wait for the container recorded.  In every
    run of [handle_parent], if [waitid] for the container has given
    [_wait] the status [st], then every return of [handle_parent]
    returns [st]; and it does return (with [st]), unless a [fork] has
    returned 0, which makes the run that of a forked hook process.
    The result of [run_hooks] for the post-stop hooks is dropped. *)
Theorem post_stop_hooks_keep_exit_status
        (config : json) (cpid to_child from_child : Z)
        (tape : list answer) (heap : list bool) (verbose : bool) :
  let run := handle_parent config cpid to_child from_child
                           (init_world tape heap verbose) in
  let calls := history (snd run) in
  forall e st,
    In e calls -> container_wait e = true -> wait_outcome e = Some st ->
    (forall ret fds, fst run = Ret (ret, fds) -> ret = st) /\
    (existsb forked_child calls = false -> exists fds, fst run = Ret (st, fds)).
Proof.
  intros run calls e st Hin Hw He.
  destruct (handle_parent_spec config cpid to_child from_child
                               (init_world tape heap verbose) (fst run) (snd run))
    as [H _]; [apply surjective_pairing|reflexivity|].
  unfold calls, history in *. rewrite existsb_rev. apply in_rev in Hin.
  exact (H e st Hin Hw He).
Qed.

Lemma post_stop_hooks_keep_exit_status_witness :
  (forall ret fds, fst exit_7_run = Ret (ret, fds) -> ret = 7) /\
  (existsb forked_child (history (snd exit_7_run)) = false ->
   exists fds, fst exit_7_run = Ret (7, fds)).
Proof.
  apply (post_stop_hooks_keep_exit_status
           hooks_config 100 5 6 _ [] false
           (EvWaitid "container" 100 0 0 CLD_EXITED 7) 7).
  - vm_compute. repeat (first [left; reflexivity|right]).
  - reflexivity.
  - reflexivity.
Defined.

Lemma status_source_rev (to_child : Z) (t : list event) (ret : Z) :
  status_source to_child t ret -> status_source to_child (rev t) ret.
Proof.
  intros [(e & Hin & H)|(Hr & Hin & Hno)].
  - left. exists e. split; [now apply in_rev in Hin|exact H].
  - right. split; [exact Hr|]. split; [now apply in_rev in Hin|now apply Forall_rev].
Qed.

(** C2, as the code has it.  In every run of [handle_parent] with the
    PID of the container in which a pre-start hook exits with a status
    other than 0: the host never writes the exec-process line; it
    sends SIGKILL to the container, or else it has read a [child_pid]
    that is not positive (the container was seen to die, and no signal
    is sent); what [handle_parent] returns is the status that [waitid]
    gave [_wait] for the container, not the 1 it had set (it is 1
    without a wait for the container only when the [close] of the pipe
    to the container failed), so that when it returns 0, [waitid] has
    reported that the container exited with status 0; and
    [handle_parent] returns, unless a [fork] has returned 0. *)
Theorem failed_prestart_hook_stops_container
        (config : json) (cpid to_child from_child : Z)
        (tape : list answer) (heap : list bool) (verbose : bool) :
  let run := handle_parent config cpid to_child from_child
                           (init_world tape heap verbose) in
  let calls := history (snd run) in
  cpid <> 0 ->
  prestart_hook_failed calls = true ->
  existsb wrote_exec calls = false /\
  (existsb (killed cpid) calls = true \/ existsb saw_container_gone calls = true) /\
  (forall ret fds, fst run = Ret (ret, fds) -> status_source to_child calls ret) /\
  (forall ret fds, fst run = Ret (ret, fds) -> ret = 0 ->
                   existsb container_exited_0 calls = true) /\
  (existsb forked_child calls = false -> exists r, fst run = Ret r).
Proof.
  intros run calls Hc Hf.
  destruct (handle_parent_spec config cpid to_child from_child
                               (init_world tape heap verbose) (fst run) (snd run))
    as [_ H]; [apply surjective_pairing|reflexivity|].
  unfold calls, history in *. rewrite !existsb_rev.
  apply prestart_hook_failed_phase in Hf.
  destruct (H Hc Hf) as (Hx & (e & Hin & He) & Hs & Hr & Ht).
  split; [now apply existsb_of_Forall|]. split; [|split; [|split; [|exact Ht]]].
  - destruct He as [He|He]; [left|right]; apply existsb_of_In; now exists e.
  - intros ret fds E. apply status_source_rev. exact (Hs ret fds E).
  - intros ret fds E Hz. apply existsb_of_In. exact (Hr ret fds E Hz).
Qed.

Lemma failed_prestart_hook_stops_container_witness :
  existsb wrote_exec (history (snd killed_run)) = false /\
  (existsb (killed 100) (history (snd killed_run)) = true \/
   existsb saw_container_gone (history (snd killed_run)) = true) /\
  (forall ret fds, fst killed_run = Ret (ret, fds) ->
                   status_source 5 (history (snd killed_run)) ret) /\
  (forall ret fds, fst killed_run = Ret (ret, fds) -> ret = 0 ->
                   existsb container_exited_0 (history (snd killed_run)) = true) /\
  (existsb forked_child (history (snd killed_run)) = false ->
   exists r, fst killed_run = Ret r).
Proof.
  apply (failed_prestart_hook_stops_container hooks_config 100 5 6 _ [] false).
  - discriminate.
  - vm_compute. reflexivity.
Defined.

(** The run of the witness: the hook exits with status 3, the host
    sends SIGKILL, [waitid] reports that the container was killed, for
    which [_wait] gives 1, and [handle_parent] returns that 1. *)
Example failed_prestart_hook_container_killed :
  prestart_hook_failed (history (snd killed_run)) = true /\
  In (EvKill 100 9 0) (history (snd killed_run)) /\
  In (EvWaitid "container" 100 0 0 2 9) (history (snd killed_run)) /\
  wait_status 0 0 2 9 = Some 1 /\
  existsb wrote_exec (history (snd killed_run)) = false /\
  fst killed_run = Ret (1, (-1, -1)).
Proof.
  vm_compute.
  repeat split; repeat (first [left; reflexivity|right]).
Qed.

(** What C2 asks for is not what happens here: the pre-start hook
    exits with status 3 and the container has died by then
    ([child_pid] is -1 when the host looks at it).  No SIGKILL is
    sent, and since [waitid] reports that the container exited with
    status 0, [handle_parent] returns 0: the 1 it had set for the
    failed hook is lost. *)
Lemma failed_prestart_hook_container_gone :
  prestart_hook_failed (history (snd gone_run)) = true /\
  existsb (killed 100) (history (snd gone_run)) = false /\
  existsb wrote_exec (history (snd gone_run)) = false /\
  In (EvWaitid "container" 100 0 0 1 0) (history (snd gone_run)) /\
  fst gone_run = Ret (0, (-1, -1)).
Proof.
  vm_compute.
  repeat split; repeat (first [left; reflexivity|right]).
Qed.


(** * Further properties of ccon.c *)

(** ** [_wait] *)




(** ** [close_pipe] *)

(** X2.  [close_pipe] closes each end of the pipe that is not negative,
    the read end first, and no other descriptor; it stores -1 in the
    array for each end it closed, whether [close] failed or not, and
    returns 1 exactly when a [close] returned -1.  A second
    [close_pipe] on the same array therefore makes no call and
    returns 0. *)
Theorem close_pipe_closes_each_end_once (fds : Z * Z) (w : world) :
  let open_ends := filter (fun fd => fd >=? 0) [fst fds; snd fds] in
  exists (results : list Z) (err : Z) (fds' : Z * Z) (w' : world),
    close_pipe fds w = (Ret (err, fds'), w') /\
    List.length results = List.length open_ends /\
    calls_since w w' = map (fun p => EvClose (fst p) (snd p)) (combine open_ends results) /\
    err = (if existsb (fun r => r =? -1) results then 1 else 0) /\
    fds' = (if fst fds >=? 0 then -1 else fst fds,
            if snd fds >=? 0 then -1 else snd fds) /\
    close_pipe fds' w' = (Ret (0, fds'), w').
Proof.
  destruct fds as [fd0 fd1]. cbn [fst snd filter].
  unfold close_pipe. cbn [fst snd].
  destruct (fd0 >=? 0) eqn:E0; destruct (fd1 >=? 0) eqn:E1;
    unfold bind, sys_close, sys, PERROR, ret; cbn [fst snd].
  - set (r0 := a_ret (next w)).
    set (w1 := called (EvClose fd0 r0) w).
    destruct (r0 =? -1) eqn:R0; cbn [fst snd].
    + set (r1 := a_ret (next (say (Perror "close pipe read-end") w1))).
      exists [r0; r1]. destruct (r1 =? -1) eqn:R1; do 3 eexists;
        (split; [reflexivity|]); (split; [reflexivity|]);
        (split; [apply calls_since_new with (new := [EvClose fd1 r1; EvClose fd0 r0]);
                 reflexivity|]);
        cbn [existsb]; rewrite R0; cbn [orb]; (split; [reflexivity|]);
        split; reflexivity.
    + set (r1 := a_ret (next w1)).
      exists [r0; r1]. destruct (r1 =? -1) eqn:R1; do 3 eexists;
        (split; [reflexivity|]); (split; [reflexivity|]);
        (split; [apply calls_since_new with (new := [EvClose fd1 r1; EvClose fd0 r0]);
                 reflexivity|]);
        cbn [existsb]; rewrite R0, R1; cbn [orb]; (split; [reflexivity|]);
        split; reflexivity.
  - set (r0 := a_ret (next w)).
    exists [r0]. destruct (r0 =? -1) eqn:R0; cbn [fst snd]; do 3 eexists;
      (split; [reflexivity|]); (split; [reflexivity|]);
      (split; [apply calls_since_new with (new := [EvClose fd0 r0]); reflexivity|]);
      cbn [existsb]; rewrite R0; cbn [orb]; (split; [reflexivity|]);
      (split; [reflexivity|]); cbn [fst snd]; rewrite E1; reflexivity.
  - set (r1 := a_ret (next w)).
    exists [r1]. destruct (r1 =? -1) eqn:R1; cbn [fst snd]; do 3 eexists;
      (split; [reflexivity|]); (split; [reflexivity|]);
      (split; [apply calls_since_new with (new := [EvClose fd1 r1]); reflexivity|]);
      cbn [existsb]; rewrite R1; cbn [orb]; (split; [reflexivity|]);
      (split; [reflexivity|]); cbn [fst snd]; rewrite E0; reflexivity.
  - exists []. do 3 eexists.
    split; [reflexivity|]. split; [reflexivity|].
    split; [apply calls_since_new with (new := []); reflexivity|].
    split; [reflexivity|]. split; [reflexivity|].
    cbn [fst snd]. rewrite E0, E1. reflexivity.
Qed.


(** ** Namespaces *)

Lemma uchar_NUL (c : ascii) : Ascii.eqb c NUL = false -> (uchar c =? 0) = false.
Proof.
  intros H. apply Z.eqb_neq. intros E. change 0 with (uchar NUL) in E.
  apply uchar_inj in E. subst. now rewrite Ascii.eqb_refl in H.
Qed.

(** [strncmp(lit, name, strlen(lit) + 1) == 0] holds for [name] equal
    to [lit] and for no other string. *)
Lemma same_name_eqb (lit : string) :
  has_char NUL lit = false ->
  forall name, has_char NUL name = false -> same_name lit name = String.eqb lit name.
Proof.
  unfold same_name. induction lit as [|c lit IH]; intros Hl name Hn.
  - destruct name as [|c2 name]; [reflexivity|]. cbn in *.
    apply orb_false_elim in Hn as [Hc _].
    apply uchar_NUL in Hc. apply Z.eqb_neq in Hc. apply Z.eqb_neq. lia.
  - cbn [has_char] in Hl. apply orb_false_elim in Hl as [Hc Hl].
    destruct name as [|c2 name]; cbn [strncmp String.length String.eqb].
    + now apply uchar_NUL.
    + cbn [has_char] in Hn. apply orb_false_elim in Hn as [_ Hn].
      destruct (Ascii.eqb c c2) eqn:E; [now apply IH|now apply uchar_diff].
Qed.

Lemma has_char_NUL_c_str (s : string) : has_char NUL (c_str s) = false.
Proof.
  induction s as [|c s IH]; [reflexivity|]. cbn [c_str].
  destruct (Ascii.eqb c NUL) eqn:E; [reflexivity|]. cbn [has_char]. now rewrite E.
Qed.

Lemma get_namespace_type_table (name : string) (w : world) :
  has_char NUL name = false ->
  match namespace_type_of name with
  | Some t => get_namespace_type name w = (Ret (Some t), w)
  | None =>
    get_namespace_type name w
    = (Ret None, say (Log "unrecognized namespace '%s'\n" [LStr (Some name)]) w)
  end.
Proof.
  intros Hn. unfold get_namespace_type, namespace_type_of, namespace_types.
  cbn [find fst snd]. rewrite !same_name_eqb by (exact Hn || reflexivity).
  repeat match goal with
         | |- context [String.eqb ?a name] => destruct (String.eqb a name); [reflexivity|]
         end.
  reflexivity.
Qed.

Lemma get_clone_flags_loop_spec (items : list (string * json)) :
  forall (flags : Z) (w : world),
    exists (e flags' : Z) (w' : world),
      get_clone_flags_loop items flags w = (Ret (e, flags'), w') /\
      w_trace w' = w_trace w /\ w_tape w' = w_tape w /\
      (e = 0 \/ e = 1) /\
      (e = 0 <-> Forall known_namespace
                        (filter (fun kv => negb (has_path kv)) items)) /\
      (e = 0 ->
       flags' = fold_left Z.lor
                          (map type_of_entry
                               (filter (fun kv => negb (has_path kv)) items))
                          flags).
Proof.
  induction items as [|[key value] items IH]; intros flags w.
  - cbn. exists 0, flags, w. repeat split; auto.
  - cbn [get_clone_flags_loop filter].
    destruct (has_path (key, value)) eqn:Ep; unfold has_path in Ep; cbn [snd] in Ep;
      destruct (json_object_get value "path") as [p|]; try discriminate;
        cbn [negb]; [apply IH|].
    unfold bind.
    pose proof (get_namespace_type_table (c_str key) w (has_char_NUL_c_str key)) as H.
    destruct (namespace_type_of (c_str key)) as [t|] eqn:Et; rewrite H.
    + destruct (IH (Z.lor flags t) w) as (e & flags' & w' & Hrun & Htr & Htp & He & Hk & Hf).
      exists e, flags', w'. split; [exact Hrun|]. split; [exact Htr|].
      split; [exact Htp|]. split; [exact He|]. split.
      * rewrite Hk. split; intros HF.
        -- constructor; [|exact HF]. unfold known_namespace. cbn [fst]. congruence.
        -- now inversion HF.
      * intros E. rewrite (Hf E). cbn [map fold_left].
        replace (type_of_entry (key, value)) with t; [reflexivity|].
        unfold type_of_entry. cbn [fst]. now rewrite Et.
    + eexists 1, flags, _. split; [reflexivity|]. split; [reflexivity|].
      split; [reflexivity|]. split; [now right|]. split; [|discriminate].
      split; [discriminate|]. intros HF. inversion HF as [|x l Hx _]. subst.
      unfold known_namespace in Hx. cbn [fst] in Hx. congruence.
Qed.

(** X3.  [get_clone_flags] adds to [*flags] the type of every entry of
    [namespaces] that has no [path], and of no other entry (those with
    a [path] are joined, not created).  It returns 0 when the name of
    each entry without a path is exactly one of mount, uts, ipc, net,
    pid and user, and 1 otherwise; it makes no call. *)
Theorem clone_flags_of_created_namespaces
        (config namespaces : json) (flags : Z) (w : world) :
  json_object_get config "namespaces" = Some namespaces ->
  exists (e flags' : Z) (w' : world),
    get_clone_flags config flags w = (Ret (e, flags'), w') /\
    w_trace w' = w_trace w /\ w_tape w' = w_tape w /\
    (e = 0 \/ e = 1) /\
    (e = 0 <-> Forall known_namespace (created_namespaces namespaces)) /\
    (e = 0 ->
     flags' = fold_left Z.lor (map type_of_entry (created_namespaces namespaces)) flags).
Proof.
  intros H. unfold get_clone_flags. rewrite H. apply get_clone_flags_loop_spec.
Qed.

Lemma clone_flags_of_created_namespaces_witness :
  (exists (e flags' : Z) (w' : world),
    get_clone_flags two_namespaces_config SIGCHLD (init_world [] [] false)
    = (Ret (e, flags'), w') /\
    w_trace w' = [] /\ w_tape w' = [] /\
    (e = 0 \/ e = 1) /\
    (e = 0 <->
     Forall known_namespace
            (created_namespaces
               (JObject [("pid", JObject []);
                         ("net", JObject [("path", JString "/run/netns/blue")]);
                         ("mount", JObject [])]))) /\
    (e = 0 ->
     flags' = fold_left Z.lor
                        (map type_of_entry
                             (created_namespaces
                                (JObject [("pid", JObject []);
                                          ("net", JObject [("path", JString "/run/netns/blue")]);
                                          ("mount", JObject [])])))
                        SIGCHLD)) /\
  fst (get_clone_flags two_namespaces_config SIGCHLD (init_world [] [] false))
  = Ret (0, 537002001).
Proof.
  split.
  { apply (clone_flags_of_created_namespaces two_namespaces_config). reflexivity. }
  vm_compute. repeat split.
Defined.


Lemma calls_since_refl (w w' : world) : w_trace w' = w_trace w -> calls_since w w' = [].
Proof. intros H. now apply (calls_since_new w w' []). Qed.





(** ** User and groups *)










(** ** Arrays of strings *)

Lemma strdup_each_spec (l : list json) :
  forall (strs : list string) (w : world),
    map json_string_value l = map Some strs ->
    exists w',
      strdup_each l w
      = (Ret (if allocations_succeed (List.length strs) w then Some strs else None), w') /\
      w_trace w' = w_trace w /\ w_tape w' = w_tape w /\ (heap_ok w -> heap_ok w').
Proof.
  unfold allocations_succeed, heap_ok.
  induction l as [|v l IH]; intros strs w H.
  - destruct strs; [|discriminate]. exists w. now cbn.
  - destruct strs as [|s strs]; [discriminate|]. cbn [map] in H.
    injection H as Hv Hl. cbn [strdup_each]. rewrite Hv.
    unfold bind at 1, alloc. cbn [List.length firstn].
    destruct (w_heap w) as [|ok heap] eqn:Eh; cbn [hd tl forallb firstn].
    + set (w1 := mkWorld _ _ _ _ _).
      destruct (IH strs w1 Hl) as (w' & Hrun & Htr & Htp & Hh).
      unfold bind. rewrite Hrun. unfold w1 at 1. cbn [w_heap].
      rewrite firstn_nil. cbn [forallb option_map]. exists w'.
      split; [reflexivity|]. split; [exact Htr|]. split; [exact Htp|].
      intros _. apply Hh. constructor.
    + destruct ok; cbn [andb].
      * set (w1 := mkWorld _ _ _ _ _).
        destruct (IH strs w1 Hl) as (w' & Hrun & Htr & Htp & Hh).
        unfold bind. rewrite Hrun. unfold w1 at 1. cbn [w_heap].
        exists w'. split; [now destruct (forallb _ _)|].
        split; [exact Htr|]. split; [exact Htp|].
        intros Hok. apply Hh. unfold w1. cbn [w_heap]. now inversion Hok.
      * eexists. split; [reflexivity|]. split; [reflexivity|]. split; [reflexivity|].
        intros Hok. inversion Hok. discriminate.
Qed.

Lemma json_array_of_strings_value_spec (array : json) (strs : list string) (w : world) :
  strings_of array strs ->
  exists w',
    json_array_of_strings_value array w
    = (Ret (if allocations_succeed (S (List.length strs)) w then Some strs else None), w') /\
    w_trace w' = w_trace w /\ w_tape w' = w_tape w /\ (heap_ok w -> heap_ok w').
Proof.
  intros H. unfold json_array_of_strings_value, allocations_succeed.
  unfold bind at 1, alloc.
  destruct (w_heap w) as [|ok heap] eqn:Eh; cbn [hd tl firstn forallb].
  - set (w1 := mkWorld _ _ _ _ _).
    destruct (strdup_each_spec _ strs w1 H) as (w' & Hrun & Htr & Htp & Hh).
    rewrite Hrun. unfold allocations_succeed, w1 at 1. cbn [w_heap].
    rewrite firstn_nil. exists w'. split; [reflexivity|]. split; [exact Htr|].
    split; [exact Htp|]. intros _. apply Hh. constructor.
  - destruct ok; cbn [andb].
    + set (w1 := mkWorld _ _ _ _ _).
      destruct (strdup_each_spec _ strs w1 H) as (w' & Hrun & Htr & Htp & Hh).
      rewrite Hrun. exists w'. split; [reflexivity|]. split; [exact Htr|].
      split; [exact Htp|]. intros Hok. apply Hh. unfold w1, heap_ok. cbn [w_heap].
      unfold heap_ok in Hok. rewrite Eh in Hok. now inversion Hok.
    + eexists. split; [reflexivity|]. split; [reflexivity|]. split; [reflexivity|].
      unfold heap_ok. rewrite Eh. intros Hok. inversion Hok. discriminate.
Qed.

Lemma heap_ok_allocations (n : nat) (w : world) :
  heap_ok w -> allocations_succeed n w = true.
Proof.
  unfold heap_ok, allocations_succeed. intros H. revert n.
  induction H as [|b heap Hb _ IH]; intros [|n]; cbn; auto.
  subst b. apply IH.
Qed.

(** X6.  For an array of [n] strings, [json_array_of_strings_value]
    allocates the array and then one copy per string: it gives the
    strings in the order of the array when these [n + 1] allocations
    succeed, and NULL as soon as one of them fails.  It makes no
    call. *)
Theorem json_array_of_strings_value_in_order
        (array : json) (strs : list string) (w : world) :
  strings_of array strs ->
  exists w',
    json_array_of_strings_value array w
    = (Ret (if allocations_succeed (S (List.length strs)) w then Some strs else None), w') /\
    w_trace w' = w_trace w /\ w_tape w' = w_tape w.
Proof.
  intros H.
  destruct (json_array_of_strings_value_spec array strs w H) as (w' & Hrun & Htr & Htp & _).
  exists w'. split; [exact Hrun|]. now split.
Qed.

Lemma json_array_of_strings_value_in_order_witness :
  (exists w',
    json_array_of_strings_value (JArray [JString "/bin/sh"; JString "-c"])
                                (init_world [] [true; true; false] false)
    = (Ret (if allocations_succeed 3 (init_world [] [true; true; false] false)
            then Some ["/bin/sh"; "-c"] else None), w') /\
    w_trace w' = [] /\ w_tape w' = []) /\
  fst (json_array_of_strings_value (JArray [JString "/bin/sh"; JString "-c"])
                                    (init_world [] [true; true; false] false))
  = Ret None /\
  fst (json_array_of_strings_value (JArray [JString "/bin/sh"; JString "-c"])
                                    (init_world [] [true; true; true] false))
  = Ret (Some ["/bin/sh"; "-c"]).
Proof.
  split.
  { apply (json_array_of_strings_value_in_order
             (JArray [JString "/bin/sh"; JString "-c"]) ["/bin/sh"; "-c"]).
    reflexivity. }
  vm_compute. repeat split.
Defined.


(** ** The exec call *)

Lemma says_keeps (lines : list logline) (w : world) :
  w_trace (fold_right say w lines) = w_trace w /\
  w_tape (fold_right say w lines) = w_tape w /\
  w_heap (fold_right say w lines) = w_heap w.
Proof. induction lines; [now repeat split|exact IHlines]. Qed.

Lemma log_each_says (fmt : string) (l : list string) :
  forall w, exists lines, log_each fmt l w = (Ret tt, fold_right say w lines).
Proof.
  induction l as [|s l IH]; intros w; [now exists []|].
  cbn [log_each]. unfold bind, LOG.
  destruct (IH (say (Log fmt [LStr (Some s)]) w)) as (lines & ->).
  exists (lines ++ [Log fmt [LStr (Some s)]]). now rewrite fold_right_app.
Qed.

(** X7.  [exec_process] with arguments and environment that are arrays
    of strings, when its allocations succeed, makes one call: with a
    descriptor of a host executable ([exec_fd >= 0]) it is
    [execveat(exec_fd, "", argv, env, AT_EMPTY_PATH)], and
    [process.path] plays no part; otherwise it is [execvpe] of
    [process.path] when that key is there and of [argv[0]] when it is
    not.  [argv] are the strings of [process.args] in order, [env]
    those of [process.env], or the caller's environment when there is
    no such key.  The process image is replaced unless the call
    returns -1, and then [exec_process] returns. *)
Theorem exec_process_makes_one_exec_call
        (process args : json) (argv : list string) (env : option (list string))
        (exec_fd : Z) (w : world) :
  json_object_get process "args" = Some args ->
  strings_of args argv ->
  env_of process env ->
  heap_ok w ->
  exec_fd >= 0 \/ exec_file process argv <> None ->
  exists w',
    exec_process process exec_fd w
    = (if a_ret (next w) =? -1 then Ret tt else Execd, w') /\
    calls_since w w'
    = [ if exec_fd >=? 0
        then EvExecveat exec_fd "" argv env AT_EMPTY_PATH (a_ret (next w))
        else EvExecvpe (exec_file process argv) argv env (a_ret (next w)) ].
Proof.
  intros Ha Hs He Hh Hf. unfold exec_process. rewrite Ha.
  unfold bind at 1.
  destruct (json_array_of_strings_value_spec args argv w Hs) as (w1 & -> & Htr1 & Htp1 & Hh1).
  rewrite (heap_ok_allocations _ w Hh). specialize (Hh1 Hh).
  unfold bind at 1.
  assert (Henv : exists w2,
             match json_object_get process "env" with
             | Some value => e <- json_array_of_strings_value value ;; ret (option_map Some e)
             | None => ret (Some None)
             end w1 = (Ret (Some env), w2) /\
             w_trace w2 = w_trace w /\ w_tape w2 = w_tape w /\ heap_ok w2).
  { unfold env_of in He. destruct (json_object_get process "env") as [e|].
    - destruct He as (l & -> & Hl). unfold bind.
      destruct (json_array_of_strings_value_spec e l w1 Hl) as (w2 & -> & Htr2 & Htp2 & Hh2).
      rewrite (heap_ok_allocations _ w1 Hh1). exists w2.
      split; [reflexivity|]. split; [congruence|]. split; [congruence|auto].
    - subst env. exists w1. now repeat split. }
  destruct Henv as (w2 & -> & Htr2 & Htp2 & Hh2).
  assert (Hnext : forall w0 lines,
             w_tape w0 = w_tape w -> next (fold_right say w0 lines) = next w).
  { intros w0 lines H0. unfold next. destruct (says_keeps lines w0) as (_ & -> & _).
    now rewrite H0. }
  assert (Hcall : forall w0 lines ev,
             w_trace w0 = w_trace w ->
             calls_since w (called ev (fold_right say w0 lines)) = [ev]).
  { intros w0 lines ev H0. apply (calls_since_new _ _ [ev]). cbn.
    destruct (says_keeps lines w0) as (-> & _). now rewrite H0. }
  assert (Hrun : forall (w0 : world) (first : logline) (file : option string),
             w_tape w0 = w_tape w -> w_trace w0 = w_trace w -> file <> None ->
             exists w',
               (log_each " %s" argv ;;; LOG "\n" [] ;;;
                sys_execvpe file argv env ;;; PERROR "execvpe") (say first w0)
               = (if a_ret (next w) =? -1 then Ret tt else Execd, w') /\
               calls_since w w' = [EvExecvpe file argv env (a_ret (next w))]).
  { intros w0 first file Ht0 Hr0 Hfile. unfold bind at 1.
    destruct (log_each_says " %s" argv (say first w0)) as (lines & ->).
    unfold bind at 1, LOG.
    replace (say (Log "\n" []) (fold_right say (say first w0) lines))
      with (fold_right say w0 (Log "\n" [] :: lines ++ [first]))
      by (cbn [fold_right]; now rewrite fold_right_app).
    unfold bind, sys_execvpe, PERROR. rewrite (Hnext _ _ Ht0).
    destruct file as [f|]; [|now destruct Hfile].
    destruct (a_ret (next w) =? -1); eexists; (split; [reflexivity|]);
      now apply Hcall. }
  destruct (exec_fd >=? 0) eqn:Efd.
  - unfold bind at 1, LOG. unfold bind at 1.
    destruct (log_each_says " %s" argv (say (Log "execute host executable:" []) w2))
      as (lines & ->).
    unfold bind at 1, LOG.
    replace (say (Log "\n" [])
                 (fold_right say (say (Log "execute host executable:" []) w2) lines))
      with (fold_right say w2 (Log "\n" [] :: lines ++ [Log "execute host executable:" []]))
      by (cbn [fold_right]; now rewrite fold_right_app).
    unfold bind, sys_execveat, PERROR. rewrite (Hnext _ _ Htp2).
    destruct (a_ret (next w) =? -1); eexists; (split; [reflexivity|]);
      now apply Hcall.
  - destruct Hf as [Hf|Hf]; [rewrite Z.geb_leb in Efd; apply Z.leb_gt in Efd; lia|].
    unfold exec_file in *.
    destruct (json_object_get process "path") as [value|].
    + destruct (json_string_value value) as [path|]; [|now destruct Hf].
      unfold bind at 1, alloc. rewrite (heap_ok_hd w2 Hh2).
      unfold bind at 1, LOG. now apply Hrun.
    + unfold bind at 1, LOG. now apply Hrun.
Qed.

Lemma exec_process_makes_one_exec_call_witness :
  (exists w',
    exec_process shell_process (-1) (init_world [ans 0] [] false)
    = (if a_ret (next (init_world [ans 0] [] false)) =? -1 then Ret tt else Execd, w') /\
    calls_since (init_world [ans 0] [] false) w'
    = [ if -1 >=? 0
        then EvExecveat (-1) "" ["sh"; "-c"; "true"] None AT_EMPTY_PATH
                        (a_ret (next (init_world [ans 0] [] false)))
        else EvExecvpe (exec_file shell_process ["sh"; "-c"; "true"])
                       ["sh"; "-c"; "true"] None
                       (a_ret (next (init_world [ans 0] [] false))) ]) /\
  (let w := init_world [ans 0] [] false in
   let run := exec_process shell_process (-1) w in
   fst run = Execd /\
   calls_since w (snd run)
   = [EvExecvpe (Some "/bin/busybox") ["sh"; "-c"; "true"] None 0]).
Proof.
  split.
  { apply (exec_process_makes_one_exec_call
             shell_process (JArray [JString "sh"; JString "-c"; JString "true"])).
    - reflexivity.
    - reflexivity.
    - reflexivity.
    - constructor.
    - right. discriminate. }
  vm_compute. repeat split.
Defined.


(** ** The search for a host executable *)






(** ** The change of root *)

Lemma calls_since_are (w w' : world) (calls : list event) :
  w_trace w' = rev calls ++ w_trace w -> calls_since w w' = calls.
Proof. intros H. rewrite (calls_since_new w w' _ H). apply rev_involutive. Qed.

(** X9.  [pivot_root_remove_old] returns 0 only after this sequence of
    calls, each of which returned 0: it makes a temporary directory
    under the new root, changes to the new root, pivots with the
    temporary directory as the place of the old root, changes to "/",
    detaches the old root ([umount2] with MNT_DETACH on the base name
    of the temporary directory) and removes that directory. *)
Theorem pivot_root_remove_old_sequence (new_root : string) (w w' : world) :
  pivot_root_remove_old (Some new_root) w = (Ret 0, w') ->
  exists put_old,
    calls_since w w'
    = [ EvMkdtemp (new_root ++ "/pivot-root.XXXXXX") (Some put_old);
        EvChdir new_root 0;
        EvPivotRoot new_root put_old 0;
        EvChdir "/" 0;
        EvUmount2 (basename put_old) MNT_DETACH 0;
        EvRmdir (basename put_old) 0 ].
Proof.
  unfold pivot_root_remove_old.
  destruct (_ <? 0); [unfold bind, LOG, ret; intros E; discriminate|].
  destruct (_ >=? MAX_PATH); [unfold bind, LOG, ret; intros E; discriminate|].
  unfold bind at 1, sys_mkdtemp, sys.
  destruct (str_result (next w)) as [put_old|] eqn:Ed;
    [|unfold bind, PERROR, ret; intros E; discriminate].
  set (w1 := called _ w).
  unfold bind at 1, sys_chdir, sys.
  destruct (a_ret (next w1) =? 0) eqn:E1; cbn [negb];
    [|unfold bind, PERROR, undefined; intros E; discriminate].
  set (w2 := called _ w1).
  unfold bind at 1, LOG. unfold bind at 1, sys_pivot_root, sys.
  set (w2' := say _ w2).
  destruct (a_ret (next w2') =? 0) eqn:E2; cbn [negb].
  2:{ unfold bind, PERROR, sys_rmdir, sys, ret.
      destruct (negb _); intros E; discriminate. }
  set (w3 := called _ w2').
  unfold bind at 1. unfold bind at 1, sys_chdir, sys.
  destruct (a_ret (next w3) =? 0) eqn:E3; cbn [negb].
  2:{ unfold bind, PERROR, sys_rmdir, sys, ret.
      destruct (negb _); intros E; discriminate. }
  set (w4 := called _ w3).
  unfold bind at 1, LOG. unfold bind at 1, sys_umount2, sys.
  set (w4' := say _ w4).
  destruct (a_ret (next w4') =? 0) eqn:E4; cbn [negb].
  2:{ unfold bind, PERROR, sys_rmdir, sys, ret.
      destruct (negb _); intros E; discriminate. }
  unfold ret at 1. unfold bind, sys_rmdir, sys, PERROR, ret.
  set (w5 := called _ w4').
  destruct (a_ret (next w5) =? 0) eqn:E5; cbn [negb]; [|intros E; discriminate].
  intros E. injection E as <-. exists put_old.
  apply Z.eqb_eq in E1, E2, E3, E4, E5.
  rewrite <- E1 at 1. rewrite <- E2 at 1. rewrite <- E3 at 1.
  rewrite <- E4 at 1. rewrite <- E5 at 1.
  apply calls_since_are. reflexivity.
Qed.

Lemma pivot_root_remove_old_sequence_witness :
  (exists put_old,
    calls_since (init_world pivot_tape [] false)
                (snd (pivot_root_remove_old (Some "/rootfs")
                                            (init_world pivot_tape [] false)))
    = [ EvMkdtemp ("/rootfs" ++ "/pivot-root.XXXXXX") (Some put_old);
        EvChdir "/rootfs" 0;
        EvPivotRoot "/rootfs" put_old 0;
        EvChdir "/" 0;
        EvUmount2 (basename put_old) MNT_DETACH 0;
        EvRmdir (basename put_old) 0 ]) /\
  (let w := init_world pivot_tape [] false in
   let run := pivot_root_remove_old (Some "/rootfs") w in
   fst run = Ret 0 /\
   calls_since w (snd run)
   = [EvMkdtemp "/rootfs/pivot-root.XXXXXX" (Some "/rootfs/pivot-root.Ab12Cd");
      EvChdir "/rootfs" 0;
      EvPivotRoot "/rootfs" "/rootfs/pivot-root.Ab12Cd" 0;
      EvChdir "/" 0;
      EvUmount2 "pivot-root.Ab12Cd" 2 0;
      EvRmdir "pivot-root.Ab12Cd" 0]).
Proof.
  split.
  { apply (pivot_root_remove_old_sequence "/rootfs"). reflexivity. }
  vm_compute. repeat split.
Defined.


(** ** [getline_fd], whatever it is given to read *)

Lemma getline_fd_loop_line (fd : Z) (fuel : nat) :
  forall (buf : option (list ascii)) (l1 : list ascii) (n : Z) (w : world),
    buf = Some l1 \/ (buf = None /\ l1 = [] /\ n = 0) ->
    getline_max <= Z.of_nat (List.length l1) + Z.of_nat fuel ->
    Z.of_nat (List.length l1) < getline_max ->
    exists (r : Z) (buf' : option (list ascii)) (n' : Z) (w' : world),
      getline_fd_loop fuel buf n fd (Z.of_nat (List.length l1)) w
      = (Ret (r, (buf', n')), w') /\
      (r = -1 \/
       exists l2,
         buf' = Some (l1 ++ l2 ++ [newline]) /\
         r = Z.of_nat (List.length (l1 ++ l2 ++ [newline])) /\
         Forall (fun b => Ascii.eqb b newline = false) l2 /\
         r < getline_max /\
         w_trace w' = rev (map (EvRead fd 1) (l2 ++ [newline])) ++ w_trace w).
Proof.
  induction fuel as [|fuel IH]; intros buf l1 n w Hbuf Hfuel Hsize; [lia|].
  cbn [getline_fd_loop].
  set (size := Z.of_nat (List.length l1)) in *.
  assert (Hgrown :
            exists (g : option (option (list ascii) * Z)) (w0 : world),
              (if size =? n then
                 ok <- alloc ;;
                 (if ok
                  then ret (Some (Some (match buf with Some l => l | None => [] end),
                                  n + getline_block))
                  else PERROR "realloc" ;;; ret None)
               else ret (Some (buf, n))) w = (Ret g, w0) /\
              w_trace w0 = w_trace w /\
              match g with
              | None => True
              | Some (b, _) => b = Some l1
              end).
  { destruct (size =? n) eqn:En.
    - unfold bind, alloc, PERROR, ret. destruct (hd true (w_heap w)); do 2 eexists;
        (split; [reflexivity|]); (split; [reflexivity|]); [|exact I].
      destruct Hbuf as [->|(-> & -> & _)]; reflexivity.
    - unfold ret. do 2 eexists. split; [reflexivity|]. split; [reflexivity|].
      destruct Hbuf as [->|(-> & -> & ->)]; [reflexivity|].
      unfold size in En. cbn in En. discriminate. }
  destruct Hgrown as (g & w0 & Hg & Htr0 & Hb).
  unfold bind at 1. rewrite Hg.
  destruct g as [[b n0]|]; [subst b|do 4 eexists; split; [reflexivity|now left]].
  unfold bind at 1, sys_read1, sys.
  set (s := a_ret (next w0)). generalize (a_byte (next w0)). intros c.
  destruct (s =? -1) eqn:Es1; [do 4 eexists; split; [reflexivity|now left]|].
  destruct (s =? 1) eqn:Es; cbn [negb]; [|do 4 eexists; split; [reflexivity|now left]].
  apply Z.eqb_eq in Es. rewrite Es.
  set (w1 := called (EvRead fd 1 c) w0).
  unfold size. rewrite Nat2Z.id, store_at_end.
  fold size.
  destruct (size + 1 >=? getline_max) eqn:Emax;
    [do 4 eexists; split; [reflexivity|now left]|].
  assert (Hlen : size + 1 = Z.of_nat (List.length (l1 ++ [c]))).
  { rewrite length_app. cbn [List.length]. unfold size. lia. }
  rewrite Z.geb_leb in Emax. apply Z.leb_gt in Emax.
  destruct (Ascii.eqb c newline) eqn:Ec.
  - apply Ascii.eqb_eq in Ec. subst c. do 4 eexists. split; [reflexivity|].
    right. exists []. cbn [app]. split; [reflexivity|]. split; [exact Hlen|].
    split; [constructor|]. split; [lia|]. cbn. now rewrite Htr0.
  - rewrite Hlen.
    destruct (IH (Some (l1 ++ [c])) (l1 ++ [c]) n0 w1) as (r & buf' & n' & w' & Hrun & Hr).
    + now left.
    + rewrite <- Hlen. unfold size. lia.
    + rewrite <- Hlen. lia.
    + exists r, buf', n', w'. split; [exact Hrun|].
      destruct Hr as [Hr|(l2 & Hb & Hr & Hnl & Hlt & Htr)]; [now left|].
      right. exists (c :: l2). rewrite <- app_assoc in Hb, Hr. split; [exact Hb|].
      split; [exact Hr|]. split; [now constructor|]. split; [exact Hlt|].
      rewrite Htr. cbn [app map rev]. rewrite <- app_assoc. cbn. now rewrite Htr0.
Qed.

Lemma getline_fd_spec (fd : Z) (w : world) :
  exists (r : Z) (buf : option (list ascii)) (n : Z) (w' : world),
    getline_fd None 0 fd w = (Ret (r, (buf, n)), w') /\
    (r = -1 \/
     exists l,
       buf = Some (l ++ [newline]) /\
       r = Z.of_nat (List.length (l ++ [newline])) /\
       Forall (fun b => Ascii.eqb b newline = false) l /\
       r < 16384 /\
       w_trace w' = rev (map (EvRead fd 1) (l ++ [newline])) ++ w_trace w).
Proof.
  unfold getline_fd.
  destruct (getline_fd_loop_line fd (Z.to_nat getline_max) None [] 0 w)
    as (r & buf & n & w' & Hrun & Hr).
  - right. auto.
  - cbn. unfold getline_max. lia.
  - cbn. unfold getline_max. lia.
  - exists r, buf, n, w'. split; [exact Hrun|].
    destruct Hr as [Hr|(l & Hb & Hr & Hnl & Hlt & Htr)]; [now left|].
    right. exists l. cbn [app] in Hb, Hr. repeat split; auto.
Qed.

(** X10.  [getline_fd], called as the handshake does (no buffer yet),
    always returns, whatever the descriptor gives it to read.  When
    it does not return -1 it returns the number of bytes of a whole
    line: the buffer holds that many bytes, the last one is a line
    feed and no other is, there are fewer than 16384 of them, and
    they were read one byte per [read] call, so that nothing behind
    the line feed has been taken from the descriptor.  An end of
    file, a failed [read] or a failed [realloc] in the middle of a
    line gives -1, never a part of a line. *)
Theorem getline_fd_returns_whole_lines (fd : Z) (w : world) :
  exists (r : Z) (buf : option (list ascii)) (n : Z) (w' : world),
    getline_fd None 0 fd w = (Ret (r, (buf, n)), w') /\
    (r = -1 \/
     exists l,
       buf = Some (l ++ [newline]) /\
       r = Z.of_nat (List.length (l ++ [newline])) /\
       Forall (fun b => Ascii.eqb b newline = false) l /\
       r < 16384 /\
       calls_since w w' = map (EvRead fd 1) (l ++ [newline])).
Proof.
  destruct (getline_fd_spec fd w) as (r & buf & n & w' & Hrun & Hr).
  exists r, buf, n, w'. split; [exact Hrun|].
  destruct Hr as [Hr|(l & Hb & Hr & Hnl & Hlt & Htr)]; [now left|].
  right. exists l. repeat split; auto. now apply calls_since_are.
Qed.


(** ** The container before the exec call *)

Lemma emits_open_in_path_loop name flags tokens :
  emits container_setup_call (open_in_path_loop name flags tokens).
Proof.
  induction tokens as [|p tokens IH]; cbn [open_in_path_loop]; unfold sys_open;
    emits_tac. exact IH.
Qed.

Lemma emits_open_in_path name flags : emits container_setup_call (open_in_path name flags).
Proof.
  unfold open_in_path, sys_open, sys_getcwd, sys_getenv.
  repeat first [apply emits_open_in_path_loop | emits_step].
Qed.

Lemma emits_get_host_exec_fd config exec_fd :
  emits container_setup_call (get_host_exec_fd config exec_fd).
Proof.
  unfold get_host_exec_fd. repeat first [apply emits_open_in_path | emits_step].
Qed.

Lemma emits_get_namespace_type (Q : event -> Prop) name :
  emits Q (get_namespace_type name).
Proof. unfold get_namespace_type. emits_tac. Qed.

Lemma emits_join_namespaces_loop items :
  emits container_setup_call (join_namespaces_loop items).
Proof.
  induction items as [|[key value] items IH]; cbn [join_namespaces_loop];
    unfold sys_open, sys_setns, sys_close;
    repeat first [apply emits_get_namespace_type | exact IH | emits_step].
Qed.

Lemma emits_join_namespaces config : emits container_setup_call (join_namespaces config).
Proof.
  unfold join_namespaces. repeat first [apply emits_join_namespaces_loop | emits_step].
Qed.

Lemma emits_get_mount_flag (Q : event -> Prop) P name : emits Q (get_mount_flag P name).
Proof. unfold get_mount_flag. emits_tac. Qed.

Lemma emits_mount_flags_loop (Q : event -> Prop) P i values :
  forall j flags, emits Q (mount_flags_loop P i j values flags).
Proof.
  induction values as [|v values IH]; intros j flags; cbn [mount_flags_loop];
    repeat first [apply emits_get_mount_flag | apply IH | emits_step].
Qed.

Lemma emits_pivot_root_remove_old new_root :
  emits container_setup_call (pivot_root_remove_old new_root).
Proof.
  unfold pivot_root_remove_old, sys_mkdtemp, sys_chdir, sys_pivot_root, sys_rmdir,
    sys_umount2. cbv zeta. emits_tac.
Qed.

Lemma emits_mount_entry P cwd i mt full_source :
  emits container_setup_call (mount_entry P cwd i mt full_source).
Proof.
  unfold mount_entry, mount_source, mount_target, deref, sys_mount. cbv zeta.
  repeat first [apply emits_mount_flags_loop | apply emits_pivot_root_remove_old
               | emits_step].
Qed.

Lemma emits_handle_mounts_loop P cwd mounts :
  forall i full_source,
    emits container_setup_call (handle_mounts_loop P cwd i mounts full_source).
Proof.
  induction mounts as [|mt mounts IH]; intros i full_source; cbn [handle_mounts_loop];
    repeat first [apply emits_mount_entry | apply IH | emits_step].
Qed.

Lemma emits_handle_mounts P config : emits container_setup_call (handle_mounts P config).
Proof.
  unfold handle_mounts, sys_getcwd.
  repeat first [apply emits_handle_mounts_loop | emits_step].
Qed.

Lemma emits_set_working_directory config :
  emits container_setup_call (set_working_directory config).
Proof. unfold set_working_directory, sys_chdir. emits_tac. Qed.

Lemma emits_log_groups (Q : event -> Prop) groups : emits Q (log_groups groups).
Proof.
  induction groups as [|g groups IH]; cbn [log_groups]; [apply emits_ret|].
  apply emits_bind; [apply emits_LOG|intros _].
  destruct groups; [apply emits_ret|].
  apply emits_bind; [apply emits_LOG|intros _; exact IH].
Qed.

Lemma emits_set_user_group config : emits container_setup_call (set_user_group config).
Proof.
  unfold set_user_group, sys_setgid, sys_setgroups, sys_setuid. cbv zeta.
  repeat first [apply emits_log_groups | emits_step].
Qed.

Lemma emits_set_capabilities_loop P values :
  forall i, emits container_setup_call (set_capabilities_loop P i values).
Proof.
  induction values as [|v values IH]; intros i; cbn [set_capabilities_loop];
    unfold capng_update; cbv zeta; repeat first [apply IH | emits_step].
Qed.

Lemma emits_set_capabilities P config :
  emits container_setup_call (set_capabilities P config).
Proof.
  unfold set_capabilities, capng_clear, capng_apply.
  repeat first [apply emits_set_capabilities_loop | emits_step].
Qed.

Lemma emits_exec_container_process config exec_fd :
  emits no_message (exec_container_process config exec_fd).
Proof.
  unfold exec_container_process, exec_process, json_array_of_strings_value.
  repeat first [apply emits_strdup_each | apply emits_log_each | emits_step].
Qed.

Lemma emits_handle_child_cleanup (Q : event -> Prop) exec_fd err fds :
  (forall fd r, Q (EvClose fd r)) -> emits Q (handle_child_cleanup exec_fd err fds).
Proof. intros H. unfold handle_child_cleanup, sys_close. emits_tac. Qed.

Lemma setup_call_not_exec (e : event) : setup_call e -> is_exec e = false.
Proof. destruct e; cbn; intros H; try reflexivity; destruct H. Qed.

Lemma container_setup_call_not_exec (e : event) :
  container_setup_call e -> is_exec e = false.
Proof. destruct e; cbn; intros H; try reflexivity; destruct H. Qed.

Lemma container_setup_call_no_message (e : event) :
  container_setup_call e -> no_message e.
Proof. destruct e; cbn; auto. Qed.

Lemma list_ascii_line (s : string) :
  list_ascii_of_string (line s) = list_ascii_of_string s ++ [newline].
Proof. unfold line. induction s as [|c s IH]; cbn; [reflexivity|now rewrite IH]. Qed.

(** A line that [getline_fd] returned and that [strncmp] finds equal
    to a message is that message. *)
Lemma handshake_line (lit : string) (l : list ascii) :
  has_char NUL lit = false -> has_char newline lit = false ->
  Forall (fun b => Ascii.eqb b newline = false) l ->
  exists c,
    strncmp_buf (line lit) (l ++ [newline]) (String.length (line lit)) = Some c /\
    (c = 0 -> l ++ [newline] = list_ascii_of_string (line lit)).
Proof.
  intros H0 Hn Hl. destruct (strncmp_buf_line lit H0 Hn l Hl) as (c & Hc & Hiff).
  exists c. split; [exact Hc|]. intros E. rewrite list_ascii_line.
  now rewrite (proj1 Hiff E).
Qed.

(** Where a run of the container stands, seen from the world [w] it
    started in: [quiet w w'] when no exec call has been made since. *)
Lemma quiet_step (Q : event -> Prop) (w w0 w1 : world) :
  (forall e, Q e -> is_exec e = false) ->
  (exists new, w_trace w0 = new ++ w_trace w /\
               Forall (fun e => is_exec e = false) new) ->
  only Q (w_trace w0) (w_trace w1) ->
  exists new, w_trace w1 = new ++ w_trace w /\
              Forall (fun e => is_exec e = false) new.
Proof.
  intros HQ (new0 & Htr0 & Hn0) H.
  apply only_app in H as (new & -> & Hn). exists (new ++ new0).
  split; [rewrite Htr0; now rewrite app_assoc|].
  apply Forall_app. split; [|exact Hn0].
  eapply Forall_impl; [|exact Hn]. exact HQ.
Qed.

Lemma quiet_leaf {A} (m : M A) (w w0 w' : world) (o : outcome A) :
  emits container_setup_call m ->
  (exists new, w_trace w0 = new ++ w_trace w /\
               Forall (fun e => is_exec e = false) new) ->
  m w0 = (o, w') ->
  exists new, w_trace w' = new ++ w_trace w /\
              Forall (fun e => is_exec e = false) new.
Proof.
  intros Hm H0 Em. pose proof (Hm w0) as H. rewrite Em in H. cbn [snd] in H.
  exact (quiet_step _ w w0 w' container_setup_call_not_exec H0 H).
Qed.

Lemma emits_cleanup exec_fd err fds :
  emits container_setup_call (handle_child_cleanup exec_fd err fds).
Proof. apply emits_handle_child_cleanup. intros; exact I. Qed.

Lemma emits_logged_cleanup fmt args exec_fd err fds :
  emits container_setup_call (LOG fmt args ;;; handle_child_cleanup exec_fd err fds).
Proof. apply emits_bind; [apply emits_LOG|intros _; apply emits_cleanup]. Qed.

Lemma emits_perror_cleanup msg exec_fd err fds :
  emits container_setup_call (PERROR msg ;;; handle_child_cleanup exec_fd err fds).
Proof. apply emits_bind; [apply emits_PERROR|intros _; apply emits_cleanup]. Qed.

Lemma handle_child_exec_spec (P : platform) (config : json) (from_parent exec_fd : Z)
      (w : world) :
  forall o w',
    handle_child_exec P config from_parent exec_fd w = (o, w') ->
    (exists new, w_trace w' = new ++ w_trace w /\
                 Forall (fun e => is_exec e = false) new) \/
    (exists tail c,
        w_trace w'
        = tail ++ EvClose from_parent c
               :: rev (map (EvRead from_parent 1) (list_ascii_of_string EXEC_PROCESS))
               ++ w_trace w /\
        Forall no_message tail).
Proof.
  intros o w'. unfold handle_child_exec. unfold bind at 1.
  pose proof (emits_getline_fd None 0 from_parent w) as E1.
  destruct (getline_fd_spec from_parent w) as (r & buf & n & w1 & Hrun & Hr).
  rewrite Hrun in E1 |- *. cbn [snd] in E1.
  assert (H1 : exists new, w_trace w1 = new ++ w_trace w /\
                           Forall (fun e => is_exec e = false) new).
  { apply (quiet_step setup_call w w w1 setup_call_not_exec); [|exact E1].
    exists []. now split. }
  destruct (r =? -1) eqn:Er.
  { intros E. left. exact (quiet_leaf _ w w1 w' o (emits_cleanup _ _ _) H1 E). }
  destruct Hr as [Hr|(l & -> & Hlen & Hnl & _ & Htr1)]; [subst r; discriminate|].
  destruct (handshake_line "exec-process" l eq_refl eq_refl Hnl) as (c & Hc & Hl).
  change (line "exec-process") with EXEC_PROCESS in Hc, Hl. rewrite Hc.
  destruct (c =? 0) eqn:Ec; cbn [negb].
  2:{ intros E. left.
      exact (quiet_leaf _ w w1 w' o (emits_logged_cleanup _ _ _ _ _) H1 E). }
  apply Z.eqb_eq in Ec. rewrite (Hl Ec) in Htr1.
  unfold bind at 1, sys_close, sys.
  set (c' := a_ret (next w1)). set (w2 := called (EvClose from_parent c') w1).
  intros E. right.
  assert (Hrest : forall (m : M (Z * (Z * Z))),
             emits no_message m -> m w2 = (o, w') ->
             exists tail c0,
               w_trace w'
               = tail ++ EvClose from_parent c0
                      :: rev (map (EvRead from_parent 1)
                                  (list_ascii_of_string EXEC_PROCESS))
                      ++ w_trace w /\
               Forall no_message tail).
  { intros m Hm Em. pose proof (Hm w2) as H. rewrite Em in H. cbn [snd] in H.
    apply only_app in H as (tail & -> & Ht). exists tail, c'.
    split; [|exact Ht]. unfold w2. cbn [called w_trace]. now rewrite Htr1. }
  revert E. apply Hrest.
  assert (Hc' : forall err fds, emits no_message (handle_child_cleanup exec_fd err fds))
    by (intros; apply emits_handle_child_cleanup; intros; exact I).
  assert (Hw : forall {A} (m : M A), emits container_setup_call m -> emits no_message m)
    by (intros A m; apply emits_weaken; exact container_setup_call_no_message).
  repeat first [ apply Hc'
               | apply emits_bind;
                 [ first [ apply emits_exec_container_process
                         | apply Hw; first [ apply emits_set_working_directory
                                           | apply emits_set_user_group
                                           | apply emits_set_capabilities ]
                         | apply emits_PERROR ]
                 | intros ? ]
               | match goal with
                 | |- emits _ (if ?b then _ else _) => destruct b
                 end ].
Qed.

Lemma handle_child_spec (P : platform) (config : json) (to_parent from_parent : Z)
      (w : world) :
  forall o w',
    handle_child P config to_parent from_parent w = (o, w') ->
    (exists new, w_trace w' = new ++ w_trace w /\
                 Forall (fun e => is_exec e = false) new) \/
    (exists tail c mid c' n,
        w_trace w'
        = tail ++ EvClose from_parent c
               :: rev (map (EvRead from_parent 1) (list_ascii_of_string EXEC_PROCESS))
               ++ EvClose to_parent c'
               :: EvWrite to_parent CONTAINER_SETUP_COMPLETE n
               :: mid
               ++ rev (map (EvRead from_parent 1)
                           (list_ascii_of_string USER_NAMESPACE_MAPPING_COMPLETE))
               ++ w_trace w /\
        n = strlen CONTAINER_SETUP_COMPLETE /\
        Forall container_setup_call mid /\
        Forall no_message tail).
Proof.
  intros o w'. unfold handle_child. unfold bind at 1.
  pose proof (emits_getline_fd None 0 from_parent w) as E1.
  destruct (getline_fd_spec from_parent w) as (r & buf & n & w1 & Hrun & Hr).
  rewrite Hrun in E1 |- *. cbn [snd] in E1.
  assert (H1 : exists new, w_trace w1 = new ++ w_trace w /\
                           Forall (fun e => is_exec e = false) new).
  { apply (quiet_step setup_call w w w1 setup_call_not_exec); [|exact E1].
    exists []. now split. }
  destruct (r =? -1) eqn:Er.
  { intros E. left. exact (quiet_leaf _ w w1 w' o (emits_cleanup _ _ _) H1 E). }
  destruct Hr as [Hr|(l & -> & Hlen & Hnl & _ & Htr1)]; [subst r; discriminate|].
  destruct (handshake_line "user-namespace-mapping-complete" l eq_refl eq_refl Hnl)
    as (c & Hc & Hl).
  change (line "user-namespace-mapping-complete")
    with USER_NAMESPACE_MAPPING_COMPLETE in Hc, Hl. rewrite Hc.
  destruct (c =? 0) eqn:Ec; cbn [negb].
  2:{ intros E. left.
      exact (quiet_leaf _ w w1 w' o (emits_logged_cleanup _ _ _ _ _) H1 E). }
  apply Z.eqb_eq in Ec. rewrite (Hl Ec) in Htr1. clear H1 E1.
  (* the set-up *)
  unfold bind at 1.
  pose proof (emits_get_host_exec_fd config (-1) w1) as M2.
  destruct (get_host_exec_fd config (-1) w1) as [o2 w2]. cbn [snd] in M2.
  assert (Q2 : exists new, w_trace w2 = new ++ w_trace w /\
                           Forall (fun e => is_exec e = false) new).
  { apply (quiet_step container_setup_call w w1 w2 container_setup_call_not_exec);
      [|exact M2].
    eexists. split; [exact Htr1|]. apply Forall_rev, Forall_map, Forall_forall.
    reflexivity. }
  assert (Hstop : forall (o0 : outcome (Z * (Z * Z))) (w0 : world),
             (exists new, w_trace w0 = new ++ w_trace w /\
                          Forall (fun e => is_exec e = false) new) ->
             (o0, w0) = (o, w') ->
             (exists new, w_trace w' = new ++ w_trace w /\
                          Forall (fun e => is_exec e = false) new) \/
             (exists tail c mid c' n,
                 w_trace w'
                 = tail ++ EvClose from_parent c
                        :: rev (map (EvRead from_parent 1)
                                    (list_ascii_of_string EXEC_PROCESS))
                        ++ EvClose to_parent c'
                        :: EvWrite to_parent CONTAINER_SETUP_COMPLETE n
                        :: mid
                        ++ rev (map (EvRead from_parent 1)
                                    (list_ascii_of_string USER_NAMESPACE_MAPPING_COMPLETE))
                        ++ w_trace w /\
                 n = strlen CONTAINER_SETUP_COMPLETE /\
                 Forall container_setup_call mid /\
                 Forall no_message tail))
    by (intros o0 w0 H0 E0; injection E0 as <- <-; now left).
  destruct o2 as [[e exec_fd]| | | |]; try (apply Hstop; exact Q2).
  destruct (negb (e =? 0)); [apply Hstop; exact Q2|].
  unfold bind at 1.
  pose proof (emits_join_namespaces config w2) as M3.
  destruct (join_namespaces config w2) as [o3 w3]. cbn [snd] in M3.
  pose proof (only_trans _ _ _ _ M2 M3) as M13.
  assert (Q3 : exists new, w_trace w3 = new ++ w_trace w /\
                           Forall (fun e => is_exec e = false) new)
    by exact (quiet_step _ w w2 w3 container_setup_call_not_exec Q2 M3).
  destruct o3 as [r3| | | |]; try (apply Hstop; exact Q3).
  destruct (negb (r3 =? 0)).
  { intros E. left. exact (quiet_leaf _ w w3 w' o (emits_cleanup _ _ _) Q3 E). }
  unfold bind at 1.
  pose proof (emits_handle_mounts P config w3) as M4.
  destruct (handle_mounts P config w3) as [o4 w4]. cbn [snd] in M4.
  pose proof (only_trans _ _ _ _ M13 M4) as M14.
  assert (Q4 : exists new, w_trace w4 = new ++ w_trace w /\
                           Forall (fun e => is_exec e = false) new)
    by exact (quiet_step _ w w3 w4 container_setup_call_not_exec Q3 M4).
  destruct o4 as [r4| | | |]; try (apply Hstop; exact Q4).
  destruct (negb (r4 =? 0)).
  { intros E. left. exact (quiet_leaf _ w w4 w' o (emits_cleanup _ _ _) Q4 E). }
  (* the message to the host *)
  unfold bind at 1, sys_write, sys.
  set (n4 := a_ret (next w4)).
  set (w5 := called (EvWrite to_parent CONTAINER_SETUP_COMPLETE n4) w4).
  assert (Q5 : exists new, w_trace w5 = new ++ w_trace w /\
                           Forall (fun e => is_exec e = false) new).
  { destruct Q4 as (new & Hn & HF). exists (EvWrite to_parent CONTAINER_SETUP_COMPLETE n4 :: new).
    split; [unfold w5; cbn; now rewrite Hn|now constructor]. }
  destruct (short_write n4 CONTAINER_SETUP_COMPLETE) eqn:Esw.
  { intros E. left.
    exact (quiet_leaf _ w w5 w' o (emits_perror_cleanup _ _ _ _) Q5 E). }
  unfold bind at 1, sys_close, sys.
  set (c5 := a_ret (next w5)). set (w6 := called (EvClose to_parent c5) w5).
  assert (Q6 : exists new, w_trace w6 = new ++ w_trace w /\
                           Forall (fun e => is_exec e = false) new).
  { destruct Q5 as (new & Hn & HF). exists (EvClose to_parent c5 :: new).
    split; [unfold w6; cbn [called w_trace]; now rewrite Hn|now constructor]. }
  destruct (c5 =? -1).
  { intros E. left.
    exact (quiet_leaf _ w w6 w' o (emits_perror_cleanup _ _ _ _) Q6 E). }
  (* the word of the host, and the exec *)
  intros E. apply handle_child_exec_spec in E as [(new & Hn & HF)|(tail & c6 & Ht & HF)].
  - left. destruct Q6 as (new6 & Hn6 & HF6). exists (new ++ new6).
    split; [rewrite Hn, Hn6; now rewrite app_assoc|]. apply Forall_app. now split.
  - right. apply only_app in M14 as (mid & Hmid & HFmid).
    exists tail, c6, mid, c5, n4. split.
    + rewrite Ht. unfold w6, w5. cbn [called w_trace]. rewrite Hmid, Htr1.
      reflexivity.
    + split; [|now split]. unfold short_write in Esw.
      apply orb_false_elim in Esw as [_ Esw]. apply negb_false_iff in Esw.
      now apply Z.eqb_eq in Esw.
Qed.

Lemma until_exec_app (a b : list event) :
  Forall (fun e => is_exec e = false) a -> until_exec (a ++ b) = a ++ until_exec b.
Proof. induction 1 as [|e a He _ IH]; cbn; [reflexivity|]. now rewrite He, IH. Qed.

Lemma until_exec_no_message (l : list event) :
  Forall no_message l -> Forall no_message (until_exec l).
Proof.
  induction 1 as [|e l He _ IH]; cbn; [constructor|].
  destruct (is_exec e); now constructor.
Qed.

Lemma bytes_read_app (fd : Z) (a b : list event) :
  bytes_read fd (a ++ b) = bytes_read fd a ++ bytes_read fd b.
Proof. unfold bytes_read. apply flat_map_app. Qed.

Lemma bytes_read_reads (fd : Z) (l : list ascii) :
  bytes_read fd (map (EvRead fd 1) l) = l.
Proof.
  induction l as [|b l IH]; [reflexivity|]. cbn. rewrite Z.eqb_refl. cbn.
  f_equal. exact IH.
Qed.

Lemma bytes_read_no_message (fd : Z) (l : list event) :
  Forall no_message l -> bytes_read fd l = [].
Proof.
  induction 1 as [|e l He _ IH]; [reflexivity|]. cbn.
  change (flat_map _ l) with (bytes_read fd l). rewrite IH.
  destruct e; try reflexivity; destruct He.
Qed.

(** The shape of a trace with the whole handshake in it. *)
Lemma handshake_in_history (from_parent to_parent c c' n : Z) (data : string)
      (l1 l2 : list ascii) (tail mid : list event) :
  Forall container_setup_call mid ->
  Forall no_message tail ->
  exists before after,
    until_exec (rev (tail ++ EvClose from_parent c
                          :: rev (map (EvRead from_parent 1) l2)
                          ++ EvClose to_parent c'
                          :: EvWrite to_parent data n
                          :: mid
                          ++ rev (map (EvRead from_parent 1) l1)))
    = before ++ EvWrite to_parent data n :: after /\
    bytes_read from_parent before = l1 /\
    bytes_read from_parent after = l2.
Proof.
  intros Hmid Htail.
  set (line1 := map (EvRead from_parent 1) l1).
  set (line2 := map (EvRead from_parent 1) l2).
  set (wr := EvWrite to_parent data n).
  assert (E : rev (tail ++ EvClose from_parent c :: rev line2
                        ++ EvClose to_parent c' :: wr :: mid ++ rev line1)
              = (line1 ++ rev mid ++ wr :: EvClose to_parent c' :: line2
                       ++ [EvClose from_parent c]) ++ rev tail).
  { rewrite rev_app_distr. cbn [rev]. rewrite !rev_app_distr. cbn [rev].
    rewrite !rev_app_distr, !rev_involutive. cbn [rev app].
    rewrite <- !app_assoc. cbn [app]. rewrite <- !app_assoc. reflexivity. }
  rewrite E. clear E.
  assert (Hl1 : Forall (fun e => is_exec e = false) line1)
    by (apply Forall_map, Forall_forall; reflexivity).
  assert (Hl2 : Forall (fun e => is_exec e = false) line2)
    by (apply Forall_map, Forall_forall; reflexivity).
  assert (Hm : Forall (fun e => is_exec e = false) (rev mid)).
  { apply Forall_rev. eapply Forall_impl; [|exact Hmid].
    exact container_setup_call_not_exec. }
  rewrite until_exec_app.
  2:{ repeat (apply Forall_app; split; auto).
      constructor; [reflexivity|]. constructor; [reflexivity|].
      apply Forall_app. split; [exact Hl2|]. constructor; [reflexivity|constructor]. }
  exists (line1 ++ rev mid),
         (EvClose to_parent c' :: line2 ++ [EvClose from_parent c]
                  ++ until_exec (rev tail)).
  split; [rewrite <- !app_assoc; cbn [app]; rewrite <- !app_assoc; reflexivity|].
  split.
  - rewrite bytes_read_app. unfold line1. rewrite bytes_read_reads.
    rewrite (bytes_read_no_message from_parent (rev mid)); [apply app_nil_r|].
    apply Forall_rev. eapply Forall_impl; [|exact Hmid].
    exact container_setup_call_no_message.
  - change (EvClose to_parent c' :: line2 ++ [EvClose from_parent c]
                    ++ until_exec (rev tail))
      with ([EvClose to_parent c'] ++ line2 ++ [EvClose from_parent c]
                                   ++ until_exec (rev tail)).
    rewrite !bytes_read_app. unfold line2. rewrite bytes_read_reads.
    rewrite (bytes_read_no_message from_parent (until_exec (rev tail)))
      by (apply until_exec_no_message, Forall_rev, Htail).
    cbn [bytes_read flat_map app]. rewrite ?app_nil_r. reflexivity.
Qed.

(** X11.  The container process makes no exec call before the
    handshake with the host is over.  In every run of [handle_child]
    with an exec call, the calls before the first exec call hold a
    complete [write] of the line container-setup-complete to the
    host; what the container had read from the host before that
    [write] is exactly the line user-namespace-mapping-complete, and
    what it read after it is exactly the line exec-process. *)
Theorem exec_only_after_the_handshake
        (P : platform) (config : json) (to_parent from_parent : Z)
        (tape : list answer) (heap : list bool) (verbose : bool) :
  let run := handle_child P config to_parent from_parent
                          (init_world tape heap verbose) in
  let calls := history (snd run) in
  existsb is_exec calls = true ->
  exists before after,
    until_exec calls
    = before ++ EvWrite to_parent CONTAINER_SETUP_COMPLETE
                        (strlen CONTAINER_SETUP_COMPLETE) :: after /\
    bytes_read from_parent before
    = list_ascii_of_string USER_NAMESPACE_MAPPING_COMPLETE /\
    bytes_read from_parent after = list_ascii_of_string EXEC_PROCESS.
Proof.
  cbv zeta.
  destruct (handle_child P config to_parent from_parent (init_world tape heap verbose))
    as [o w'] eqn:E.
  cbn [fst snd]. unfold history. intros Hx.
  apply handle_child_spec in E
    as [(new & Hn & HF)|(tail & c & mid & c' & n & Ht & -> & Hmid & Htail)].
  - exfalso. rewrite Hn in Hx. cbn [init_world w_trace] in Hx.
    rewrite app_nil_r, (existsb_of_Forall _ _ (Forall_rev HF)) in Hx.
    discriminate.
  - rewrite Ht. cbn [init_world w_trace]. rewrite app_nil_r.
    apply handshake_in_history; assumption.
Qed.

Lemma exec_only_after_the_handshake_witness :
  exists before after,
    until_exec (history (snd (handle_child (mkPlatform (fun _ => -1) None None None)
                                           true_config 7 4
                                           (init_world exec_tape [] false))))
    = before ++ EvWrite 7 CONTAINER_SETUP_COMPLETE
                        (strlen CONTAINER_SETUP_COMPLETE) :: after /\
    bytes_read 4 before = list_ascii_of_string USER_NAMESPACE_MAPPING_COMPLETE /\
    bytes_read 4 after = list_ascii_of_string EXEC_PROCESS.
Proof.
  apply (exec_only_after_the_handshake (mkPlatform (fun _ => -1) None None None)
                                       true_config 7 4 exec_tape [] false).
  vm_compute. reflexivity.
Defined.


(** ** Hooks without the PID of a container *)





